(** * Static site generator of pkgsite: crawl-and-rewrite engine

    A shallow embedding of [cmd/internal/pkgsite/generate.go] (package
    [pkgsite]) in its revisions:

    - the text revisions, where the Content-Security-Policy tag is
      inserted into the bytes of the page by [injectCSP];
    - the DOM revision, which the tests of the package exercise, where
      [processHTML] parses the page and [walkNodes] rewrites the tree.

    [enumerateUnitPaths], [renderAndWriteN], [urlPathToFilePath] and
    the page loops of [GenerateStaticSite] are the same in all
    revisions; [relativePrefix], [absoluteToRelativeAsset] and
    [copyEmbeddedFS] are those of the revisions that write relative
    links.  The step that processes an HTML body is a parameter of
    [renderAndWriteN] here, [htmlStepDOM] in the DOM revision.

    Go strings and byte slices are modelled as [string] (a sequence of
    8-bit characters), Go [int] as [Z].  Functions of Go's standard
    library ([strings], [bytes], [path], [path/filepath], [sort]) are
    modelled after their documented behaviour on a Unix system, where
    the path separator is the slash and [filepath.FromSlash] is the
    identity. *)

From Stdlib Require Import String Ascii ZArith List Lia Bool.
From Stdlib Require Import Sorting.Mergesort Sorting.Sorted Sorting.Permutation.
From stdpp Require Import gmap strings list.
From Equations Require Import Equations.
Import ListNotations.
Open Scope string_scope.
Open Scope Z_scope.

(** ** Go's [strings] and [bytes] packages *)

Module GoStrings.

(** [s[n:]] for [0 <= n]; past the end the model yields the empty string
    (Go panics there; no call site below slices out of range). *)
Fixpoint drop (n : nat) (s : string) : string :=
  match n, s with
  | O, _ => s
  | S _, EmptyString => EmptyString
  | S k, String _ s' => drop k s'
  end.

(** [s[:n]]. *)
Fixpoint take (n : nat) (s : string) : string :=
  match n, s with
  | O, _ => EmptyString
  | S _, EmptyString => EmptyString
  | S k, String c s' => String c (take k s')
  end.

(** [strings.HasPrefix(s, prefix)]. *)
Fixpoint HasPrefix (s prefix : string) {struct prefix} : bool :=
  match prefix, s with
  | EmptyString, _ => true
  | String _ _, EmptyString => false
  | String a p', String b s' => Ascii.eqb a b && HasPrefix s' p'
  end.

(** [strings.HasSuffix(s, suffix)]. *)
Definition HasSuffix (s suffix : string) : bool :=
  (String.length suffix <=? String.length s)%nat &&
  String.eqb (drop (String.length s - String.length suffix) s) suffix.

(** [strings.TrimPrefix(s, prefix)]. *)
Definition TrimPrefix (s prefix : string) : string :=
  if HasPrefix s prefix then drop (String.length prefix) s else s.

(** Scan for [strings.Count]: [skip] characters of a match just counted
    are still to be passed over, so that matches do not overlap. *)
Fixpoint countFrom (substr : string) (skip : nat) (s : string) : Z :=
  match s with
  | EmptyString => 0
  | String _ s' =>
      match skip with
      | S k => countFrom substr k s'
      | O =>
          if HasPrefix s substr
          then 1 + countFrom substr (String.length substr - 1) s'
          else countFrom substr 0 s'
      end
  end.

(** [strings.Count(s, substr)]: the number of non-overlapping instances
    of [substr]; for the empty [substr], one more than the length. *)
Definition Count (s substr : string) : Z :=
  if String.eqb substr "" then Z.of_nat (String.length s) + 1
  else countFrom substr 0 s.

(** [strings.Repeat(s, count)] for [0 <= count] (Go panics below 0). *)
Fixpoint repeatN (s : string) (n : nat) : string :=
  match n with
  | O => ""
  | S k => s ++ repeatN s k
  end.

Definition Repeat (s : string) (count : Z) : string :=
  repeatN s (Z.to_nat count).

(** Scan for [strings.Index]: [i] is the offset of [s] in the whole
    string. *)
Fixpoint indexFrom (substr : string) (i : Z) (s : string) : Z :=
  if HasPrefix s substr then i
  else match s with
       | EmptyString => -1
       | String _ s' => indexFrom substr (i + 1) s'
       end.

(** [strings.Index(s, substr)] and [bytes.Index]: the offset of the
    first instance of [substr], or [-1]. *)
Definition Index (s substr : string) : Z := indexFrom substr 0 s.

(** [bytes.IndexByte(b, c)]. *)
Definition IndexByte (s : string) (c : ascii) : Z :=
  indexFrom (String c "") 0 s.

(** [strings.Contains(s, substr)]. *)
Definition Contains (s substr : string) : bool := 0 <=? Index s substr.

(** Scan for [strings.ReplaceAll] with a non-empty [old]. *)
Fixpoint replaceFrom (old new : string) (skip : nat) (s : string) : string :=
  match s with
  | EmptyString => ""
  | String c s' =>
      match skip with
      | S k => replaceFrom old new k s'
      | O =>
          if HasPrefix s old
          then new ++ replaceFrom old new (String.length old - 1) s'
          else String c (replaceFrom old new 0 s')
      end
  end.

(** The case of an empty [old]: [new] goes in front of every character
    and at the end (characters are single bytes here). *)
Fixpoint intersperse (new : string) (s : string) : string :=
  match s with
  | EmptyString => new
  | String c s' => new ++ String c (intersperse new s')
  end.

(** [strings.ReplaceAll(s, old, new)] and [bytes.ReplaceAll]. *)
Definition ReplaceAll (s old new : string) : string :=
  if String.eqb old "" then intersperse new s
  else replaceFrom old new 0 s.

(** [strings.Join(elems, sep)]. *)
Fixpoint Join (elems : list string) (sep : string) : string :=
  match elems with
  | [] => ""
  | [e] => e
  | e :: rest => e ++ sep ++ Join rest sep
  end.

(** [strings.Split(s, "/")]: the pieces of [s] between slashes; always
    at least one piece. *)
Fixpoint splitSlash (s : string) : list string :=
  match s with
  | EmptyString => [""]
  | String c s' =>
      if Ascii.eqb c "/" then "" :: splitSlash s'
      else match splitSlash s' with
           | h :: t => String c h :: t
           | [] => [String c ""]
           end
  end.

(** [s[lo:hi]] on a Go slice, for the offsets [injectCSP] computes. *)
Definition slice_to (s : string) (hi : Z) : string := take (Z.to_nat hi) s.
Definition slice_from (s : string) (lo : Z) : string := drop (Z.to_nat lo) s.

End GoStrings.

Import GoStrings.

(** ** Go's [path] and [path/filepath] packages *)

Module GoPath.

(** [path.Split(p)]: [p] cut after its last slash, [(dir, file)]; [dir]
    is empty when [p] has no slash. *)
Fixpoint Split (p : string) : string * string :=
  match p with
  | EmptyString => ("", "")
  | String c p' =>
      let (d, f) := Split p' in
      if String.eqb d "" then
        if Ascii.eqb c "/" then ("/", f) else ("", String c f)
      else (String c d, f)
  end.

(** One element of a path met by [Clean]; [stack] holds the elements
    kept so far, the last one first. *)
Definition cleanStep (rooted : bool) (stack : list string) (e : string)
  : list string :=
  if String.eqb e "" || String.eqb e "." then stack
  else if String.eqb e ".." then
    match stack with
    | top :: rest => if String.eqb top ".." then e :: stack else rest
    | [] => if rooted then [] else [e]
    end
  else e :: stack.

(** The path made of the kept elements: [/a/b] when rooted, [a/b]
    otherwise, and [.] for no element at all. *)
Definition render (rooted : bool) (elems : list string) : string :=
  let body := Join elems "/" in
  if rooted then "/" ++ body
  else if String.eqb body "" then "." else body.

(** [path.Clean(p)]: multiple slashes become one, [.] elements go, an
    inner [..] goes with the element before it, a [..] that begins a
    rooted path goes, and the empty result is [.]. *)
Definition Clean (p : string) : string :=
  if String.eqb p "" then "."
  else
    let rooted := HasPrefix p "/" in
    render rooted (rev (fold_left (cleanStep rooted) (splitSlash p) [])).

(** [path.Join(elem...)]: empty elements are ignored, the others are
    joined with slashes and cleaned; no element at all gives the empty
    string. *)
Definition Join (elem : list string) : string :=
  match List.filter (fun e => negb (String.eqb e "")) elem with
  | [] => ""
  | es => Clean (GoStrings.Join es "/")
  end.

(** [path.Dir(p)]. *)
Definition Dir (p : string) : string := Clean (fst (Split p)).

(** [p] without its trailing slashes. *)
Fixpoint trimTrailingSlashes (p : string) : string :=
  match p with
  | EmptyString => ""
  | String c p' =>
      let t := trimTrailingSlashes p' in
      if String.eqb t "" && Ascii.eqb c "/" then "" else String c t
  end.

(** [path.Base(p)]: the last element of [p]. *)
Definition Base (p : string) : string :=
  if String.eqb p "" then "."
  else
    let f := snd (Split (trimTrailingSlashes p)) in
    if String.eqb f "" then "/" else f.

(** Whether a slash occurs in [p]. *)
Fixpoint hasSlash (p : string) : bool :=
  match p with
  | EmptyString => false
  | String c p' => Ascii.eqb c "/" || hasSlash p'
  end.

(** [path.Ext(p)]: the suffix of the last element of [p] that starts at
    its last dot, or the empty string. *)
Fixpoint Ext (p : string) : string :=
  match p with
  | EmptyString => ""
  | String c p' =>
      if hasSlash p' then Ext p'
      else if negb (String.eqb (Ext p') "") then Ext p'
      else if Ascii.eqb c "." then p
      else ""
  end.

End GoPath.

Module GoFilepath.

(** [filepath.FromSlash]: the identity where the separator is a slash. *)
Definition FromSlash (p : string) : string := p.

Definition Clean := GoPath.Clean.
Definition Dir := GoPath.Dir.
Definition Base := GoPath.Base.
Definition Ext := GoPath.Ext.

(** [filepath.Join(elem...)]: the elements from the first non-empty one
    on are joined with the separator and cleaned. *)
Fixpoint Join (elem : list string) : string :=
  match elem with
  | [] => ""
  | e :: rest =>
      if String.eqb e "" then Join rest
      else GoPath.Clean (GoStrings.Join elem "/")
  end.

End GoFilepath.

(** * Package [pkgsite] *)

(** ** Errors *)

(** The errors of the package.  [fmt.Errorf] builds them as text; the
    model keeps what the text is made of. *)
Inductive error : Type :=
| TooManyRedirects (urlPath : string)
    (* "too many redirects for %s" *)
| UnexpectedStatus (urlPath : string) (code : Z)
    (* "GET %s returned status %d" *)
| Wrapped (context : string) (cause : error)
    (* "<context>: %w" *)
| External (message : string).
    (* an error returned by a callee outside the package *)

(** ** Path arithmetic *)

(** [urlPathToFilePath] maps a URL path to a filesystem path under
    [outDir]: [/] becomes [outDir/index.html], [/foo/bar] becomes
    [outDir/foo/bar/index.html], and a path with a file extension stays
    as it is. *)
Definition urlPathToFilePath (urlPath outDir : string) : string :=
  let clean := TrimPrefix urlPath "/" in
  if String.eqb clean "" then GoFilepath.Join [outDir; "index.html"]
  else if negb (String.eqb (GoFilepath.Ext clean) "") then
    GoFilepath.Join [outDir; GoFilepath.FromSlash clean]
  else GoFilepath.Join [outDir; GoFilepath.FromSlash clean; "index.html"].

(** [relativePrefix] returns the [../] prefix that leads from the page
    at [urlPath] back to the site root. *)
Definition relativePrefix (urlPath : string) : string :=
  let clean := TrimPrefix urlPath "/" in
  if String.eqb clean "" then "./"
  else
    let depth := Count clean "/" + 1 in
    Repeat "../" depth.

(** ** Asset rewriting *)

(** The double quote and the single quote, as one-character strings. *)
Definition dquote : string := String "034"%char "".
Definition squote : string := String "039"%char "".

(** The two directories under which the static assets are served. *)
Definition assetDirs : list string := ["/static/"; "/third_party/"].

(** The prefix [absoluteToRelativeAsset] computes from the path of the
    file: as many [../] as the file has directories above it. *)
Definition assetPrefix (filePath : string) : string :=
  let dir := GoPath.Dir filePath in
  let depth := if negb (String.eqb dir ".") then Count dir "/" + 1 else 0 in
  Repeat "../" depth.

(** [absoluteToRelativeAsset] converts the absolute references of a CSS
    or JS file to relative ones; the path of the file within the output
    directory gives the depth. *)
Definition absoluteToRelativeAsset (content filePath : string) : string :=
  let prefix := assetPrefix filePath in
  fold_left
    (fun s dir =>
       let s := ReplaceAll s (dquote ++ dir) (dquote ++ prefix ++ drop 1 dir) in
       let s := ReplaceAll s (squote ++ dir) (squote ++ prefix ++ drop 1 dir) in
       ReplaceAll s ("(" ++ dir) ("(" ++ prefix ++ drop 1 dir))
    assetDirs content.

(** [relativizeScriptText] rewrites the absolute path literals of an
    inline script. *)
Definition relativizeScriptText (script prefix : string) : string :=
  fold_left
    (fun s dir =>
       let s := ReplaceAll s (dquote ++ dir) (dquote ++ prefix ++ drop 1 dir) in
       ReplaceAll s (squote ++ dir) (squote ++ prefix ++ drop 1 dir))
    assetDirs script.

(** ** Content-Security-Policy, text revisions *)

(** The directive value injected into every page. *)
Definition cspContent : string :=
  "default-src 'self'; " ++
  "script-src 'self' 'unsafe-inline'; " ++
  "style-src 'self' 'unsafe-inline'; " ++
  "img-src 'self' data:; " ++
  "font-src 'self'; " ++
  "connect-src 'none'; " ++
  "frame-src 'none'; " ++
  "object-src 'none'; " ++
  "base-uri 'none'".

(** The meta tag of the text revisions. *)
Definition cspMeta : string :=
  "<meta http-equiv=" ++ dquote ++ "Content-Security-Policy" ++ dquote ++
  " content=" ++ dquote ++ cspContent ++ dquote ++ ">".

(** The line that [injectCSP] inserts: a newline, four blanks and the
    tag. *)
Definition cspInsertion : string := String "010"%char "    " ++ cspMeta.

(** [injectCSP] inserts the meta tag after the first [<head>] of the
    page, or else after the first [>] that follows the first [<head ];
    a page with neither is returned as it is. *)
Definition injectCSP (html : string) : string :=
  let idx := Index html "<head>" in
  if 0 <=? idx then
    let insertion := idx + Z.of_nat (String.length "<head>") in
    slice_to html insertion ++ cspInsertion ++ slice_from html insertion
  else
    let idx := Index html "<head " in
    if 0 <=? idx then
      let end_ := IndexByte (slice_from html idx) ">" in
      if 0 <=? end_ then
        let insertion := idx + end_ + 1 in
        slice_to html insertion ++ cspInsertion ++ slice_from html insertion
      else html
    else html.

(** ** The HTML tree, DOM revision *)

Set Warnings "-register-all".

(** [html.NodeType] of [golang.org/x/net/html]. *)
Inductive NodeType : Type :=
| ErrorNode | TextNode | DocumentNode | ElementNode
| CommentNode | DoctypeNode | RawNode.

(** [html.Attribute]. *)
Record Attribute : Type := mkAttribute {
  AttrNamespace : string;
  Key : string;
  Val : string
}.

(** [html.Node]; the sibling and parent links of the Go structure are
    the list of children here. *)
Inductive Node : Type :=
| mkNode (Type_ : NodeType) (Data : string) (Namespace : string)
         (Attr : list Attribute) (Children : list Node).

Definition Type_ (n : Node) : NodeType := let 'mkNode t _ _ _ _ := n in t.
Definition Data (n : Node) : string := let 'mkNode _ d _ _ _ := n in d.
Definition Namespace (n : Node) : string := let 'mkNode _ _ s _ _ := n in s.
Definition Attr (n : Node) : list Attribute := let 'mkNode _ _ _ a _ := n in a.
Definition Children (n : Node) : list Node := let 'mkNode _ _ _ _ c := n in c.

Definition isElementNode (n : Node) : bool :=
  match Type_ n with ElementNode => true | _ => false end.

Definition isTextNode (n : Node) : bool :=
  match Type_ n with TextNode => true | _ => false end.

(** [isURLAttr] reports whether the attribute name typically contains
    a URL. *)
Definition isURLAttr (attr : string) : bool :=
  if String.eqb attr "href" then true
  else if String.eqb attr "src" then true
  else if String.eqb attr "action" then true
  else if String.eqb attr "poster" then true
  else if String.eqb attr "data" then true
  else false.

(** The test of the attribute loop of [walkNodes]. *)
Definition isRewriteTarget (a : Attribute) : bool :=
  isURLAttr (Key a) && HasPrefix (Val a) "/" && negb (HasPrefix (Val a) "//").

(** The attribute loop of [walkNodes]: [n.Attr[i].Val] is assigned in
    place, index after index. *)
Definition rewriteAttrs (prefix : string) (attrs : list Attribute)
  : list Attribute :=
  fold_left
    (fun (acc : list Attribute) (i : nat) =>
       match acc !! i with
       | Some a =>
           if isRewriteTarget a
           then <[i := mkAttribute (AttrNamespace a) (Key a)
                         (prefix ++ drop 1 (Val a))]> acc
           else acc
       | None => acc
       end)
    (seq 0 (List.length attrs)) attrs.

(** The node that carries the policy. *)
Definition cspMetaNode : Node :=
  mkNode ElementNode "meta" ""
    [ mkAttribute "" "http-equiv" "Content-Security-Policy";
      mkAttribute "" "content" cspContent ]
    [].

(** The loop over the children of a script element: text children get
    their path literals rewritten. *)
Definition rewriteScriptChild (prefix : string) (c : Node) : Node :=
  if isTextNode c
  then mkNode (Type_ c) (relativizeScriptText (Data c) prefix) (Namespace c)
              (Attr c) (Children c)
  else c.

(** What [walkNodes] does to the node [n] itself, before it descends:
    the attributes of an element are rewritten, a [head] element gets
    the policy node in front of its children ([InsertBefore] with
    [FirstChild]), the text of a [script] element is rewritten. *)
Definition visit (prefix : string) (n : Node) : Node :=
  if isElementNode n then
    let attrs := rewriteAttrs prefix (Attr n) in
    let children :=
      if String.eqb (Data n) "head" then cspMetaNode :: Children n
      else Children n in
    let children :=
      if String.eqb (Data n) "script"
      then map (rewriteScriptChild prefix) children
      else children in
    mkNode (Type_ n) (Data n) (Namespace n) attrs children
  else n.

(** The measure of the descent: the nodes of the tree, a [head] element
    counted twice to cover the node it is given. *)
Fixpoint weight (n : Node) : nat :=
  let 'mkNode t d _ _ cs := n in
  S ((if (match t with ElementNode => true | _ => false end)
         && String.eqb d "head" then 1 else 0)
     + list_sum (map weight cs))%nat.

(** [map] over the members of a list, with the proof of membership. *)
Fixpoint map_In {A B : Type} (l : list A) : (forall x, In x l -> B) -> list B :=
  match l with
  | [] => fun _ => []
  | x :: xs => fun f =>
      f x (or_introl eq_refl) :: map_In xs (fun y H => f y (or_intror H))
  end.

Lemma weight_child (n c : Node) :
  In c (Children n) -> (weight c < weight n)%nat.
Proof.
  destruct n as [t d ns a cs]; simpl.
  induction cs as [|x xs IH]; simpl; [tauto|].
  intros [->|H]; [lia|]. specialize (IH H). lia.
Qed.

Lemma weight_rewriteScriptChild (prefix : string) (c : Node) :
  weight (rewriteScriptChild prefix c) = weight c.
Proof.
  unfold rewriteScriptChild, isTextNode.
  destruct c as [t d ns a cs]; simpl. destruct t; reflexivity.
Qed.

Lemma weight_visit_child (prefix : string) (n c : Node) :
  In c (Children (visit prefix n)) -> (weight c < weight n)%nat.
Proof.
  unfold visit. destruct (isElementNode n) eqn:He; [|apply weight_child].
  simpl. intros H.
  assert (Hin : exists c0, weight c = weight c0 /\
            In c0 (if String.eqb (Data n) "head"
                   then cspMetaNode :: Children n else Children n)).
  { destruct (String.eqb (Data n) "script"); [|eauto].
    apply in_map_iff in H as (c0 & <- & H0).
    exists c0. split; [apply weight_rewriteScriptChild|exact H0]. }
  destruct Hin as (c0 & -> & H0).
  destruct (String.eqb (Data n) "head") eqn:Hd.
  - destruct H0 as [<-|H0].
    + destruct n as [t d ns a cs]. unfold isElementNode in He. simpl in *.
      destruct t; try discriminate. rewrite Hd. simpl. lia.
    + apply weight_child, H0.
  - apply weight_child, H0.
Qed.

(** [walkNodes] walks the tree: it rewrites the node, then walks each
    child of the rewritten node. *)
Equations walkNodes (n : Node) (prefix : string) : Node by wf (weight n) lt :=
  walkNodes n prefix :=
    mkNode (Type_ (visit prefix n)) (Data (visit prefix n))
           (Namespace (visit prefix n)) (Attr (visit prefix n))
           (map_In (Children (visit prefix n))
                   (fun c H => walkNodes c prefix)).
Next Obligation. eapply weight_visit_child; eassumption. Qed.

(** ** Collaborators outside the package *)

(** A value or an error: Go's [(T, error)]. *)
Inductive result (A : Type) : Type :=
| Ok (a : A)
| Err (e : error).
Arguments Ok {A} a.
Arguments Err {A} e.

(** [html.Parse] and [html.Render] of [golang.org/x/net/html]. *)
Class HTMLCodec : Type := {
  Parse : string -> result Node;
  Render : Node -> result string
}.

(** The two calls of package [os] the generator makes, on a disk of
    type [Disk]; each may fail. *)
Class OS (Disk : Type) : Type := {
  MkdirAll : string -> Disk -> Disk * option error;
  WriteFile : string -> string -> Disk -> Disk * option error
}.

(** [http.Header] and its [Get]: the first value under the key, or the
    empty string. *)
Definition Header : Type := gmap string (list string).

Definition Get (h : Header) (key : string) : string :=
  match h !! key with
  | Some (v :: _) => v
  | _ => ""
  end.

(** What [httptest.ResponseRecorder] holds once the request is served. *)
Record Response : Type := mkResponse {
  Code : Z;
  RespHeader : Header;
  Body : string
}.

(** The router with all routes installed: it answers a GET of a path. *)
Definition ServeMux : Type := string -> Response.

Definition StatusOK : Z := 200.
Definition StatusMovedPermanently : Z := 301.
Definition StatusFound : Z := 302.

(** ** Processing of a page, DOM revision *)

(** [processHTML] parses the page, injects the policy and rewrites the
    absolute paths, then renders the tree. *)
Definition processHTML `{HTMLCodec} (content urlPath : string) : result string :=
  let prefix := relativePrefix urlPath in
  match Parse content with
  | Err err => Err (Wrapped "parsing HTML" err)
  | Ok doc =>
      match Render (walkNodes doc prefix) with
      | Err err => Err (Wrapped "rendering HTML" err)
      | Ok buf => Ok buf
      end
  end.

(** The HTML branch of [renderAndWriteN] in the DOM revision. *)
Definition htmlStepDOM `{HTMLCodec} (body urlPath : string) : result string :=
  match processHTML body urlPath with
  | Err err => Err (Wrapped ("processing HTML for " ++ urlPath) err)
  | Ok processed => Ok processed
  end.

(** The HTML branch of the first text revision: the policy tag only. *)
Definition htmlStepCSP (body urlPath : string) : result string :=
  Ok (injectCSP body).

(** ** Rendering one page *)

(** Whether the response is a redirect that [renderAndWriteN] follows,
    and where to. *)
Definition redirectTarget (w : Response) : option string :=
  if (Code w =? StatusMovedPermanently) || (Code w =? StatusFound) then
    let loc := Get (RespHeader w) "Location" in
    if negb (String.eqb loc "") then Some loc else None
  else None.

(** The body [renderAndWriteN] writes for the response [w] to a GET of
    [urlPath]: a body whose content type holds [text/html], or is
    empty, goes through [htmlStep], the step in which the revisions
    differ. *)
Definition bodyToWrite (htmlStep : string -> string -> result string)
    (w : Response) (urlPath : string) : result string :=
  let contentType := Get (RespHeader w) "Content-Type" in
  if Contains contentType "text/html" || String.eqb contentType ""
  then htmlStep (Body w) urlPath
  else Ok (Body w).

(** The part of [renderAndWriteN] after the redirects: the status is
    checked, the body is processed, and it is written to the file of
    [urlPath] under [outDir], the directories made first. *)
Definition writeResponse {Disk : Type} `{OS Disk}
    (htmlStep : string -> string -> result string)
    (w : Response) (urlPath outDir : string) (d : Disk)
  : Disk * option error :=
  if negb (Code w =? StatusOK) then (d, Some (UnexpectedStatus urlPath (Code w)))
  else
    match bodyToWrite htmlStep w urlPath with
    | Err err => (d, Some err)
    | Ok body =>
        let outPath := urlPathToFilePath urlPath outDir in
        match MkdirAll (GoFilepath.Dir outPath) d with
        | (d, Some err) => (d, Some err)
        | (d, None) => WriteFile outPath body d
        end
    end.

Section Rendering.

Context {Disk : Type} `{OS Disk}.
Context (htmlStep : string -> string -> result string).
Context (mux : ServeMux) (outDir : string).

(** [renderAndWriteN] renders [urlPath] with the router, follows a
    redirect with [depth + 1], and gives up past depth 5. *)
Equations renderAndWriteN (urlPath : string) (depth : Z) (d : Disk)
  : Disk * option error by wf (Z.to_nat (6 - depth)) lt :=
  renderAndWriteN urlPath depth d with Z_gt_dec depth 5 := {
    | left _ => (d, Some (TooManyRedirects urlPath));
    | right _ with redirectTarget (mux urlPath) := {
        | Some loc => renderAndWriteN loc (depth + 1) d;
        | None => writeResponse htmlStep (mux urlPath) urlPath outDir d } }.
Next Obligation. lia. Qed.

(** [renderAndWrite] renders [urlPath] and writes the response body to
    the file under [outDir]. *)
Definition renderAndWrite (urlPath : string) (d : Disk) : Disk * option error :=
  renderAndWriteN urlPath 0 d.

End Rendering.

(** ** Enumeration of the unit paths *)

(** [internal.UnitMeta], of which the path is read. *)
Record UnitMeta : Type := mkUnitMeta { Path : string }.

(** [fetch.LazyModule], of which the error and the unit metas are read. *)
Record LazyModule : Type := mkLazyModule {
  Error_ : option error;
  UnitMetas : list UnitMeta
}.

(** A [fetch.ModuleGetter], taken as what [fetch.FetchLazyModule]
    answers with it for the local version of a module path. *)
Definition ModuleGetter : Type := string -> LazyModule.

Definition FetchLazyModule (modulePath : string) (g : ModuleGetter) : LazyModule :=
  g modulePath.

(** [frontend.LocalModule], of which the module path is read. *)
Record LocalModule : Type := mkLocalModule { ModulePath : string }.

(** [sort.Strings]: strings in increasing byte-wise order. *)
Module StringOrder <: Orders.TotalLeBool.

Definition t : Type := string.

Definition leb : string -> string -> bool := String.leb.

Lemma leb_total (s1 s2 : string) : leb s1 s2 = true \/ leb s2 s1 = true.
Proof. apply String.leb_total. Qed.

End StringOrder.

Module StringSort := Mergesort.Sort StringOrder.

Definition sortStrings (l : list string) : list string := StringSort.sort l.

(** The state of the loops of [enumerateUnitPaths]: the map [seen] and
    the slice [paths]. *)
Definition Seen : Type := gmap string bool * list string.

(** The innermost loop body: a path not seen yet is marked and appended. *)
Definition addUnit (st : Seen) (um : UnitMeta) : Seen :=
  let '(seen, paths) := st in
  if negb (default false (seen !! Path um))
  then (<[Path um := true]> seen, (paths ++ [Path um])%list)
  else st.

(** The loop over the getters for one module: a getter that answers
    with an error is passed over, the first other one is used and ends
    the loop. *)
Fixpoint tryGetters (modulePath : string) (getters : list ModuleGetter)
    (st : Seen) : Seen :=
  match getters with
  | [] => st
  | g :: rest =>
      let lm := FetchLazyModule modulePath g in
      match Error_ lm with
      | Some _ => tryGetters modulePath rest st
      | None => fold_left addUnit (UnitMetas lm) st
      end
  end.

(** [enumerateUnitPaths] collects the unit paths of the modules from the
    getters; its error is always nil. *)
Definition enumerateUnitPaths (getters : list ModuleGetter)
    (modules : list LocalModule) : list string * option error :=
  let st :=
    fold_left (fun st mod_ => tryGetters (ModulePath mod_) getters st)
              modules (∅, []) in
  (sortStrings (snd st), None).

(** ** Copy of the embedded assets *)

(** What [fs.WalkDir] hands to its callback. *)
Record WalkEntry : Type := mkWalkEntry {
  entryPath : string;
  entryIsDir : bool;
  entryErr : option error
}.

(** An [fs.FS]: the entries [fs.WalkDir] visits from a root, in its
    order, and [fs.ReadFile]. *)
Record FS : Type := mkFS {
  WalkDir : string -> list WalkEntry;
  ReadFile : string -> result string
}.

(** The path handed to [absoluteToRelativeAsset] for the file [fpath]
    copied under [destDir]: the base name of [destDir], then [fpath]. *)
Definition siteRelPath (destDir fpath : string) : string :=
  GoPath.Join [GoFilepath.Base destDir; fpath].

(** The callback of [copyEmbeddedFS]. *)
Definition copyEntry {Disk : Type} `{OS Disk} (fsys : FS) (destDir : string)
    (e : WalkEntry) (d : Disk) : Disk * option error :=
  match entryErr e with
  | Some err => (d, Some err)
  | None =>
      let fpath := entryPath e in
      let dest := GoFilepath.Join [destDir; GoFilepath.FromSlash fpath] in
      if entryIsDir e then MkdirAll dest d
      else
        match ReadFile fsys fpath with
        | Err err => (d, Some err)
        | Ok data =>
            let ext := GoFilepath.Ext fpath in
            let data :=
              if String.eqb ext ".css" || String.eqb ext ".js"
              then absoluteToRelativeAsset data (siteRelPath destDir fpath)
              else data in
            match MkdirAll (GoFilepath.Dir dest) d with
            | (d, Some err) => (d, Some err)
            | (d, None) => WriteFile dest data d
            end
        end
  end.

(** The walk stops at the first error of the callback. *)
Fixpoint walkWith {Disk : Type} (fn : WalkEntry -> Disk -> Disk * option error)
    (entries : list WalkEntry) (d : Disk) : Disk * option error :=
  match entries with
  | [] => (d, None)
  | e :: rest =>
      match fn e d with
      | (d, Some err) => (d, Some err)
      | (d, None) => walkWith fn rest d
      end
  end.

(** [copyEmbeddedFS] copies all files of an embedded filesystem to
    [destDir]; CSS and JS files get their absolute references
    converted. *)
Definition copyEmbeddedFS {Disk : Type} `{OS Disk} (fsys : FS)
    (root destDir : string) (d : Disk) : Disk * option error :=
  walkWith (copyEntry fsys destDir) (WalkDir fsys root) d.

(** ** The whole run *)

(** The lines written to the standard error stream. *)
Inductive StderrLine : Type :=
| MsgGenerating (total : Z)
| MsgProgress (current total : Z) (urlPath : string)
| MsgCopying
| MsgGenerated (outDir : string).

(** [log.Errorf(ctx, "rendering %s: %v", p, err)]. *)
Record LogEntry : Type := LogRendering { logPath : string; logErr : error }.

(** What the run changes: the disk, the progress counter, the two
    streams. *)
Record Run (Disk : Type) : Type := mkRun {
  disk : Disk;
  current : Z;
  stderr : list StderrLine;
  errlog : list LogEntry
}.
Arguments mkRun {Disk} _ _ _ _.
Arguments disk {Disk} _.
Arguments current {Disk} _.
Arguments stderr {Disk} _.
Arguments errlog {Disk} _.

(** What [buildServerAndGetters] returns, the routes of the server
    installed on the router. *)
Record BuildResult : Type := mkBuildResult {
  Mux : ServeMux;
  Getters : list ModuleGetter;
  AllModules : list LocalModule
}.

(** The closure [progress]. *)
Definition progress {Disk : Type} (total : Z) (urlPath : string)
    (r : Run Disk) : Run Disk :=
  mkRun (disk r) (current r + 1)
        ((stderr r ++ [MsgProgress (current r + 1) total urlPath])%list) (errlog r).

(** The body of the two page loops: the page is rendered, and an error
    is logged. *)
Definition renderLogged {Disk : Type} `{OS Disk}
    (htmlStep : string -> string -> result string)
    (mux : ServeMux) (outDir : string) (total : Z)
    (r : Run Disk) (urlPath : string) : Run Disk :=
  let r := progress total urlPath r in
  match renderAndWrite htmlStep mux outDir urlPath (disk r) with
  | (d, Some err) =>
      mkRun d (current r) (stderr r) ((errlog r ++ [LogRendering urlPath err])%list)
  | (d, None) => mkRun d (current r) (stderr r) (errlog r)
  end.

Definition staticPages : list string := ["/about"; "/license-policy"; "/search-help"].

Definition say {Disk : Type} (line : StderrLine) (r : Run Disk) : Run Disk :=
  mkRun (disk r) (current r) ((stderr r ++ [line])%list) (errlog r).

Definition setDisk {Disk : Type} (d : Disk) (r : Run Disk) : Run Disk :=
  mkRun d (current r) (stderr r) (errlog r).

(** The two page loops of [GenerateStaticSite]: the static pages, then
    one page for each unit path. *)
Definition renderPages {Disk : Type} `{OS Disk}
    (htmlStep : string -> string -> result string)
    (mux : ServeMux) (outDir : string) (total : Z) (paths : list string)
    (r : Run Disk) : Run Disk :=
  let r := fold_left (renderLogged htmlStep mux outDir total) staticPages r in
  fold_left (fun r p => renderLogged htmlStep mux outDir total r ("/" ++ p))
            paths r.

(** The end of [GenerateStaticSite]: the two embedded filesystems and
    the favicon are copied. *)
Definition copyAssets {Disk : Type} `{OS Disk}
    (staticFS thirdpartyFS : FS) (outDir : string) (r : Run Disk)
  : Run Disk * option error :=
  let r := say MsgCopying r in
  match copyEmbeddedFS staticFS "." (GoFilepath.Join [outDir; "static"]) (disk r) with
  | (d, Some err) => (setDisk d r, Some (Wrapped "copying static assets" err))
  | (d, None) =>
  let r := setDisk d r in
  match copyEmbeddedFS thirdpartyFS "." (GoFilepath.Join [outDir; "third_party"]) (disk r) with
  | (d, Some err) => (setDisk d r, Some (Wrapped "copying third_party assets" err))
  | (d, None) =>
  let r := setDisk d r in
  let r :=
    match ReadFile staticFS "shared/icon/favicon.ico" with
    | Ok favicon =>
        setDisk (fst (WriteFile (GoFilepath.Join [outDir; "favicon.ico"]) favicon (disk r))) r
    | Err _ => r
    end in
  (say (MsgGenerated outDir) r, None)
  end end.

(** [GenerateStaticSite] generates the static site into [outDir].
    [built] is the outcome of [buildServerAndGetters], [staticFS] and
    [thirdpartyFS] are the two embedded filesystems. *)
Definition GenerateStaticSite {Disk : Type} `{OS Disk}
    (htmlStep : string -> string -> result string)
    (built : result BuildResult) (staticFS thirdpartyFS : FS)
    (outDir : string) (r : Run Disk) : Run Disk * option error :=
  match built with
  | Err err => (r, Some (Wrapped "building server" err))
  | Ok res =>
  let mux := Mux res in
  match enumerateUnitPaths (Getters res) (AllModules res) with
  | (_, Some err) => (r, Some (Wrapped "enumerating packages" err))
  | (paths, None) =>
  let total := 1 + Z.of_nat (List.length staticPages) + Z.of_nat (List.length paths) in
  let r := say (MsgGenerating total) r in
  let r := progress total "/" r in
  match renderAndWrite htmlStep mux outDir "/" (disk r) with
  | (d, Some err) => (setDisk d r, Some (Wrapped "rendering homepage" err))
  | (d, None) =>
      copyAssets staticFS thirdpartyFS outDir
        (renderPages htmlStep mux outDir total paths (setDisk d r))
  end end end.

(** ** A disk in memory *)

(** The files of a disk that never fails, by path; used to run the
    generator on examples. *)
Definition MemDisk : Type := gmap string string.

#[export] Instance memOS : OS MemDisk := {
  MkdirAll := fun _ d => (d, None);
  WriteFile := fun name data d => (<[name := data]> d, None)
}.

(** ** Notions used in the statements *)

(** [sub] occurs in [s]. *)
Definition Substring (sub s : string) : Prop :=
  exists pre post : string, s = pre ++ sub ++ post.

Definition nonEmpty (e : string) : bool := negb (String.eqb e "").

(** The depth of a URL path in the words of the data model: the number
    of non-empty segments between its slashes. *)
Definition Depth (p : string) : Z :=
  Z.of_nat (List.length (List.filter nonEmpty (splitSlash p))).

(** A URL path of the data model: it begins with a slash and, the root
    [/] apart, no segment after that slash is empty (so it has no
    trailing slash either). *)
Definition isURLPath (p : string) : bool :=
  HasPrefix p "/" &&
  (String.eqb p "/" || forallb nonEmpty (splitSlash (drop 1 p))).

(** [m] occurs in the tree [n]: it is [n] or occurs in a child of [n]. *)
Inductive Occurs (m : Node) : Node -> Prop :=
| Occurs_here : Occurs m m
| Occurs_below (n c : Node) :
    In c (Children n) -> Occurs m c -> Occurs m n.

(** The number of nodes of the tree [n] that pass the test [f]. *)
Fixpoint countWhere (f : Node -> bool) (n : Node) : nat :=
  ((if f n then 1 else 0)
   + list_sum (map (countWhere f) (let 'mkNode _ _ _ _ cs := n in cs)))%nat.

Definition isHeadElement (n : Node) : bool :=
  isElementNode n && String.eqb (Data n) "head".

Definition Attribute_eqb (a b : Attribute) : bool :=
  String.eqb (AttrNamespace a) (AttrNamespace b)
  && String.eqb (Key a) (Key b) && String.eqb (Val a) (Val b).

(** Whether [n] is the policy node. *)
Definition isCSPMetaNode (n : Node) : bool :=
  match n with
  | mkNode ElementNode d ns [a1; a2] [] =>
      String.eqb d "meta" && String.eqb ns ""
      && Attribute_eqb a1 (mkAttribute "" "http-equiv" "Content-Security-Policy")
      && Attribute_eqb a2 (mkAttribute "" "content" cspContent)
  | _ => false
  end.

(** The attribute names that carry a URL. *)
Definition urlAttrNames : list string := ["href"; "src"; "action"; "poster"; "data"].

(** The path reached from [urlPath] by following [k] redirects of the
    router, if there are that many in a row. *)
Fixpoint hops (mux : ServeMux) (urlPath : string) (k : nat) : option string :=
  match k with
  | O => Some urlPath
  | S k' =>
      match redirectTarget (mux urlPath) with
      | Some loc => hops mux loc k'
      | None => None
      end
  end.

(** The progress lines for [pages], the counter standing at [current]. *)
Fixpoint progressLines (current total : Z) (pages : list string)
  : list StderrLine :=
  match pages with
  | [] => []
  | p :: rest =>
      MsgProgress (current + 1) total p :: progressLines (current + 1) total rest
  end.

(** ** A router and a site for the examples *)

Definition redirectTo (code : Z) (loc : string) : Response :=
  mkResponse code {[ "Location" := [loc] ]} "".

Definition pageOf (contentType body : string) : Response :=
  mkResponse StatusOK {[ "Content-Type" := [contentType] ]} body.

Definition notFound : Response := mkResponse 404 ∅ "404 page not found".

(** [/a] leads to [/f] in five redirects, [/z] to [/f] in six, [/loop]
    to itself; [/about] is a page, and nothing else exists, the root
    included. *)
Definition chainMux : ServeMux := fun p =>
  if String.eqb p "/z" then redirectTo StatusFound "/a"
  else if String.eqb p "/a" then redirectTo StatusMovedPermanently "/b"
  else if String.eqb p "/b" then redirectTo StatusFound "/c"
  else if String.eqb p "/c" then redirectTo StatusFound "/d"
  else if String.eqb p "/d" then redirectTo StatusFound "/e"
  else if String.eqb p "/e" then redirectTo StatusFound "/f"
  else if String.eqb p "/f" then pageOf "text/plain" "final"
  else if String.eqb p "/loop" then redirectTo StatusFound "/loop"
  else if String.eqb p "/about" then pageOf "text/plain" "about"
  else notFound.

Definition emptyFS : FS := mkFS (fun _ => []) (fun _ => Err (External "file does not exist")).

Definition emptyRun : Run MemDisk := mkRun ∅ 0 [] [].

(** A site without modules on the router of the examples. *)
Definition exampleSite : BuildResult := mkBuildResult chainMux [] [].

(** A path element that names a file or a directory: not empty, not
    [.] or [..], and without a slash. *)
Definition isName (e : string) : bool :=
  nonEmpty e && negb (String.eqb e ".") && negb (String.eqb e "..")
  && negb (GoPath.hasSlash e).

(** A URL path that is rendered as a page: the root, or names joined by
    slashes after a leading slash, the last of them without a file
    extension. *)
Definition isPagePath (p : string) : bool :=
  HasPrefix p "/" &&
  (String.eqb p "/"
   || forallb isName (splitSlash (drop 1 p))
      && String.eqb (GoFilepath.Ext (drop 1 p)) "").

(** The path of a file in an embedded filesystem, as [fs.WalkDir] gives
    it: names joined by slashes. *)
Definition isFilePath (p : string) : bool := forallb isName (splitSlash p).

(** An embedded filesystem with one stylesheet at its root. *)
Definition styleFS : FS :=
  mkFS (fun _ => [mkWalkEntry "." true None; mkWalkEntry "style.css" false None])
       (fun name =>
          if String.eqb name "style.css" then Ok "a{background:url(/static/foo.png)}"
          else Err (External "file does not exist")).

(** ** Notions used in the proofs *)

(** The map [seen] marks exactly the paths collected so far, and no
    path is collected twice. *)
Definition seenInv (st : Seen) : Prop :=
  NoDup (snd st)
  /\ forall p, default false (fst st !! p) = true <-> In p (snd st).

(** The unit metas [tryGetters] takes for a module: those of the first
    getter that answers without an error, none if there is no such
    getter. *)
Definition FirstAnswer (modulePath : string) (getters : list ModuleGetter)
    (ums : list UnitMeta) : Prop :=
  exists (failed : list ModuleGetter) (g : ModuleGetter) (rest : list ModuleGetter),
    getters = (failed ++ g :: rest)%list
    /\ Forall (fun g' => Error_ (FetchLazyModule modulePath g') <> None) failed
    /\ Error_ (FetchLazyModule modulePath g) = None
    /\ ums = UnitMetas (FetchLazyModule modulePath g).

(** What the loop makes of one attribute. *)
Definition rewriteAttr (prefix : string) (a : Attribute) : Attribute :=
  if isRewriteTarget a
  then mkAttribute (AttrNamespace a) (Key a) (prefix ++ drop 1 (Val a))
  else a.

(** A document with links of the kinds the transformer tells apart. *)
Definition linksBody : Node :=
  mkNode ElementNode "body" ""
    []
    [ mkNode ElementNode "a" ""
        [mkAttribute "" "class" "/nav"; mkAttribute "" "href" "/about"] [];
      mkNode ElementNode "a" "" [mkAttribute "" "href" "//example.com"] [];
      mkNode ElementNode "a" "" [mkAttribute "" "href" "#x"] [];
      mkNode ElementNode "a" "" [mkAttribute "" "href" "/"] [] ].

Definition linksDoc : Node :=
  mkNode DocumentNode "" "" []
    [ mkNode ElementNode "html" "" []
        [ mkNode ElementNode "head" "" [] [mkNode ElementNode "title" "" [] []];
          linksBody ] ].

(** Whether [p] is rooted, and the elements [Clean] keeps of [p], in
    the order of the path. *)
Definition rootedOf (p : string) : bool := HasPrefix p "/".

Definition elemsOf (p : string) : list string :=
  List.rev (fold_left (GoPath.cleanStep (rootedOf p)) (splitSlash p) []).

(** A cleaned list of elements: [..] elements first, none of them if
    the path is rooted, then names. *)
Definition cleanElems (rooted : bool) (elems : list string) : Prop :=
  exists (k : nat) (names : list string),
    elems = (List.repeat ".." k ++ names)%list
    /\ forallb isName names = true
    /\ (rooted = true -> k = O).

(** * The other revisions *)

(** ** The first revision: a plain copy of the assets *)

Module FirstRev.

(** The callback of [copyEmbeddedFS]: directories are made, files are
    written as they are read. *)
Definition copyEntry {Disk : Type} `{OS Disk} (fsys : FS) (destDir : string)
    (e : WalkEntry) (d : Disk) : Disk * option error :=
  match entryErr e with
  | Some err => (d, Some err)
  | None =>
      let path := entryPath e in
      let dest := GoFilepath.Join [destDir; GoFilepath.FromSlash path] in
      if entryIsDir e then MkdirAll dest d
      else
        match ReadFile fsys path with
        | Err err => (d, Some err)
        | Ok data =>
            match MkdirAll (GoFilepath.Dir dest) d with
            | (d, Some err) => (d, Some err)
            | (d, None) => WriteFile dest data d
            end
        end
  end.

(** [copyEmbeddedFS] copies all files of an embedded filesystem to
    [destDir]. *)
Definition copyEmbeddedFS {Disk : Type} `{OS Disk} (fsys : FS)
    (root destDir : string) (d : Disk) : Disk * option error :=
  walkWith (copyEntry fsys destDir) (WalkDir fsys root) d.

End FirstRev.

(** ** The revision with a base path *)

Module BasePathRev.

(** The first lines of [GenerateStaticSite]: the base path is given a
    leading and a trailing slash. *)
Definition normalizeBasePath (basePath : string) : string :=
  let basePath := if String.eqb basePath "" then "/" else basePath in
  let basePath :=
    if negb (HasPrefix basePath "/") then "/" ++ basePath else basePath in
  if negb (HasSuffix basePath "/") then basePath ++ "/" else basePath.

(** [basePathRewriter]: the base path it rewrites to. *)
Record basePathRewriter : Type := mkRewriter { basePath : string }.

(** [newBasePathRewriter]: no rewriter, [nil], for the base path [/]. *)
Definition newBasePathRewriter (basePath : string) : option basePathRewriter :=
  if String.eqb basePath "/" then None else Some (mkRewriter basePath).

(** [rewriteAbsolutePathsInAsset] puts the base path in front of the
    absolute references of a CSS or JS file. *)
Definition rewriteAbsolutePathsInAsset (content basePath : string) : string :=
  if String.eqb basePath "/" then content
  else
    fold_left
      (fun content prefix =>
         let content :=
           fold_left
             (fun content q =>
                ReplaceAll content (q ++ prefix) (q ++ basePath ++ drop 1 prefix))
             [dquote; squote] content in
         ReplaceAll content ("(" ++ prefix) ("(" ++ basePath ++ drop 1 prefix))
      ["/static/"; "/third_party/"] content.

(** The callback of [copyEmbeddedFS]: with a rewriter, CSS and JS files
    are rewritten. *)
Definition copyEntry {Disk : Type} `{OS Disk} (fsys : FS) (destDir : string)
    (rewriter : option basePathRewriter)
    (e : WalkEntry) (d : Disk) : Disk * option error :=
  match entryErr e with
  | Some err => (d, Some err)
  | None =>
      let path := entryPath e in
      let dest := GoFilepath.Join [destDir; GoFilepath.FromSlash path] in
      if entryIsDir e then MkdirAll dest d
      else
        match ReadFile fsys path with
        | Err err => (d, Some err)
        | Ok data =>
            let data :=
              match rewriter with
              | Some rw =>
                  let ext := GoFilepath.Ext path in
                  if String.eqb ext ".css" || String.eqb ext ".js"
                  then rewriteAbsolutePathsInAsset data (basePath rw)
                  else data
              | None => data
              end in
            match MkdirAll (GoFilepath.Dir dest) d with
            | (d, Some err) => (d, Some err)
            | (d, None) => WriteFile dest data d
            end
        end
  end.

(** [copyEmbeddedFS] copies all files of an embedded filesystem to
    [destDir]; with a rewriter, CSS and JS files are rewritten. *)
Definition copyEmbeddedFS {Disk : Type} `{OS Disk} (fsys : FS)
    (root destDir : string) (rewriter : option basePathRewriter) (d : Disk)
  : Disk * option error :=
  walkWith (copyEntry fsys destDir rewriter) (WalkDir fsys root) d.

End BasePathRev.

(** ** More collaborators for the examples *)

(** The router of the examples with a homepage. *)
Definition homeMux : ServeMux := fun p =>
  if String.eqb p "/" then pageOf "text/html" "<html><head></head></html>"
  else chainMux p.

(** A parser that refuses every page. *)
Definition refusingCodec : HTMLCodec := {|
  Parse := fun _ => Err (External "unexpected EOF");
  Render := fun _ => Ok ""
|}.

(** An embedded filesystem whose second file cannot be read. *)
Definition brokenFS : FS :=
  mkFS (fun _ => [ mkWalkEntry "." true None;
                   mkWalkEntry "a.txt" false None;
                   mkWalkEntry "b.css" false None;
                   mkWalkEntry "c.txt" false None ])
       (fun name =>
          if String.eqb name "b.css" then Err (External "input/output error")
          else Ok ("content of " ++ name)).

(** ** Notions of the further properties *)

(** The prefix that climbs over [names]: what [relativePrefix] gives
    for the page of these names. *)
Definition upPrefix (names : list string) : string :=
  match names with
  | [] => "./"
  | _ => repeatN "../" (List.length names)
  end.

(** Two getters: the first knows the module [example.com/b] only, the
    second knows [example.com/a] as well. *)
Definition exampleGetters : list ModuleGetter :=
  let unknown := mkLazyModule (Some (External "not found")) [] in
  [ (fun m =>
       if String.eqb m "example.com/b"
       then mkLazyModule None [mkUnitMeta "example.com/b"; mkUnitMeta "example.com/b/x"]
       else unknown);
    (fun m =>
       if String.eqb m "example.com/b"
       then mkLazyModule None [mkUnitMeta "example.com/b/other"]
       else if String.eqb m "example.com/a"
       then mkLazyModule None [mkUnitMeta "example.com/a"; mkUnitMeta "example.com/b/x"]
       else unknown) ].

(** * Properties *)

(** The proofs below unfold string concatenation by [simpl]. *)
#[local] Arguments String.append : simpl nomatch.
#[local] Arguments HasPrefix !s !prefix.

(** ** Sanity checks of the library models *)

Example Count_ex : Count "net/http/httptest" "/" = 2.
Proof. reflexivity. Qed.

Example ReplaceAll_ex :
  ReplaceAll "url(/static/a) url(/static/b)" "(/static/" "(../static/"
  = "url(../static/a) url(../static/b)".
Proof. reflexivity. Qed.

Example Index_ex : Index "<html><head>" "<head>" = 6 /\ Index "<html>" "<head>" = -1.
Proof. split; reflexivity. Qed.

Example Clean_ex :
  map GoPath.Clean ["a//b/./c/.."; "/../a"; "../a/../.."; ""; "/"; "a/"; "./"]
  = ["a/b"; "/a"; "../.."; "."; "/"; "a"; "."].
Proof. reflexivity. Qed.

Example Dir_Base_Ext_ex :
  GoPath.Dir "static/frontend/homepage/homepage.css" = "static/frontend/homepage"
  /\ GoPath.Dir "style.css" = "."
  /\ GoPath.Base "out/static" = "static"
  /\ GoPath.Base "out/static/" = "static"
  /\ GoPath.Base "///" = "/"
  /\ GoPath.Ext "gopkg.in/yaml.v3" = ".v3"
  /\ GoPath.Ext "github.com/user/repo" = ""
  /\ GoPath.Ext "a/b.tar.gz" = ".gz".
Proof. repeat split; reflexivity. Qed.

Example filepath_Join_ex :
  GoFilepath.Join ["out"; "net/http"; "index.html"] = "out/net/http/index.html"
  /\ GoFilepath.Join [""; "static"] = "static"
  /\ GoFilepath.Join ["out/"; "static"] = "out/static".
Proof. repeat split; reflexivity. Qed.

Example walkNodes_ex :
  walkNodes
    (mkNode ElementNode "html" "" []
       [ mkNode ElementNode "head" "" [] [mkNode ElementNode "title" "" [] []];
         mkNode ElementNode "body" "" []
           [ mkNode ElementNode "a" "" [mkAttribute "" "href" "/about"] [];
             mkNode ElementNode "a" "" [mkAttribute "" "href" "//example.com"] [];
             mkNode ElementNode "script" "" []
               [mkNode TextNode "load('/static/x.js')" "" [] []] ] ])
    "../"
  = mkNode ElementNode "html" "" []
       [ mkNode ElementNode "head" "" []
           [cspMetaNode; mkNode ElementNode "title" "" [] []];
         mkNode ElementNode "body" "" []
           [ mkNode ElementNode "a" "" [mkAttribute "" "href" "../about"] [];
             mkNode ElementNode "a" "" [mkAttribute "" "href" "//example.com"] [];
             mkNode ElementNode "script" "" []
               [mkNode TextNode "load('../static/x.js')" "" [] []] ] ].
Proof. vm_compute. reflexivity. Qed.

(** ** Strings *)

Lemma append_nil_r (s : string) : s ++ "" = s.
Proof. induction s as [|c s IH]; simpl; [reflexivity|now rewrite IH]. Qed.

Lemma append_assoc (a b c : string) : (a ++ b) ++ c = a ++ b ++ c.
Proof. induction a as [|x a IH]; simpl; [reflexivity|now rewrite IH]. Qed.

Lemma length_append (a b : string) :
  String.length (a ++ b) = (String.length a + String.length b)%nat.
Proof. induction a as [|x a IH]; simpl; [reflexivity|now rewrite IH]. Qed.

Lemma HasPrefix_iff (s p : string) :
  HasPrefix s p = true <-> exists t, s = p ++ t.
Proof.
  revert s. induction p as [|a p IH]; intros s; simpl.
  - split; [intros _; now exists s|intros _; now destruct s].
  - destruct s as [|b s].
    + split; [discriminate|intros [t Ht]; discriminate].
    + simpl. rewrite andb_true_iff, Ascii.eqb_eq, IH. split.
      * intros [-> [t ->]]. now exists t.
      * intros [t Ht]. injection Ht as -> ->. split; [reflexivity|now exists t].
Qed.

Lemma HasPrefix_append (p t : string) : HasPrefix (p ++ t) p = true.
Proof. apply HasPrefix_iff. now exists t. Qed.

Lemma HasPrefix_char (a c : ascii) (s : string) :
  HasPrefix (String c s) (String a "") = Ascii.eqb a c.
Proof. cbn [HasPrefix]. apply andb_true_r. Qed.

Lemma take_drop (n : nat) (s : string) : take n s ++ drop n s = s.
Proof.
  revert s. induction n as [|n IH]; intros [|c s]; simpl; try reflexivity.
  now rewrite IH.
Qed.

Lemma indexFrom_lower (sub : string) (i : Z) (s : string) :
  indexFrom sub i s = -1 \/ i <= indexFrom sub i s.
Proof.
  revert i. induction s as [|c s IH]; intros i; simpl.
  - destruct sub; simpl; [right; lia|now left].
  - destruct (HasPrefix (String c s) sub); [right; lia|].
    destruct (IH (i + 1)) as [H|H]; [now left|right; lia].
Qed.

(** [Index] finds an occurrence whenever there is one. *)
Lemma indexFrom_complete (sub pre post : string) (i : Z) :
  0 <= i -> 0 <= indexFrom sub i (pre ++ sub ++ post).
Proof.
  revert i. induction pre as [|c pre IH]; intros i Hi.
  - simpl. destruct (sub ++ post) as [|c s] eqn:E; simpl.
    + destruct sub; [simpl; lia|discriminate].
    + rewrite <- E, HasPrefix_append. lia.
  - cbn [append indexFrom].
    destruct (HasPrefix (String c (pre ++ sub ++ post)) sub); [lia|].
    apply IH. lia.
Qed.

(** [Index] answers with the offset of an occurrence. *)
Lemma indexFrom_sound (sub : string) (i : Z) (s : string) :
  indexFrom sub i s <> -1 ->
  exists pre post, s = pre ++ sub ++ post
                   /\ indexFrom sub i s = i + Z.of_nat (String.length pre).
Proof.
  revert i. induction s as [|c s IH]; intros i; simpl.
  - destruct (HasPrefix "" sub) eqn:E; [|congruence].
    intros _. apply HasPrefix_iff in E as [t Ht].
    exists "", t. simpl. split; [exact Ht|lia].
  - destruct (HasPrefix (String c s) sub) eqn:E.
    + intros _. apply HasPrefix_iff in E as [t Ht].
      exists "", t. simpl. split; [exact Ht|lia].
    + intros H. destruct (IH _ H) as (pre & post & -> & Hix).
      exists (String c pre), post. simpl. split; [reflexivity|].
      rewrite Hix. lia.
Qed.

Lemma Index_Substring (s sub : string) : 0 <= Index s sub <-> Substring sub s.
Proof.
  unfold Index, Substring. split.
  - intros H. destruct (indexFrom_sound sub 0 s) as (pre & post & -> & _); [lia|].
    now exists pre, post.
  - intros (pre & post & ->). now apply indexFrom_complete.
Qed.

Lemma Index_absent (s sub : string) : Index s sub = -1 -> ~ Substring sub s.
Proof. intros H Hs. apply Index_Substring in Hs. lia. Qed.

Lemma Index_not_Substring (s sub : string) : ~ Substring sub s -> (0 <=? Index s sub) = false.
Proof.
  intros H. apply Z.leb_gt.
  destruct (Z.le_gt_cases 0 (Index s sub)) as [Hle|Hgt]; [|lia].
  now apply Index_Substring in Hle.
Qed.

(** ** The policy tag of the text revisions *)

(** C10.  A page in which neither [<head>] nor [<head ] occurs comes
    back from [injectCSP] as it went in: nothing is inserted. *)
Theorem injectCSP_without_head (html : string) :
  ~ Substring "<head>" html ->
  ~ Substring "<head " html ->
  injectCSP html = html.
Proof.
  intros H1 H2. unfold injectCSP.
  rewrite (Index_not_Substring _ _ H1), (Index_not_Substring _ _ H2).
  reflexivity.
Qed.

Lemma injectCSP_without_head_witness :
  injectCSP "{ 'kind': 'json', 'head': 1 }" = "{ 'kind': 'json', 'head': 1 }".
Proof.
  apply (injectCSP_without_head "{ 'kind': 'json', 'head': 1 }");
    apply Index_absent; reflexivity.
Defined.

Lemma take_append (pre s : string) (n : nat) :
  take (String.length pre + n) (pre ++ s) = pre ++ take n s.
Proof. induction pre as [|c pre IH]; [reflexivity|]. cbn. now rewrite IH. Qed.

Lemma drop_append (pre s : string) (n : nat) :
  drop (String.length pre + n) (pre ++ s) = drop n s.
Proof. induction pre as [|c pre IH]; [reflexivity|]. cbn. now rewrite IH. Qed.

(** In a page with a [<head>] tag the policy tag is inserted once,
    right behind such a tag; the bytes before and after stay. *)
Lemma injectCSP_after_head (html : string) :
  Substring "<head>" html ->
  exists pre post : string,
    html = pre ++ "<head>" ++ post
    /\ injectCSP html = pre ++ "<head>" ++ cspInsertion ++ post.
Proof.
  intros Hs. apply Index_Substring in Hs. unfold injectCSP.
  destruct (Z.leb_spec 0 (Index html "<head>")) as [_|Hlt]; [|lia].
  unfold Index in *.
  destruct (indexFrom_sound "<head>" 0 html) as (pre & post & -> & Hix); [lia|].
  exists pre, post. split; [reflexivity|]. rewrite Hix.
  unfold slice_to, slice_from.
  replace (Z.to_nat (0 + Z.of_nat (String.length pre) + Z.of_nat (String.length "<head>")))
    with (String.length pre + 6)%nat by (cbn [String.length]; lia).
  rewrite take_append, drop_append.
  change (take 6 ("<head>" ++ post)) with "<head>".
  change (drop 6 ("<head>" ++ post)) with post.
  now rewrite !append_assoc.
Qed.

Lemma injectCSP_after_head_witness :
  exists pre post : string,
    "<html><head><title>t</title></head></html>" = pre ++ "<head>" ++ post
    /\ injectCSP "<html><head><title>t</title></head></html>"
       = pre ++ "<head>" ++ cspInsertion ++ post.
Proof.
  apply (injectCSP_after_head "<html><head><title>t</title></head></html>").
  apply Index_Substring. vm_compute. discriminate.
Defined.

(** With a [<head>] tag the insertion goes right behind the first one;
    with a [<head ] tag whose [>] is missing the page is unchanged too. *)
Example injectCSP_ex :
  injectCSP "<html><head><title>t</title></head></html>"
  = "<html><head>" ++ cspInsertion ++ "<title>t</title></head></html>"
  /\ injectCSP "<html><head lang=en><title>t</title></head></html>"
  = "<html><head lang=en>" ++ cspInsertion ++ "<title>t</title></head></html>"
  /\ injectCSP "<html><head lang=en" = "<html><head lang=en"
  /\ injectCSP "<HTML><HEAD></HEAD></HTML>" = "<HTML><HEAD></HEAD></HTML>".
Proof. repeat split; reflexivity. Qed.

(** ** Depth and relative prefix *)

Lemma splitSlash_cons (c : ascii) (s : string) :
  splitSlash (String c s) =
  if Ascii.eqb c "/" then "" :: splitSlash s
  else match splitSlash s with
       | h :: t => String c h :: t
       | [] => [String c ""]
       end.
Proof. reflexivity. Qed.

Lemma splitSlash_not_nil (s : string) : splitSlash s <> [].
Proof.
  induction s as [|c s IH]; [discriminate|].
  rewrite splitSlash_cons. destruct (Ascii.eqb c "/"); [discriminate|].
  destruct (splitSlash s); [contradiction|discriminate].
Qed.

Lemma countFrom_slash_cons (c : ascii) (s : string) :
  countFrom "/" 0 (String c s) =
  (if Ascii.eqb c "/" then 1 else 0) + countFrom "/" 0 s.
Proof.
  cbn [countFrom]. change (HasPrefix (String c s) "/") with (Ascii.eqb "/" c && true).
  rewrite andb_true_r, Ascii.eqb_sym. destruct (Ascii.eqb c "/"); reflexivity.
Qed.

(** The pieces between the slashes are one more than the slashes. *)
Lemma Count_slash_pieces (s : string) :
  Count s "/" + 1 = Z.of_nat (List.length (splitSlash s)).
Proof.
  unfold Count. change (String.eqb "/" "") with false. cbv iota.
  induction s as [|c s IH]; [reflexivity|].
  rewrite countFrom_slash_cons, splitSlash_cons.
  destruct (Ascii.eqb c "/").
  - cbn [List.length]. lia.
  - destruct (splitSlash s) eqn:E; [now apply splitSlash_not_nil in E|].
    cbn [List.length] in *. lia.
Qed.

Lemma filter_all {A : Type} (f : A -> bool) (l : list A) :
  forallb f l = true -> List.filter f l = l.
Proof.
  induction l as [|x l IH]; [reflexivity|]. cbn [forallb].
  intros [Hx Hl]%andb_true_iff. cbn [List.filter]. rewrite Hx. f_equal. now apply IH.
Qed.

Lemma isURLPath_inv (p : string) :
  isURLPath p = true ->
  p = "/" \/ exists q, p = String "/" q /\ q <> ""
                       /\ forallb nonEmpty (splitSlash q) = true.
Proof.
  unfold isURLPath. intros [Hp H]%andb_true_iff.
  apply HasPrefix_iff in Hp as [q ->]. cbn [append] in *.
  destruct q as [|c q]; [now left|].
  apply orb_true_iff in H as [H|H]; [discriminate|].
  right. exists (String c q). repeat split; [discriminate|exact H].
Qed.

Lemma relativePrefix_slash (q : string) :
  q <> "" ->
  relativePrefix (String "/" q) = Repeat "../" (Z.of_nat (List.length (splitSlash q))).
Proof.
  intros Hq. unfold relativePrefix.
  change (TrimPrefix (String "/" q) "/") with q.
  destruct q as [|c q]; [contradiction|].
  change (String.eqb (String c q) "") with false. cbv iota zeta.
  now rewrite Count_slash_pieces.
Qed.

(** C6.  The depth of the root is 0; for a URL path the prefix is [./]
    at depth 0 and otherwise [../] repeated as many times as the path
    has non-empty segments; so [/] gives [./], [/about] gives [../] and
    [/net/http] gives [../../]. *)
Theorem relativePrefix_depth :
  Depth "/" = 0
  /\ (forall p : string,
        isURLPath p = true ->
        relativePrefix p =
        if Depth p =? 0 then "./" else Repeat "../" (Depth p))
  /\ relativePrefix "/" = "./"
  /\ relativePrefix "/about" = "../"
  /\ relativePrefix "/net/http" = "../../".
Proof.
  split; [reflexivity|]. split; [|repeat split; reflexivity].
  intros p Hp. destruct (isURLPath_inv p Hp) as [->|(q & -> & Hq & Hall)].
  - reflexivity.
  - rewrite relativePrefix_slash by assumption.
    unfold Depth. rewrite splitSlash_cons. change (Ascii.eqb "/" "/") with true.
    cbv iota. cbn [List.filter]. change (nonEmpty "") with false. cbv iota.
    rewrite (filter_all _ _ Hall).
    destruct (splitSlash q) eqn:E; [now apply splitSlash_not_nil in E|].
    cbn [List.length]. rewrite Nat2Z.inj_succ.
    destruct (Z.eqb_spec (Z.succ (Z.of_nat (List.length l))) 0); [lia|reflexivity].
Qed.

Lemma relativePrefix_depth_witness :
  relativePrefix "/net/http/httptest" = "../../../".
Proof.
  exact (proj1 (proj2 relativePrefix_depth) "/net/http/httptest" eq_refl).
Defined.

(** Where a segment is empty the count of the code, slashes plus one,
    and the count of non-empty segments part. *)
Example relativePrefix_empty_segment :
  relativePrefix "/a//b" = "../../../" /\ Depth "/a//b" = 2.
Proof. split; reflexivity. Qed.

(** ** Enumeration of the unit paths *)

Section Enumeration.

Implicit Types (st : Seen) (ums : list UnitMeta) (p : string).

Lemma seenInv_empty : seenInv (∅, []).
Proof.
  split; [constructor|]. intros p. cbn [fst snd].
  rewrite lookup_empty. cbn. split; [discriminate|tauto].
Qed.

Lemma addUnit_inv st um :
  seenInv st ->
  seenInv (addUnit st um)
  /\ forall p, In p (snd (addUnit st um)) <-> In p (snd st) \/ p = Path um.
Proof.
  destruct st as [seen paths]. intros [Hnd Hseen]. cbn [fst snd] in *.
  unfold addUnit. destruct (default false (seen !! Path um)) eqn:E; cbn [negb].
  - split; [now split|]. cbn [snd]. intros p. split; [tauto|].
    intros [H| ->]; [exact H|]. now apply Hseen.
  - assert (Hfresh : ~ In (Path um) paths).
    { intros H. apply Hseen in H. congruence. }
    assert (Hin : forall p, In p (paths ++ [Path um])%list <-> In p paths \/ p = Path um).
    { intros p. rewrite in_app_iff. cbn. intuition congruence. }
    split; [split|exact Hin]; cbn [fst snd].
    + apply NoDup_app. repeat split; [exact Hnd| |apply NoDup_singleton].
      intros x Hx Hx'. apply list_elem_of_In in Hx, Hx'.
      destruct Hx' as [<-|[]]. contradiction.
    + intros p. rewrite Hin. destruct (decide (Path um = p)) as [<-|Hne].
      * rewrite lookup_insert_eq. cbn. tauto.
      * rewrite lookup_insert_ne by exact Hne. rewrite Hseen.
        split; [tauto|]. intros [H|H]; [exact H|congruence].
Qed.

Lemma addUnits_inv ums st :
  seenInv st ->
  seenInv (fold_left addUnit ums st)
  /\ forall p, In p (snd (fold_left addUnit ums st))
               <-> In p (snd st) \/ In p (map Path ums).
Proof.
  revert st. induction ums as [|um ums IH]; intros st Hst; cbn [fold_left map].
  - split; [exact Hst|]. intros p. cbn. tauto.
  - destruct (addUnit_inv st um Hst) as [Hinv Hin].
    destruct (IH _ Hinv) as [Hinv' Hin'].
    split; [exact Hinv'|]. intros p. rewrite Hin', Hin. cbn. intuition congruence.
Qed.

Lemma tryGetters_spec modulePath getters st :
  (exists ums, FirstAnswer modulePath getters ums
               /\ tryGetters modulePath getters st = fold_left addUnit ums st)
  \/ (Forall (fun g' => Error_ (FetchLazyModule modulePath g') <> None) getters
      /\ tryGetters modulePath getters st = st).
Proof.
  induction getters as [|g rest IH]; cbn [tryGetters].
  - right. split; [constructor|reflexivity].
  - destruct (Error_ (FetchLazyModule modulePath g)) eqn:E.
    + destruct IH as [(ums & (failed & g0 & rest0 & -> & Hf & Hg & ->) & Heq)|[Hall Heq]].
      * left. eexists. split; [|exact Heq].
        exists (g :: failed), g0, rest0. repeat split; try assumption.
        constructor; [congruence|exact Hf].
      * right. split; [|exact Heq]. constructor; [congruence|exact Hall].
    + left. eexists. split; [|reflexivity].
      exists [], g, rest. repeat split; [constructor|exact E].
Qed.

Lemma FirstAnswer_unique modulePath getters ums1 ums2 :
  FirstAnswer modulePath getters ums1 ->
  FirstAnswer modulePath getters ums2 -> ums1 = ums2.
Proof.
  intros (f1 & g1 & r1 & E1 & Hf1 & Hg1 & ->) (f2 & g2 & r2 & E2 & Hf2 & Hg2 & ->).
  subst getters. revert f2 E2 Hf2.
  induction f1 as [|x f1 IH]; intros [|y f2] E2 Hf2; cbn in E2.
  - now injection E2 as -> _.
  - injection E2 as -> _. inversion Hf2; subst; contradiction.
  - injection E2 as -> _. inversion Hf1; subst; contradiction.
  - injection E2 as -> E2. inversion Hf1; inversion Hf2; subst. eapply IH; eauto.
Qed.

Lemma FirstAnswer_none modulePath getters ums :
  Forall (fun g' => Error_ (FetchLazyModule modulePath g') <> None) getters ->
  ~ FirstAnswer modulePath getters ums.
Proof.
  intros Hall (failed & g & rest & -> & _ & Hg & _).
  apply Forall_app in Hall as [_ Hall]. inversion Hall; subst. contradiction.
Qed.

Lemma modules_inv getters (modules : list LocalModule) st :
  seenInv st ->
  let st' := fold_left (fun st mod_ => tryGetters (ModulePath mod_) getters st)
                       modules st in
  seenInv st'
  /\ forall p, In p (snd st') <->
       In p (snd st)
       \/ exists mod_ ums, In mod_ modules
            /\ FirstAnswer (ModulePath mod_) getters ums /\ In p (map Path ums).
Proof.
  revert st. induction modules as [|m modules IH]; intros st Hst; cbn [fold_left].
  - split; [exact Hst|]. intros p. split; [tauto|].
    intros [H|(? & ? & [] & _)]. exact H.
  - set (st1 := tryGetters (ModulePath m) getters st).
    assert (H1 : seenInv st1 /\ forall p, In p (snd st1) <->
              In p (snd st) \/ exists ums, FirstAnswer (ModulePath m) getters ums
                                           /\ In p (map Path ums)).
    { subst st1.
      destruct (tryGetters_spec (ModulePath m) getters st)
        as [(ums & Hfa & ->)|[Hall ->]].
      - destruct (addUnits_inv ums st Hst) as [Hi Hm]. split; [exact Hi|].
        intros p. rewrite Hm. split.
        + intros [H|H]; [now left|right; eauto].
        + intros [H|(ums' & Hfa' & H)]; [now left|right].
          now rewrite (FirstAnswer_unique _ _ _ _ Hfa Hfa').
      - split; [exact Hst|]. intros p. split; [tauto|].
        intros [H|(ums & Hfa & _)]; [exact H|].
        now apply FirstAnswer_none in Hfa. }
    destruct H1 as [Hinv1 Hin1]. destruct (IH st1 Hinv1) as [Hinv Hin].
    split; [exact Hinv|]. intros p. rewrite Hin, Hin1. split.
    + intros [[H|(ums & Hfa & H)]|(m' & ums & Hm' & Hfa & H)].
      * now left.
      * right. exists m, ums. cbn. auto.
      * right. exists m', ums. cbn. auto.
    + intros [H|(m' & ums & [<-|Hm'] & Hfa & H)].
      * now left; left.
      * left; right. eauto.
      * right. eauto.
Qed.

Lemma enumerateUnitPaths_error (getters : list ModuleGetter)
    (modules : list LocalModule) :
  snd (enumerateUnitPaths getters modules) = None.
Proof. reflexivity. Qed.

Lemma leb_transitive : Transitive (fun x y : string => is_true (StringOrder.leb x y)).
Proof.
  intros x y z Hxy Hyz. unfold is_true, StringOrder.leb in *.
  apply Is_true_true. apply Is_true_true in Hxy, Hyz.
  exact (transitivity (R := String.le) Hxy Hyz).
Qed.

End Enumeration.

(** C8.  [enumerateUnitPaths] never returns an error; its paths are
    without repetition and in increasing byte-wise (lexicographic)
    order; and a path is returned exactly when it is a unit path of some
    module in the answer of the first getter that answers for that
    module without an error.  The later getters add nothing for that
    module, and a module for which every getter fails adds nothing. *)
Theorem enumerateUnitPaths_spec (getters : list ModuleGetter)
    (modules : list LocalModule) :
  let paths := fst (enumerateUnitPaths getters modules) in
  snd (enumerateUnitPaths getters modules) = None
  /\ List.NoDup paths
  /\ StronglySorted (fun a b => String.leb a b = true) paths
  /\ forall p : string,
       In p paths <->
       exists (mod_ : LocalModule) (failed : list ModuleGetter)
              (g : ModuleGetter) (rest : list ModuleGetter),
         In mod_ modules
         /\ getters = (failed ++ g :: rest)%list
         /\ Forall (fun g' => Error_ (FetchLazyModule (ModulePath mod_) g') <> None)
                   failed
         /\ Error_ (FetchLazyModule (ModulePath mod_) g) = None
         /\ In p (map Path (UnitMetas (FetchLazyModule (ModulePath mod_) g))).
Proof.
  cbv zeta. unfold enumerateUnitPaths. cbn [fst snd].
  destruct (modules_inv getters modules (∅, []) seenInv_empty) as [[Hnd _] Hin].
  set (st := fold_left _ modules _) in *.
  pose proof (StringSort.Permuted_sort (snd st)) as Hperm.
  split; [reflexivity|]. split; [|split].
  - unfold sortStrings. eapply Permutation_NoDup; [exact Hperm|].
    now apply NoDup_ListNoDup.
  - apply (StringSort.StronglySorted_sort (snd st) leb_transitive).
  - intros p. unfold sortStrings. split.
    + intros H. apply (Permutation_in _ (Permutation_sym Hperm)) in H.
      apply Hin in H as [[]|(m & ums & Hm & (f & g & r & -> & Hf & Hg & ->) & H)].
      exists m, f, g, r. auto.
    + intros (m & f & g & r & Hm & -> & Hf & Hg & H).
      apply (Permutation_in _ Hperm). apply Hin. right.
      exists m, (UnitMetas (FetchLazyModule (ModulePath m) g)).
      split; [exact Hm|]. split; [|exact H]. exists f, g, r. auto.
Qed.

(** ** The walk over the HTML tree *)

Lemma map_In_map {A B : Type} (f : A -> B) (l : list A) :
  map_In l (fun x _ => f x) = map f l.
Proof. induction l as [|x l IH]; [reflexivity|]. cbn. now rewrite IH. Qed.

(** The equation of [walkNodes]: the node is visited, then each child of
    the visited node is walked. *)
Lemma walkNodes_eq (n : Node) (prefix : string) :
  walkNodes n prefix =
  mkNode (Type_ (visit prefix n)) (Data (visit prefix n))
         (Namespace (visit prefix n)) (Attr (visit prefix n))
         (map (fun c => walkNodes c prefix) (Children (visit prefix n))).
Proof. rewrite walkNodes_equation_1 at 1. now rewrite map_In_map. Qed.

(** Induction along the walk. *)
Lemma walk_ind (prefix : string) (P : Node -> Prop) :
  (forall n, (forall c, In c (Children (visit prefix n)) -> P c) -> P n) ->
  forall n, P n.
Proof.
  intros Hstep n. remember (weight n) as k eqn:Hk. revert n Hk.
  induction k as [k IH] using lt_wf_ind. intros n ->.
  apply Hstep. intros c Hc. apply (IH (weight c)); [|reflexivity].
  eapply weight_visit_child, Hc.
Qed.

(** *** The attribute loop *)

Lemma rewriteAttrs_from (prefix : string) (done todo : list Attribute) :
  fold_left
    (fun (acc : list Attribute) (i : nat) =>
       match acc !! i with
       | Some a =>
           if isRewriteTarget a
           then <[i := mkAttribute (AttrNamespace a) (Key a)
                         (prefix ++ drop 1 (Val a))]> acc
           else acc
       | None => acc
       end)
    (seq (List.length done) (List.length todo)) (done ++ todo)%list
  = (done ++ map (rewriteAttr prefix) todo)%list.
Proof.
  revert done. induction todo as [|a todo IH]; intros done; [reflexivity|].
  cbn [List.length seq fold_left map].
  rewrite list_lookup_middle by reflexivity.
  assert (E : (if isRewriteTarget a
               then <[List.length done := mkAttribute (AttrNamespace a) (Key a)
                        (prefix ++ drop 1 (Val a))]> (done ++ a :: todo)%list
               else (done ++ a :: todo)%list)
              = ((done ++ [rewriteAttr prefix a]) ++ todo)%list).
  { unfold rewriteAttr. destruct (isRewriteTarget a).
    - rewrite <- (Nat.add_0_r (List.length done)), insert_app_r. cbn.
      now rewrite <- app_assoc.
    - now rewrite <- app_assoc. }
  rewrite E. specialize (IH (done ++ [rewriteAttr prefix a])%list).
  rewrite length_app in IH. cbn [List.length] in IH.
  rewrite Nat.add_1_r in IH. rewrite IH. now rewrite <- app_assoc.
Qed.

(** The loop rewrites every attribute on its own. *)
Lemma rewriteAttrs_map (prefix : string) (attrs : list Attribute) :
  rewriteAttrs prefix attrs = map (rewriteAttr prefix) attrs.
Proof. exact (rewriteAttrs_from prefix [] attrs). Qed.

Lemma lookup_map {A B : Type} (f : A -> B) (l : list A) (i : nat) :
  map f l !! i = option_map f (l !! i).
Proof.
  revert i. induction l as [|x l IH]; intros [|i]; cbn; try reflexivity. apply IH.
Qed.

Lemma Attr_walkNodes (n : Node) (prefix : string) :
  isElementNode n = true ->
  Attr (walkNodes n prefix) = map (rewriteAttr prefix) (Attr n).
Proof.
  intros He. rewrite walkNodes_eq. cbn [Attr]. unfold visit. rewrite He.
  cbn [Attr]. apply rewriteAttrs_map.
Qed.

Lemma isURLAttr_iff (k : string) : isURLAttr k = true <-> In k urlAttrNames.
Proof.
  unfold isURLAttr, urlAttrNames. cbn [In].
  repeat match goal with
         | |- context [String.eqb k ?s] =>
             destruct (String.eqb_spec k s) as [->|?]
         end; split; try tauto; try discriminate.
  intros H. intuition congruence.
Qed.

(** *** Nodes of the walked tree *)

Lemma rewriteScriptChild_element (prefix : string) (c : Node) :
  isElementNode c = true -> rewriteScriptChild prefix c = c.
Proof.
  unfold rewriteScriptChild, isTextNode, isElementNode.
  destruct (Type_ c); [reflexivity|discriminate|reflexivity..].
Qed.

Lemma rewriteScriptChild_text (prefix : string) (c : Node) :
  rewriteScriptChild prefix c = c
  \/ (isElementNode (rewriteScriptChild prefix c) = false
      /\ isElementNode c = false
      /\ visit prefix (rewriteScriptChild prefix c) = rewriteScriptChild prefix c
      /\ Children (rewriteScriptChild prefix c) = Children c).
Proof.
  unfold rewriteScriptChild, isTextNode. destruct c as [t d ns a cs].
  destruct t; cbn; auto.
Qed.

Lemma visit_not_element (prefix : string) (n : Node) :
  isElementNode n = false -> visit prefix n = n.
Proof. unfold visit. now intros ->. Qed.

(** A child of [n] is a child of the visited [n], itself or with its
    script text rewritten. *)
Lemma visit_child (prefix : string) (n c : Node) :
  In c (Children n) ->
  In c (Children (visit prefix n))
  \/ In (rewriteScriptChild prefix c) (Children (visit prefix n)).
Proof.
  intros Hc. unfold visit. destruct (isElementNode n); [|now left].
  cbn [Children].
  assert (Hc' : In c (if String.eqb (Data n) "head"
                      then cspMetaNode :: Children n else Children n)).
  { destruct (String.eqb (Data n) "head"); [now right|exact Hc]. }
  destruct (String.eqb (Data n) "script"); [right|now left].
  now apply in_map.
Qed.

Lemma Occurs_walkNodes_aux (prefix : string) (m c : Node) :
  Occurs m c -> isElementNode m = true ->
  forall c', c' = c \/ c' = rewriteScriptChild prefix c ->
  Occurs (walkNodes m prefix) (walkNodes c' prefix).
Proof.
  induction 1 as [|n c Hc Hoc IH]; intros Hm c' Hc'.
  - rewrite (rewriteScriptChild_element _ _ Hm) in Hc'.
    destruct Hc' as [->| ->]; constructor.
  - assert (Hkid : In c (Children (visit prefix c'))
                   \/ In (rewriteScriptChild prefix c) (Children (visit prefix c'))).
    { destruct Hc' as [->| ->]; [now apply visit_child|].
      destruct (rewriteScriptChild_text prefix n) as [->|(_ & _ & -> & ->)];
        [now apply visit_child|now left]. }
    rewrite (walkNodes_eq c').
    destruct Hkid as [Hkid|Hkid].
    + apply Occurs_below with (c := walkNodes c prefix).
      * cbn [Children]. now apply (in_map (fun c => walkNodes c prefix)).
      * apply IH; auto.
    + apply Occurs_below with (c := walkNodes (rewriteScriptChild prefix c) prefix).
      * cbn [Children].
        now apply (in_map (fun c => walkNodes c prefix)) in Hkid.
      * apply IH; auto.
Qed.

(** An element of the tree is met by the walk: its image occurs in the
    walked tree. *)
Lemma Occurs_walkNodes (prefix : string) (m doc : Node) :
  Occurs m doc -> isElementNode m = true ->
  Occurs (walkNodes m prefix) (walkNodes doc prefix).
Proof. intros H Hm. eapply Occurs_walkNodes_aux; eauto. Qed.

(** *** URL attributes *)

(** C3.  In every element of the document, an attribute named [href],
    [src], [action], [poster] or [data] whose value begins with one
    slash, not two, gets the value [prefix] followed by the old value
    without its first slash; the value [/] becomes [prefix]; an
    attribute of any other name, or whose value is no such path, is
    left as it is.  [isURLAttr] holds of these five names only. *)
Theorem walkNodes_rewrites_url_attributes (doc m : Node) (prefix : string) :
  Occurs m doc -> isElementNode m = true ->
  Occurs (walkNodes m prefix) (walkNodes doc prefix)
  /\ (forall k : string, isURLAttr k = true <-> In k urlAttrNames)
  /\ forall (i : nat) (a : Attribute),
       Attr m !! i = Some a ->
       (In (Key a) urlAttrNames ->
        HasPrefix (Val a) "/" = true -> HasPrefix (Val a) "//" = false ->
        Attr (walkNodes m prefix) !! i =
        Some (mkAttribute (AttrNamespace a) (Key a) (prefix ++ drop 1 (Val a))))
       /\ (In (Key a) urlAttrNames -> Val a = "/" ->
           Attr (walkNodes m prefix) !! i =
           Some (mkAttribute (AttrNamespace a) (Key a) prefix))
       /\ (~ In (Key a) urlAttrNames \/ HasPrefix (Val a) "/" = false
           \/ HasPrefix (Val a) "//" = true ->
           Attr (walkNodes m prefix) !! i = Some a).
Proof.
  intros Hoc Hm. split; [now apply Occurs_walkNodes|].
  split; [exact isURLAttr_iff|].
  intros i a Hi. rewrite (Attr_walkNodes _ _ Hm), lookup_map, Hi. cbn [option_map].
  unfold rewriteAttr, isRewriteTarget. repeat split.
  - intros Hk H1 H2. apply isURLAttr_iff in Hk. now rewrite Hk, H1, H2.
  - intros Hk Hv. apply isURLAttr_iff in Hk. rewrite Hk, Hv. cbn.
    now rewrite append_nil_r.
  - intros [Hk|[H|H]].
    + destruct (isURLAttr (Key a)) eqn:E; [|reflexivity].
      now apply isURLAttr_iff in E.
    + rewrite H. now rewrite andb_false_r.
    + rewrite H. now rewrite andb_false_r.
Qed.

Lemma Occurs_child (m n : Node) : In m (Children n) -> Occurs m n.
Proof. intros H. eapply Occurs_below; [exact H|constructor]. Qed.

Lemma Occurs_linksBody (m : Node) : In m (Children linksBody) -> Occurs m linksDoc.
Proof.
  intros H. eapply Occurs_below; [cbn; left; reflexivity|].
  eapply Occurs_below; [cbn; right; left; reflexivity|].
  now apply Occurs_child.
Qed.

Lemma walkNodes_rewrites_url_attributes_witness :
  Attr (walkNodes (mkNode ElementNode "a" ""
                     [mkAttribute "" "class" "/nav"; mkAttribute "" "href" "/about"] [])
                  "../../") !! 1%nat
  = Some (mkAttribute "" "href" "../../about").
Proof.
  refine (proj1 (proj2 (proj2
    (walkNodes_rewrites_url_attributes linksDoc
       (mkNode ElementNode "a" ""
          [mkAttribute "" "class" "/nav"; mkAttribute "" "href" "/about"] [])
       "../../" _ _)) 1%nat (mkAttribute "" "href" "/about") _) _ _ _).
  - apply Occurs_linksBody. cbn. tauto.
  - reflexivity.
  - reflexivity.
  - cbn. tauto.
  - reflexivity.
  - reflexivity.
Defined.

(** C7.  An attribute value that begins with two slashes, or with [#],
    is the same after the walk as before, in every element of the
    document. *)
Theorem walkNodes_keeps_other_references (doc m : Node) (prefix : string)
    (i : nat) (a : Attribute) :
  Occurs m doc -> isElementNode m = true ->
  Attr m !! i = Some a ->
  HasPrefix (Val a) "//" = true \/ HasPrefix (Val a) "#" = true ->
  Occurs (walkNodes m prefix) (walkNodes doc prefix)
  /\ Attr (walkNodes m prefix) !! i = Some a.
Proof.
  intros Hoc Hm Hi Hv. split; [now apply Occurs_walkNodes|].
  rewrite (Attr_walkNodes _ _ Hm), lookup_map, Hi. cbn [option_map].
  unfold rewriteAttr, isRewriteTarget. destruct Hv as [H|H].
  - rewrite H. now rewrite andb_false_r.
  - assert (H' : HasPrefix (Val a) "/" = false).
    { destruct (Val a) as [|c v]; [reflexivity|].
      rewrite HasPrefix_char in *. apply Ascii.eqb_eq in H as <-. reflexivity. }
    rewrite H'. now rewrite andb_false_r.
Qed.

Lemma walkNodes_keeps_other_references_witness :
  Attr (walkNodes (mkNode ElementNode "a" "" [mkAttribute "" "href" "//example.com"] [])
                  "../") !! 0%nat
  = Some (mkAttribute "" "href" "//example.com")
  /\ Attr (walkNodes (mkNode ElementNode "a" "" [mkAttribute "" "href" "#x"] [])
                     "../") !! 0%nat
     = Some (mkAttribute "" "href" "#x").
Proof.
  split.
  - refine (proj2 (walkNodes_keeps_other_references linksDoc _ "../" 0%nat _ _ _ _ _)).
    + apply Occurs_linksBody. cbn. tauto.
    + reflexivity.
    + reflexivity.
    + left. reflexivity.
  - refine (proj2 (walkNodes_keeps_other_references linksDoc _ "../" 0%nat _ _ _ _ _)).
    + apply Occurs_linksBody. cbn. tauto.
    + reflexivity.
    + reflexivity.
    + right. reflexivity.
Defined.

(** *** The policy node *)

Lemma countWhere_eq (f : Node -> bool) (n : Node) :
  countWhere f n =
  ((if f n then 1 else 0) + list_sum (map (countWhere f) (Children n)))%nat.
Proof. destruct n; reflexivity. Qed.

Lemma Attribute_eqb_eq (a b : Attribute) : Attribute_eqb a b = true <-> a = b.
Proof.
  destruct a as [n1 k1 v1], b as [n2 k2 v2]. unfold Attribute_eqb. cbn.
  rewrite !andb_true_iff, !String.eqb_eq. split.
  - now intros [[-> ->] ->].
  - intros H. injection H as -> -> ->. auto.
Qed.

Lemma isCSPMetaNode_iff (n : Node) : isCSPMetaNode n = true <-> n = cspMetaNode.
Proof.
  split; [|now intros ->].
  destruct n as [t d ns a cs]. unfold isCSPMetaNode.
  destruct t; try discriminate.
  destruct a as [|a1 [|a2 [|a3 a]]]; try discriminate.
  destruct cs; try discriminate.
  rewrite !andb_true_iff, !String.eqb_eq, !Attribute_eqb_eq.
  now intros [[[-> ->] ->] ->].
Qed.

Lemma walkNodes_cspMetaNode (prefix : string) :
  walkNodes cspMetaNode prefix = cspMetaNode.
Proof. rewrite walkNodes_eq. reflexivity. Qed.

Lemma rewriteAttr_not_url (prefix : string) (a : Attribute) :
  isURLAttr (Key (rewriteAttr prefix a)) = false -> rewriteAttr prefix a = a.
Proof.
  unfold rewriteAttr, isRewriteTarget. rewrite <- andb_assoc.
  destruct (isURLAttr (Key a)) eqn:E; [|reflexivity]. cbn [andb].
  destruct (HasPrefix (Val a) "/" && negb (HasPrefix (Val a) "//")); cbn [Key];
    [congruence|reflexivity].
Qed.

Lemma map_eq_nil_inv {A B : Type} (f : A -> B) (l : list A) : map f l = [] -> l = [].
Proof. now destruct l. Qed.

(** The walk makes no node into the policy node, and leaves the policy
    node alone. *)
Lemma isCSPMetaNode_walkNodes (n : Node) (prefix : string) :
  isCSPMetaNode (walkNodes n prefix) = isCSPMetaNode n.
Proof.
  destruct (isCSPMetaNode n) eqn:E.
  - apply isCSPMetaNode_iff in E as ->. now rewrite walkNodes_cspMetaNode.
  - destruct (isCSPMetaNode (walkNodes n prefix)) eqn:E'; [|reflexivity].
    apply isCSPMetaNode_iff in E'. rewrite walkNodes_eq in E'.
    unfold visit in E'. destruct (isElementNode n) eqn:He.
    + cbn [Type_ Data Namespace Attr Children] in E'.
      unfold cspMetaNode in E'. injection E' as Ht Hd Hns Ha Hc.
      rewrite Hd in Hc. cbn in Hc. apply map_eq_nil_inv in Hc.
      rewrite rewriteAttrs_map in Ha.
      destruct (Attr n) as [|a1 [|a2 [|a3 l]]] eqn:Ea; try discriminate.
      cbn in Ha. injection Ha as H1 H2.
      pose proof (rewriteAttr_not_url prefix a1) as R1.
      pose proof (rewriteAttr_not_url prefix a2) as R2.
      rewrite H1 in R1. rewrite H2 in R2.
      specialize (R1 eq_refl). specialize (R2 eq_refl). subst a1 a2.
      destruct n as [t d ns a cs]. cbn [Type_ Data Namespace Attr Children] in *.
      subst. discriminate.
    + unfold cspMetaNode in E'. injection E' as Ht. unfold isElementNode in He.
      rewrite Ht in He. discriminate.
Qed.

Lemma countWhere_rewriteScriptChild (f : Node -> bool) (prefix : string) (c : Node) :
  f (rewriteScriptChild prefix c) = f c ->
  countWhere f (rewriteScriptChild prefix c) = countWhere f c.
Proof.
  intros Hf. rewrite !countWhere_eq, Hf. f_equal.
  destruct (rewriteScriptChild_text prefix c) as [->|(_ & _ & _ & ->)]; reflexivity.
Qed.

Lemma isCSPMetaNode_rewriteScriptChild (prefix : string) (c : Node) :
  isCSPMetaNode (rewriteScriptChild prefix c) = isCSPMetaNode c.
Proof.
  unfold rewriteScriptChild, isTextNode. destruct c as [t d ns a cs].
  destruct t; reflexivity.
Qed.

Lemma isHeadElement_rewriteScriptChild (prefix : string) (c : Node) :
  isHeadElement (rewriteScriptChild prefix c) = isHeadElement c.
Proof.
  unfold rewriteScriptChild, isTextNode. destruct c as [t d ns a cs].
  destruct t; reflexivity.
Qed.

Lemma list_sum_map_ext {A : Type} (f g : A -> nat) (l : list A) :
  (forall x, In x l -> f x = g x) -> list_sum (map f l) = list_sum (map g l).
Proof.
  induction l as [|x l IH]; intros H; [reflexivity|].
  change (f x + list_sum (map f l) = g x + list_sum (map g l))%nat.
  rewrite (H x) by now left. rewrite IH; [reflexivity|]. intros y Hy. apply H. now right.
Qed.

Lemma list_sum_map_add {A : Type} (f g : A -> nat) (l : list A) :
  list_sum (map (fun x => (f x + g x)%nat) l)
  = (list_sum (map f l) + list_sum (map g l))%nat.
Proof.
  induction l as [|x l IH]; [reflexivity|].
  change ((f x + g x) + list_sum (map (fun x => (f x + g x)%nat) l)
          = (f x + list_sum (map f l)) + (g x + list_sum (map g l)))%nat.
  lia.
Qed.

(** The walk adds one policy node for each [head] element of the tree,
    and none elsewhere. *)
Lemma countWhere_walkNodes (prefix : string) (n : Node) :
  countWhere isCSPMetaNode (walkNodes n prefix)
  = (countWhere isCSPMetaNode n + countWhere isHeadElement n)%nat.
Proof.
  induction n as [n IH] using (walk_ind prefix).
  rewrite (countWhere_eq _ (walkNodes n prefix)), isCSPMetaNode_walkNodes.
  rewrite walkNodes_eq. cbn [Children]. rewrite map_map.
  rewrite (list_sum_map_ext _ _ _ IH), list_sum_map_add.
  rewrite (countWhere_eq isCSPMetaNode n), (countWhere_eq isHeadElement n).
  unfold visit, isHeadElement at 2. destruct (isElementNode n) eqn:He; cbn [andb].
  - cbn [Children]. destruct (String.eqb (Data n) "head") eqn:Hd.
    + apply String.eqb_eq in Hd. rewrite Hd. cbn [String.eqb Ascii.eqb Bool.eqb].
      change (String.eqb "head" "script") with false. cbv iota.
      change (list_sum (map (countWhere isCSPMetaNode) (cspMetaNode :: Children n)))
        with (1 + list_sum (map (countWhere isCSPMetaNode) (Children n)))%nat.
      change (list_sum (map (countWhere isHeadElement) (cspMetaNode :: Children n)))
        with (0 + list_sum (map (countWhere isHeadElement) (Children n)))%nat.
      lia.
    + destruct (String.eqb (Data n) "script").
      * rewrite !map_map.
        rewrite (list_sum_map_ext
                   (fun x => countWhere isCSPMetaNode (rewriteScriptChild prefix x))
                   (countWhere isCSPMetaNode)),
                (list_sum_map_ext
                   (fun x => countWhere isHeadElement (rewriteScriptChild prefix x))
                   (countWhere isHeadElement)); [lia|..].
        -- intros x _. apply countWhere_rewriteScriptChild,
                         isHeadElement_rewriteScriptChild.
        -- intros x _. apply countWhere_rewriteScriptChild,
                         isCSPMetaNode_rewriteScriptChild.
      * lia.
  - lia.
Qed.

Lemma isHeadElement_walkNodes (n : Node) (prefix : string) :
  isHeadElement (walkNodes n prefix) = isHeadElement n.
Proof.
  rewrite walkNodes_eq. unfold isHeadElement, isElementNode, visit, isElementNode.
  destruct n as [t d ns a cs]. cbn. destruct t; reflexivity.
Qed.

(** The children of a walked [head] element: the policy node, then the
    former children, walked. *)
Lemma Children_walkNodes_head (h : Node) (prefix : string) :
  isHeadElement h = true ->
  Children (walkNodes h prefix)
  = cspMetaNode :: map (fun c => walkNodes c prefix) (Children h).
Proof.
  unfold isHeadElement. intros [He Hd]%andb_true_iff.
  rewrite walkNodes_eq. cbn [Children]. unfold visit. rewrite He. cbn [Children].
  rewrite Hd. apply String.eqb_eq in Hd. rewrite Hd.
  change (String.eqb "head" "script") with false. cbv iota.
  cbn [map]. now rewrite walkNodes_cspMetaNode.
Qed.

(** Every [head] element of the walked tree begins with the policy
    node. *)
Lemma head_of_walked_tree (prefix : string) (n m : Node) :
  Occurs m (walkNodes n prefix) -> isHeadElement m = true ->
  exists rest, Children m = cspMetaNode :: rest.
Proof.
  induction n as [n IH] using (walk_ind prefix). intros Hoc Hm.
  remember (walkNodes n prefix) as w eqn:Hw.
  destruct Hoc as [|w c Hc Hoc'].
  - subst m. rewrite isHeadElement_walkNodes in Hm.
    eexists. now apply Children_walkNodes_head.
  - subst w. rewrite walkNodes_eq in Hc. cbn [Children] in Hc.
    apply in_map_iff in Hc as (c0 & <- & Hc0). eapply IH; eauto.
Qed.

(** C4.  In a document with one [head] element, as the parser builds
    it, the walk adds exactly one policy node; it is the first child of
    the [head] element, in front of whatever children the element had,
    which follow it in their order. *)
Theorem walkNodes_injects_csp_once (doc : Node) (prefix : string) :
  countWhere isHeadElement doc = 1%nat ->
  countWhere isCSPMetaNode (walkNodes doc prefix)
  = (countWhere isCSPMetaNode doc + 1)%nat
  /\ (forall h : Node,
        Occurs h doc -> isHeadElement h = true ->
        Occurs (walkNodes h prefix) (walkNodes doc prefix)
        /\ Children (walkNodes h prefix)
           = cspMetaNode :: map (fun c => walkNodes c prefix) (Children h))
  /\ (forall m : Node,
        Occurs m (walkNodes doc prefix) -> isHeadElement m = true ->
        exists rest, Children m = cspMetaNode :: rest).
Proof.
  intros H1. split; [|split].
  - now rewrite countWhere_walkNodes, H1.
  - intros h Hoc Hh. split; [|now apply Children_walkNodes_head].
    apply Occurs_walkNodes; [exact Hoc|].
    unfold isHeadElement in Hh. now apply andb_true_iff in Hh as [? _].
  - intros m Hoc Hm. eapply head_of_walked_tree; eauto.
Qed.

Lemma walkNodes_injects_csp_once_witness :
  countWhere isCSPMetaNode (walkNodes linksDoc "../") = 1%nat.
Proof.
  exact (proj1 (walkNodes_injects_csp_once linksDoc "../" eq_refl)).
Defined.

(** [processHTML] walks the parsed document once, with the relative
    prefix of the page, and renders what the walk returns. *)
Lemma processHTML_inv `{HTMLCodec} (content urlPath out : string) :
  processHTML content urlPath = Ok out <->
  exists doc : Node,
    Parse content = Ok doc
    /\ Render (walkNodes doc (relativePrefix urlPath)) = Ok out.
Proof.
  unfold processHTML. split.
  - destruct (Parse content) as [doc|e]; [|discriminate].
    destruct (Render (walkNodes doc (relativePrefix urlPath))) as [buf|e] eqn:E;
      [|discriminate].
    intros Hb. injection Hb as ->. now exists doc.
  - intros (doc & -> & ->). reflexivity.
Qed.

(** ** Rendering a page *)

Section RenderingFacts.

Context {Disk : Type} `{OS Disk}.
Context (htmlStep : string -> string -> result string).
Context (mux : ServeMux) (outDir : string).

(** The equation of [renderAndWriteN]. *)
Lemma renderAndWriteN_eq (urlPath : string) (depth : Z) (d : Disk) :
  renderAndWriteN htmlStep mux outDir urlPath depth d =
  if 5 <? depth then (d, Some (TooManyRedirects urlPath))
  else match redirectTarget (mux urlPath) with
       | Some loc => renderAndWriteN htmlStep mux outDir loc (depth + 1) d
       | None => writeResponse htmlStep (mux urlPath) urlPath outDir d
       end.
Proof.
  rewrite renderAndWriteN_equation_1. unfold renderAndWriteN_unfold_clause_1.
  destruct (Z_gt_dec depth 5); destruct (Z.ltb_spec 5 depth); try lia; [reflexivity|].
  destruct (redirectTarget (mux urlPath)); reflexivity.
Qed.

(** Redirects within the bound are followed: the page rendered is the
    one the hops lead to, at the depth of the hops made. *)
Lemma renderAndWriteN_hops (k : nat) (urlPath u : string) (depth : Z) (d : Disk) :
  hops mux urlPath k = Some u ->
  depth + Z.of_nat k <= 6 ->
  renderAndWriteN htmlStep mux outDir urlPath depth d
  = renderAndWriteN htmlStep mux outDir u (depth + Z.of_nat k) d.
Proof.
  revert urlPath depth. induction k as [|k IH]; intros urlPath depth Hh Hk.
  - injection Hh as ->. now rewrite Z.add_0_r.
  - cbn [hops] in Hh. rewrite renderAndWriteN_eq.
    destruct (Z.ltb_spec 5 depth); [lia|].
    destruct (redirectTarget (mux urlPath)) as [loc|]; [|discriminate].
    rewrite (IH loc (depth + 1) Hh) by lia. f_equal. lia.
Qed.

Lemma writeResponse_ok (w : Response) (urlPath body : string) (d d1 d2 : Disk) :
  Code w = StatusOK ->
  bodyToWrite htmlStep w urlPath = Ok body ->
  MkdirAll (GoFilepath.Dir (urlPathToFilePath urlPath outDir)) d = (d1, None) ->
  WriteFile (urlPathToFilePath urlPath outDir) body d1 = (d2, None) ->
  writeResponse htmlStep w urlPath outDir d = (d2, None).
Proof.
  intros Hc Hb Hm Hw. unfold writeResponse. rewrite Hc. cbn [Z.eqb negb StatusOK Pos.eqb].
  cbv zeta. rewrite Hb, Hm. exact Hw.
Qed.

(** C1, as the code has it.  A chain of six redirects or more fails
    with the too-many-redirects error, which names the sixth target,
    and leaves the disk as it was.  A chain of five redirects or fewer
    that ends in a response with status 200 succeeds when the body can
    be processed and the file written; the body written is that of the
    final target, and the file is the one derived from the URL path of
    the final target. *)
Theorem renderAndWrite_follows_redirects (urlPath : string) (d : Disk) :
  (forall u : string,
      hops mux urlPath 6 = Some u ->
      renderAndWrite htmlStep mux outDir urlPath d = (d, Some (TooManyRedirects u)))
  /\ (forall (k : nat) (u body : string) (d1 d2 : Disk),
        (k <= 5)%nat ->
        hops mux urlPath k = Some u ->
        redirectTarget (mux u) = None ->
        Code (mux u) = StatusOK ->
        bodyToWrite htmlStep (mux u) u = Ok body ->
        MkdirAll (GoFilepath.Dir (urlPathToFilePath u outDir)) d = (d1, None) ->
        WriteFile (urlPathToFilePath u outDir) body d1 = (d2, None) ->
        renderAndWrite htmlStep mux outDir urlPath d = (d2, None)).
Proof.
  unfold renderAndWrite. split.
  - intros u Hh. rewrite (renderAndWriteN_hops 6 urlPath u 0 d Hh) by lia.
    now rewrite renderAndWriteN_eq.
  - intros k u body d1 d2 Hk Hh Hr Hc Hb Hm Hw.
    rewrite (renderAndWriteN_hops k urlPath u 0 d Hh) by lia.
    rewrite renderAndWriteN_eq. destruct (Z.ltb_spec 5 (0 + Z.of_nat k)); [lia|].
    rewrite Hr. eapply writeResponse_ok; eassumption.
Qed.

(** *** The page loops *)

Lemma renderLogged_failure (total : Z) (r : Run Disk) (p : string)
    (d : Disk) (err : error) :
  renderAndWrite htmlStep mux outDir p (disk r) = (d, Some err) ->
  renderLogged htmlStep mux outDir total r p
  = mkRun d (current r + 1)
          (stderr r ++ [MsgProgress (current r + 1) total p])%list
          (errlog r ++ [LogRendering p err])%list.
Proof. intros Hr. unfold renderLogged. cbn [progress disk]. now rewrite Hr. Qed.

Lemma renderLogged_progress (total : Z) (r : Run Disk) (p : string) :
  current (renderLogged htmlStep mux outDir total r p) = current r + 1
  /\ stderr (renderLogged htmlStep mux outDir total r p)
     = (stderr r ++ [MsgProgress (current r + 1) total p])%list.
Proof.
  unfold renderLogged. cbn [progress disk].
  destruct (renderAndWrite htmlStep mux outDir p (disk r)) as [d [err|]];
    split; reflexivity.
Qed.

(** Every page of the loop is begun, whatever became of the pages
    before it. *)
Lemma pages_all_begun (total : Z) (pages : list string) (r : Run Disk) :
  stderr (fold_left (renderLogged htmlStep mux outDir total) pages r)
  = (stderr r ++ progressLines (current r) total pages)%list.
Proof.
  revert r. induction pages as [|p pages IH]; intros r; cbn [fold_left progressLines].
  - now rewrite app_nil_r.
  - rewrite IH. destruct (renderLogged_progress total r p) as [-> ->].
    now rewrite <- app_assoc.
Qed.

Lemma renderPages_fold (total : Z) (paths : list string) (r : Run Disk) :
  renderPages htmlStep mux outDir total paths r
  = fold_left (renderLogged htmlStep mux outDir total)
              (staticPages ++ map (fun p => ("/" ++ p)%string) paths)%list r.
Proof.
  unfold renderPages. cbv zeta. rewrite fold_left_app.
  generalize (fold_left (renderLogged htmlStep mux outDir total) staticPages r).
  induction paths as [|p paths IH]; intros r'; [reflexivity|]. cbn [fold_left map].
  apply IH.
Qed.

End RenderingFacts.

(** C9, as the code has it.  The homepage apart, a page that fails is
    logged with its error and the loop goes on with the next page:
    every static page and every unit page is begun, and the run reaches
    the copy of the assets.  A failure of the homepage ends the run
    with the error [rendering homepage]. *)
Theorem GenerateStaticSite_page_failures {Disk : Type} `{OS Disk}
    (htmlStep : string -> string -> result string) (res : BuildResult)
    (staticFS thirdpartyFS : FS) (outDir : string) (r : Run Disk) :
  let mux := Mux res in
  let paths := fst (enumerateUnitPaths (Getters res) (AllModules res)) in
  let total := 1 + Z.of_nat (List.length staticPages) + Z.of_nat (List.length paths) in
  let pages := (staticPages ++ map (fun p => ("/" ++ p)%string) paths)%list in
  let r0 := progress total "/" (say (MsgGenerating total) r) in
  (forall (d : Disk) (err : error),
      renderAndWrite htmlStep mux outDir "/" (disk r0) = (d, Some err) ->
      GenerateStaticSite htmlStep (Ok res) staticFS thirdpartyFS outDir r
      = (setDisk d r0, Some (Wrapped "rendering homepage" err)))
  /\ (forall d : Disk,
        renderAndWrite htmlStep mux outDir "/" (disk r0) = (d, None) ->
        GenerateStaticSite htmlStep (Ok res) staticFS thirdpartyFS outDir r
        = copyAssets staticFS thirdpartyFS outDir
            (fold_left (renderLogged htmlStep mux outDir total) pages (setDisk d r0)))
  /\ (forall (before after : list string) (p : string) (r1 : Run Disk)
             (d : Disk) (err : error),
        let r2 := fold_left (renderLogged htmlStep mux outDir total) before r1 in
        renderAndWrite htmlStep mux outDir p (disk r2) = (d, Some err) ->
        fold_left (renderLogged htmlStep mux outDir total) (before ++ p :: after)%list r1
        = fold_left (renderLogged htmlStep mux outDir total) after
            (mkRun d (current r2 + 1)
               (stderr r2 ++ [MsgProgress (current r2 + 1) total p])%list
               (errlog r2 ++ [LogRendering p err])%list))
  /\ (forall (pages' : list string) (r1 : Run Disk),
        stderr (fold_left (renderLogged htmlStep mux outDir total) pages' r1)
        = (stderr r1 ++ progressLines (current r1) total pages')%list).
Proof.
  cbv zeta. unfold GenerateStaticSite.
  destruct (enumerateUnitPaths (Getters res) (AllModules res)) as [paths e] eqn:E.
  assert (He : e = None).
  { pose proof (enumerateUnitPaths_error (Getters res) (AllModules res)) as Hs.
    now rewrite E in Hs. }
  subst e. cbn [fst]. repeat split.
  - intros d err Hr. now rewrite Hr.
  - intros d Hr. rewrite Hr. now rewrite renderPages_fold.
  - intros before after p r1 d err Hr. rewrite fold_left_app. cbn [fold_left].
    now rewrite (renderLogged_failure _ _ _ _ _ _ _ _ Hr).
  - intros pages' r1. apply pages_all_begun.
Qed.

(** *** The generator at work on the example router *)

Lemma renderAndWrite_follows_redirects_witness :
  renderAndWrite htmlStepCSP chainMux "out" "/z" (∅ : MemDisk)
  = (∅, Some (TooManyRedirects "/f"))
  /\ renderAndWrite htmlStepCSP chainMux "out" "/a" (∅ : MemDisk)
     = ({[ "out/f/index.html" := "final" ]}, None).
Proof.
  split.
  - apply (proj1 (renderAndWrite_follows_redirects htmlStepCSP chainMux "out" "/z" ∅)).
    reflexivity.
  - apply (proj2 (renderAndWrite_follows_redirects htmlStepCSP chainMux "out" "/a" ∅)
             5%nat "/f" "final" ∅); solve [reflexivity | lia].
Defined.

(** Against C1 as stated: after the five redirects from [/a] to [/f],
    the body is in the file of [/f]; the file of [/a], the path first
    requested, is not written. *)
Lemma redirect_writes_under_target_path :
  hops chainMux "/a" 5 = Some "/f"
  /\ urlPathToFilePath "/a" "out" = "out/a/index.html"
  /\ urlPathToFilePath "/f" "out" = "out/f/index.html"
  /\ snd (renderAndWrite htmlStepCSP chainMux "out" "/a" (∅ : MemDisk)) = None
  /\ fst (renderAndWrite htmlStepCSP chainMux "out" "/a" (∅ : MemDisk))
       !! "out/a/index.html" = None
  /\ fst (renderAndWrite htmlStepCSP chainMux "out" "/a" (∅ : MemDisk))
       !! "out/f/index.html" = Some "final".
Proof. repeat split; vm_compute; reflexivity. Qed.

(** A cycle of redirects ends with the error as well. *)
Example renderAndWrite_loop :
  renderAndWrite htmlStepCSP chainMux "out" "/loop" (∅ : MemDisk)
  = (∅, Some (TooManyRedirects "/loop")).
Proof. vm_compute. reflexivity. Qed.

Lemma GenerateStaticSite_page_failures_witness :
  fold_left (renderLogged htmlStepCSP chainMux "out" 4)
            ["/license-policy"; "/about"] emptyRun
  = fold_left (renderLogged htmlStepCSP chainMux "out" 4) ["/about"]
      (mkRun (∅ : MemDisk) 1 [MsgProgress 1 4 "/license-policy"]
         [LogRendering "/license-policy" (UnexpectedStatus "/license-policy" 404)]).
Proof.
  exact (proj1 (proj2 (proj2
    (GenerateStaticSite_page_failures htmlStepCSP exampleSite emptyFS emptyFS
       "out" emptyRun)))
    [] ["/about"] "/license-policy" emptyRun ∅
    (UnexpectedStatus "/license-policy" 404) eq_refl).
Defined.

(** Against C9 as stated: the homepage fails, and the run ends there
    with an error; [/about], which the router serves, is never begun
    and nothing is written. *)
Lemma homepage_failure_aborts_run :
  Code (chainMux "/") = 404
  /\ Code (chainMux "/about") = 200
  /\ GenerateStaticSite htmlStepCSP (Ok exampleSite) emptyFS emptyFS "out" emptyRun
     = (mkRun (∅ : MemDisk) 1 [MsgGenerating 4; MsgProgress 1 4 "/"] [],
        Some (Wrapped "rendering homepage" (UnexpectedStatus "/" 404))).
Proof. repeat split; vm_compute; reflexivity. Qed.

(** The same site with a homepage: the failures of two static pages
    are logged, the page between them is written, and the run ends
    without an error. *)
Example GenerateStaticSite_ex :
  let mux : ServeMux := fun p =>
    if String.eqb p "/" then pageOf "text/plain" "home" else chainMux p in
  GenerateStaticSite htmlStepCSP (Ok (mkBuildResult mux [] [])) emptyFS emptyFS
    "out" emptyRun
  = (mkRun ({[ "out/index.html" := "home"; "out/about/index.html" := "about" ]} : MemDisk)
       4
       [ MsgGenerating 4; MsgProgress 1 4 "/"; MsgProgress 2 4 "/about";
         MsgProgress 3 4 "/license-policy"; MsgProgress 4 4 "/search-help";
         MsgCopying; MsgGenerated "out" ]
       [ LogRendering "/license-policy" (UnexpectedStatus "/license-policy" 404);
         LogRendering "/search-help" (UnexpectedStatus "/search-help" 404) ],
     None).
Proof. vm_compute. reflexivity. Qed.

(** ** Paths *)

Import GoPath.

Lemma append_cons (c : ascii) (a b : string) : String c a ++ b = String c (a ++ b).
Proof. reflexivity. Qed.

Lemma splitSlash_append (a b : string) :
  splitSlash (a ++ "/" ++ b) = (splitSlash a ++ splitSlash b)%list.
Proof.
  induction a as [|c a IH].
  - reflexivity.
  - rewrite append_cons, !splitSlash_cons, IH.
    destruct (Ascii.eqb c "/"); [reflexivity|].
    destruct (splitSlash a) eqn:E; [now apply splitSlash_not_nil in E|reflexivity].
Qed.

Lemma splitSlash_no_slash (s : string) : hasSlash s = false -> splitSlash s = [s].
Proof.
  induction s as [|c s IH]; [reflexivity|]. cbn [hasSlash].
  intros [Hc Hs]%orb_false_iff. rewrite splitSlash_cons, Hc, (IH Hs). reflexivity.
Qed.

Lemma splitSlash_hasSlash (s : string) : Forall (fun e => hasSlash e = false) (splitSlash s).
Proof.
  induction s as [|c s IH]; [repeat constructor|]. rewrite splitSlash_cons.
  destruct (Ascii.eqb c "/") eqn:Ec; [constructor; [reflexivity|exact IH]|].
  destruct (splitSlash s) as [|h t]; [repeat constructor; cbn; now rewrite Ec|].
  inversion IH; subst. constructor; [cbn; now rewrite Ec|assumption].
Qed.

Lemma Join_cons (e : string) (rest : list string) :
  rest <> [] -> GoStrings.Join (e :: rest) "/" = e ++ "/" ++ GoStrings.Join rest "/".
Proof. destruct rest; [contradiction|reflexivity]. Qed.

(** Splitting what was joined gives the pieces back. *)
Lemma splitSlash_Join (elems : list string) :
  elems <> [] -> Forall (fun e => hasSlash e = false) elems ->
  splitSlash (GoStrings.Join elems "/") = elems.
Proof.
  induction elems as [|e rest IH]; [contradiction|]. intros _ Hall.
  inversion Hall as [|? ? He Hrest]; subst.
  destruct rest as [|e' rest]; [now apply splitSlash_no_slash|].
  rewrite Join_cons by discriminate. rewrite splitSlash_append, IH by (discriminate || assumption).
  now rewrite (splitSlash_no_slash _ He).
Qed.

(** Joining what was split gives the string back. *)
Lemma Join_splitSlash (s : string) : GoStrings.Join (splitSlash s) "/" = s.
Proof.
  induction s as [|c s IH]; [reflexivity|]. rewrite splitSlash_cons.
  destruct (Ascii.eqb_spec c "/") as [->|Hc].
  - rewrite Join_cons by apply splitSlash_not_nil. now rewrite IH.
  - destruct (splitSlash s) as [|h t] eqn:E; [now apply splitSlash_not_nil in E|].
    rewrite <- IH. destruct t; reflexivity.
Qed.

Lemma isName_inv (e : string) :
  isName e = true ->
  e <> "" /\ e <> "." /\ e <> ".." /\ hasSlash e = false.
Proof.
  unfold isName, nonEmpty. rewrite !andb_true_iff, !negb_true_iff.
  intros [[[H1 H2] H3] H4]. repeat split; try assumption;
    apply String.eqb_neq; assumption.
Qed.

Lemma Forall_isName_hasSlash (names : list string) :
  forallb isName names = true -> Forall (fun e => hasSlash e = false) names.
Proof.
  intros H. apply List.Forall_forall. intros e He.
  rewrite forallb_forall in H. now destruct (isName_inv e (H e He)) as (_ & _ & _ & Hs).
Qed.

(** *** [Clean] on the elements of a path *)

Lemma Clean_render (p : string) : Clean p = render (rootedOf p) (elemsOf p).
Proof. unfold Clean, elemsOf, rootedOf. now destruct p. Qed.

Lemma cleanStep_name (rooted : bool) (st : list string) (e : string) :
  isName e = true -> cleanStep rooted st e = e :: st.
Proof.
  intros (H1 & H2 & H3 & _)%isName_inv. unfold cleanStep.
  apply String.eqb_neq in H1, H2, H3. now rewrite H1, H2, H3.
Qed.

Lemma cleanStep_skip (rooted : bool) (st : list string) (e : string) :
  e = "" \/ e = "." -> cleanStep rooted st e = st.
Proof. now intros [-> | ->]. Qed.

Lemma cleanStep_pop (rooted : bool) (st : list string) (e : string) :
  isName e = true -> cleanStep rooted (e :: st) ".." = st.
Proof.
  intros (_ & _ & H3 & _)%isName_inv. unfold cleanStep.
  apply String.eqb_neq in H3. cbn. now rewrite H3.
Qed.

Lemma fold_names (rooted : bool) (names st : list string) :
  forallb isName names = true ->
  fold_left (cleanStep rooted) names st = (List.rev names ++ st)%list.
Proof.
  revert st. induction names as [|e names IH]; intros st; [reflexivity|].
  cbn [forallb fold_left List.rev]. intros [He Hn]%andb_true_iff.
  rewrite (cleanStep_name _ _ _ He), (IH _ Hn). now rewrite <- app_assoc.
Qed.

Lemma fold_pops (rooted : bool) (names st : list string) :
  forallb isName names = true ->
  fold_left (cleanStep rooted) (List.repeat ".." (List.length names))
            (List.rev names ++ st)%list = st.
Proof.
  induction names as [|e names IH] using rev_ind; intros Hn; [reflexivity|].
  rewrite forallb_app in Hn. apply andb_true_iff in Hn as [Hn He].
  cbn in He. rewrite andb_true_r in He.
  rewrite length_app, Nat.add_comm. cbn [List.length Nat.add List.repeat fold_left].
  rewrite rev_app_distr. cbn [List.rev app].
  rewrite (cleanStep_pop _ _ _ He). now apply IH.
Qed.

Lemma fold_dotdots (k : nat) :
  fold_left (cleanStep false) (List.repeat ".." k) [] = List.repeat ".." k.
Proof.
  assert (G : forall j, fold_left (cleanStep false) (List.repeat ".." k)
                                  (List.repeat ".." j)
                        = List.repeat ".." (k + j)).
  { induction k as [|k IH]; intros j; [reflexivity|].
    cbn [List.repeat fold_left].
    assert (E : cleanStep false (List.repeat ".." j) ".." = List.repeat ".." (S j)).
    { destruct j; reflexivity. }
    rewrite E, IH. f_equal. lia. }
  rewrite <- (Nat.add_0_r k) at 2. apply (G O).
Qed.

Lemma rev_repeat {A : Type} (x : A) (k : nat) :
  List.rev (List.repeat x k) = List.repeat x k.
Proof.
  induction k as [|k IH]; [reflexivity|]. cbn [List.repeat List.rev]. rewrite IH.
  clear IH. induction k as [|k IH]; [reflexivity|]. cbn. now rewrite IH.
Qed.

(** Cleaned elements go through [Clean] unchanged. *)
Lemma fold_cleanElems (rooted : bool) (elems : list string) :
  cleanElems rooted elems ->
  fold_left (cleanStep rooted) elems [] = List.rev elems.
Proof.
  intros (k & names & -> & Hn & Hk). rewrite fold_left_app, rev_app_distr, rev_repeat.
  destruct rooted.
  - rewrite (Hk eq_refl). cbn [List.repeat fold_left]. now rewrite fold_names.
  - now rewrite fold_dotdots, fold_names.
Qed.

(** What [Clean] keeps is cleaned. *)
Lemma cleanStep_cleanElems (rooted : bool) (st : list string) (e : string) :
  hasSlash e = false ->
  cleanElems rooted (List.rev st) ->
  cleanElems rooted (List.rev (cleanStep rooted st e)).
Proof.
  intros He (k & names & Hst & Hn & Hk). unfold cleanStep.
  destruct (String.eqb_spec e "") as [->|H1]; [now exists k, names|].
  destruct (String.eqb_spec e ".") as [->|H2]; [now exists k, names|].
  cbn [orb]. destruct (String.eqb_spec e "..") as [->|H3].
  - destruct names as [|x names _] using rev_ind.
    + rewrite app_nil_r in Hst. apply (f_equal (@List.rev string)) in Hst.
      rewrite rev_involutive, rev_repeat in Hst. subst st.
      destruct k as [|k].
      * cbn. destruct rooted; [now exists O, []|now exists 1%nat, []].
      * cbn [List.repeat]. change (String.eqb ".." "..") with true. cbv iota.
        exists (S (S k)), []. rewrite app_nil_r.
        change (".." :: ".." :: List.repeat ".." k) with (List.repeat ".." (S (S k))).
        rewrite rev_repeat. repeat split. intros Hr. specialize (Hk Hr). discriminate.
    + rewrite app_assoc in Hst. apply (f_equal (@List.rev string)) in Hst.
      rewrite rev_involutive, rev_app_distr in Hst. cbn [List.rev app] in Hst. subst st.
      rewrite forallb_app in Hn. apply andb_true_iff in Hn as [Hn Hx].
      cbn in Hx. rewrite andb_true_r in Hx.
      destruct (isName_inv x Hx) as (_ & _ & Hx3 & _). apply String.eqb_neq in Hx3.
      rewrite Hx3. rewrite rev_involutive. now exists k, names.
  - exists k, (names ++ [e])%list. cbn [List.rev]. rewrite Hst, <- app_assoc.
    repeat split; [|exact Hk]. rewrite forallb_app, Hn. cbn.
    unfold isName, nonEmpty. apply String.eqb_neq in H1, H2, H3.
    now rewrite H1, H2, H3, He.
Qed.

Lemma fold_cleanStep_cleanElems (rooted : bool) (l st : list string) :
  Forall (fun e => hasSlash e = false) l ->
  cleanElems rooted (List.rev st) ->
  cleanElems rooted (List.rev (fold_left (cleanStep rooted) l st)).
Proof.
  revert st. induction l as [|e l IH]; intros st Hl Hst; [exact Hst|].
  inversion Hl; subst. cbn [fold_left]. apply IH; [assumption|].
  now apply cleanStep_cleanElems.
Qed.

Lemma cleanElems_elemsOf (p : string) : cleanElems (rootedOf p) (elemsOf p).
Proof.
  unfold elemsOf. apply fold_cleanStep_cleanElems; [apply splitSlash_hasSlash|].
  now exists O, [].
Qed.

Lemma cleanElems_app (rooted : bool) (elems names : list string) :
  cleanElems rooted elems -> forallb isName names = true ->
  cleanElems rooted (elems ++ names)%list.
Proof.
  intros (k & names0 & -> & Hn & Hk) Hn'. exists k, (names0 ++ names)%list.
  rewrite <- app_assoc. repeat split; [|exact Hk]. now rewrite forallb_app, Hn, Hn'.
Qed.

Lemma cleanElems_facts (rooted : bool) (elems : list string) :
  cleanElems rooted elems ->
  Forall (fun e => hasSlash e = false) elems /\ Forall (fun e => e <> "") elems.
Proof.
  intros (k & names & -> & Hn & _). split; apply Forall_app; split.
  - apply List.Forall_forall. intros e He. apply repeat_spec in He. now subst.
  - now apply Forall_isName_hasSlash.
  - apply List.Forall_forall. intros e He. apply repeat_spec in He. now subst.
  - apply List.Forall_forall. intros e He. rewrite forallb_forall in Hn.
    now destruct (isName_inv e (Hn e He)).
Qed.

(** *** [Clean] on strings *)

Lemma Join_empty (elems : list string) :
  Forall (fun e => e <> "") elems -> GoStrings.Join elems "/" = "" -> elems = [].
Proof.
  destruct elems as [|e [|e' rest]]; [reflexivity|..]; intros Hne Hj;
    inversion Hne as [|? ? He _]; subst.
  - cbn in Hj. contradiction.
  - rewrite Join_cons in Hj by discriminate. destruct e; [contradiction|discriminate].
Qed.

Lemma render_not_empty (rooted : bool) (elems : list string) :
  render rooted elems <> "".
Proof.
  unfold render. destruct rooted; [discriminate|].
  destruct (String.eqb_spec (GoStrings.Join elems "/") ""); [discriminate|assumption].
Qed.

Lemma HasPrefix_append_l (p t q : string) :
  p <> "" -> String.length q = 1%nat -> HasPrefix (p ++ t) q = HasPrefix p q.
Proof.
  destruct q as [|a [|b q]]; try discriminate. intros Hp _.
  destruct p as [|c p]; [contradiction|]. now rewrite append_cons, !HasPrefix_char.
Qed.

Lemma hasSlash_first (e t : string) :
  e <> "" -> hasSlash e = false -> HasPrefix (e ++ t) "/" = false.
Proof.
  destruct e as [|c e]; [contradiction|]. intros _ H. cbn [hasSlash] in H.
  apply orb_false_iff in H as [Hc _]. rewrite append_cons, HasPrefix_char.
  now rewrite Ascii.eqb_sym.
Qed.

Lemma rootedOf_render (rooted : bool) (elems : list string) (t : string) :
  cleanElems rooted elems -> rootedOf (render rooted elems ++ t) = rooted.
Proof.
  intros Hc. destruct (cleanElems_facts _ _ Hc) as [Hs Hne].
  unfold rootedOf, render. destruct rooted; [reflexivity|].
  destruct (String.eqb_spec (GoStrings.Join elems "/") "") as [_|Hj]; [reflexivity|].
  destruct elems as [|e rest]; [contradiction|].
  inversion Hs; inversion Hne; subst.
  destruct rest as [|e' rest].
  - now apply hasSlash_first.
  - rewrite Join_cons by discriminate. rewrite append_assoc. now apply hasSlash_first.
Qed.

(** Splitting a rendered path gives its elements back, up to elements
    that [Clean] passes over. *)
Lemma fold_splitSlash_render (rooted : bool) (elems : list string) :
  cleanElems rooted elems ->
  fold_left (cleanStep rooted) (splitSlash (render rooted elems)) []
  = List.rev elems.
Proof.
  intros Hc. destruct (cleanElems_facts _ _ Hc) as [Hs Hne].
  rewrite <- (fold_cleanElems _ _ Hc). unfold render.
  destruct elems as [|e rest].
  - now destruct rooted.
  - assert (Hsp : splitSlash (GoStrings.Join (e :: rest) "/") = e :: rest)
      by (apply splitSlash_Join; [discriminate|assumption]).
    destruct rooted.
    + change ("/" ++ GoStrings.Join (e :: rest) "/")
        with (String "/" (GoStrings.Join (e :: rest) "/")).
      rewrite splitSlash_cons. change (Ascii.eqb "/" "/") with true. cbv iota.
      now rewrite Hsp.
    + destruct (String.eqb_spec (GoStrings.Join (e :: rest) "/") "") as [Hj|_].
      * now apply Join_empty in Hj.
      * now rewrite Hsp.
Qed.

Lemma elemsOf_render (rooted : bool) (elems : list string) :
  cleanElems rooted elems ->
  rootedOf (render rooted elems) = rooted /\ elemsOf (render rooted elems) = elems.
Proof.
  intros Hc. pose proof (rootedOf_render rooted elems "" Hc) as Hr.
  rewrite append_nil_r in Hr. split; [exact Hr|].
  unfold elemsOf. rewrite Hr, (fold_splitSlash_render _ _ Hc). apply rev_involutive.
Qed.

(** [Clean] of a path followed by a slash and more. *)
Lemma Clean_append (p s : string) :
  p <> "" ->
  Clean (p ++ "/" ++ s)
  = render (rootedOf p)
      (List.rev (fold_left (cleanStep (rootedOf p)) (splitSlash s)
                           (List.rev (elemsOf p)))).
Proof.
  intros Hp. rewrite Clean_render. unfold elemsOf, rootedOf.
  rewrite (HasPrefix_append_l p _ "/" Hp eq_refl).
  now rewrite splitSlash_append, fold_left_app, rev_involutive.
Qed.

Lemma Join_app (a b : list string) :
  a <> [] -> b <> [] ->
  GoStrings.Join (a ++ b) "/" = GoStrings.Join a "/" ++ "/" ++ GoStrings.Join b "/".
Proof.
  intros Ha Hb. induction a as [|x a IH]; [contradiction|].
  destruct a as [|y a].
  - cbn [app]. now rewrite Join_cons.
  - cbn [app]. rewrite (Join_cons x) by discriminate.
    rewrite (Join_cons x (y :: a)) by discriminate.
    rewrite append_assoc. cbn [app] in IH. rewrite IH by discriminate.
    now rewrite !append_assoc.
Qed.

Lemma Join_names_not_empty (names : list string) :
  names <> [] -> forallb isName names = true -> GoStrings.Join names "/" <> "".
Proof.
  intros Hne Hn Hj. apply Hne, Join_empty; [|exact Hj].
  apply List.Forall_forall. intros e He. rewrite forallb_forall in Hn.
  now destruct (isName_inv e (Hn e He)).
Qed.

(** [filepath.Join] of a directory with names: the elements of the
    directory, then the names. *)
Lemma filepath_Join_names (outDir : string) (names : list string) :
  names <> [] -> forallb isName names = true ->
  GoFilepath.Join [outDir; GoStrings.Join names "/"]
  = render (rootedOf outDir) (elemsOf outDir ++ names).
Proof.
  intros Hne Hn. pose proof (Join_names_not_empty _ Hne Hn) as Hj.
  cbn [GoFilepath.Join]. destruct (String.eqb_spec outDir "") as [->|Ho].
  - apply String.eqb_neq in Hj. rewrite Hj. cbn [GoStrings.Join].
    rewrite Clean_render.
    assert (Hr : rootedOf (GoStrings.Join names "/") = false).
    { destruct names as [|e rest]; [contradiction|].
      cbn [forallb] in Hn. apply andb_true_iff in Hn as [He _].
      destruct (isName_inv e He) as (He1 & _ & _ & He4). unfold rootedOf.
      destruct rest.
      - rewrite <- (append_nil_r e). now apply hasSlash_first.
      - rewrite Join_cons by discriminate. now apply hasSlash_first. }
    unfold elemsOf. rewrite Hr.
    rewrite splitSlash_Join by (assumption || now apply Forall_isName_hasSlash).
    rewrite fold_names by assumption. rewrite app_nil_r, rev_involutive. reflexivity.
  - change (GoStrings.Join [outDir; GoStrings.Join names "/"] "/")
      with (outDir ++ "/" ++ GoStrings.Join names "/").
    rewrite Clean_append by assumption.
    rewrite splitSlash_Join by (assumption || now apply Forall_isName_hasSlash).
    rewrite fold_names by assumption.
    now rewrite rev_app_distr, !rev_involutive.
Qed.

(** *** [Split], [Dir] and [Base] *)

Lemma Split_no_slash (x : string) : hasSlash x = false -> Split x = ("", x).
Proof.
  induction x as [|c x IH]; [reflexivity|]. cbn [hasSlash].
  intros [Hc Hx]%orb_false_iff. cbn [Split]. rewrite (IH Hx). cbn. now rewrite Hc.
Qed.

Lemma Split_append (a x : string) :
  hasSlash x = false -> Split (a ++ "/" ++ x) = (a ++ "/", x).
Proof.
  intros Hx. induction a as [|c a IH].
  - change ("" ++ "/" ++ x) with (String "/" x). cbn [Split].
    now rewrite (Split_no_slash _ Hx).
  - change (String c a ++ "/" ++ x) with (String c (a ++ "/" ++ x)).
    change (String c a ++ "/") with (String c (a ++ "/")).
    cbn [Split]. rewrite IH. destruct a; reflexivity.
Qed.

Lemma render_snoc (rooted : bool) (elems : list string) (x : string) :
  cleanElems rooted elems -> elems <> [] ->
  render rooted (elems ++ [x]) = render rooted elems ++ "/" ++ x.
Proof.
  intros Hc Hne. destruct (cleanElems_facts _ _ Hc) as [_ Hnn].
  unfold render. rewrite Join_app by (assumption || discriminate).
  cbn [GoStrings.Join]. destruct rooted; [now rewrite append_assoc|].
  destruct (String.eqb_spec (GoStrings.Join elems "/") "") as [Hj|_].
  - now apply Join_empty in Hj.
  - destruct (String.eqb_spec (GoStrings.Join elems "/" ++ "/" ++ x) "") as [Hj|_];
      [|reflexivity].
    destruct (GoStrings.Join elems "/"); discriminate.
Qed.

Lemma Clean_trailing_slash (rooted : bool) (elems : list string) :
  cleanElems rooted elems ->
  Clean (render rooted elems ++ "/") = render rooted elems.
Proof.
  intros Hc. destruct (elemsOf_render _ _ Hc) as [Hr He].
  change (render rooted elems ++ "/") with (render rooted elems ++ "/" ++ "").
  rewrite Clean_append by apply render_not_empty.
  rewrite Hr, He. cbn [splitSlash fold_left].
  rewrite (cleanStep_skip _ _ "") by now left. now rewrite rev_involutive.
Qed.

(** The directory of a cleaned path: the path without its last name. *)
Lemma Dir_render (rooted : bool) (elems : list string) (x : string) :
  cleanElems rooted elems -> isName x = true ->
  Dir (render rooted (elems ++ [x])) = render rooted elems.
Proof.
  intros Hc Hx. destruct (isName_inv x Hx) as (Hx1 & _ & _ & Hx4). unfold Dir.
  destruct elems as [|e rest].
  - cbn [app]. unfold render. cbn [GoStrings.Join]. destruct rooted.
    + change ("/" ++ x) with ("" ++ "/" ++ x). now rewrite (Split_append "" x Hx4).
    + apply String.eqb_neq in Hx1. rewrite Hx1. now rewrite (Split_no_slash x Hx4).
  - rewrite render_snoc by (assumption || discriminate).
    rewrite (Split_append _ x Hx4). cbn [fst]. now apply Clean_trailing_slash.
Qed.

Lemma trimTrailingSlashes_name (a x : string) :
  x <> "" -> hasSlash x = false -> trimTrailingSlashes (a ++ x) = a ++ x.
Proof.
  intros Hx Hs.
  assert (G : trimTrailingSlashes x = x /\ trimTrailingSlashes x <> "").
  { clear a. induction x as [|c x IH]; [contradiction|]. cbn [hasSlash] in Hs.
    apply orb_false_iff in Hs as [Hc Hs']. cbn [trimTrailingSlashes].
    rewrite Hc, andb_false_r. destruct x as [|c' x]; [split; [reflexivity|discriminate]|].
    destruct (IH ltac:(discriminate) Hs') as [-> _]. split; [reflexivity|discriminate]. }
  destruct G as [G1 G2]. induction a as [|c a IH]; [exact G1|].
  rewrite append_cons. cbn [trimTrailingSlashes]. rewrite IH.
  destruct (a ++ x) eqn:E; [|reflexivity].
  destruct a; [cbn in E; contradiction|discriminate].
Qed.

(** The base of a cleaned path is its last name. *)
Lemma Base_render (rooted : bool) (elems : list string) (x : string) :
  cleanElems rooted elems -> isName x = true ->
  Base (render rooted (elems ++ [x])) = x.
Proof.
  intros Hc Hx. destruct (isName_inv x Hx) as (Hx1 & _ & _ & Hx4). unfold Base.
  destruct (String.eqb_spec (render rooted (elems ++ [x])) "") as [E|_];
    [now apply render_not_empty in E|].
  assert (Hr : exists a, render rooted (elems ++ [x]) = a ++ x
                         /\ Split (a ++ x) = (a, x)).
  { destruct elems as [|e rest].
    - cbn [app]. unfold render. cbn [GoStrings.Join]. destruct rooted.
      + exists "/". split; [reflexivity|]. apply (Split_append "" x Hx4).
      + apply String.eqb_neq in Hx1. rewrite Hx1. exists "". split; [reflexivity|].
        now apply Split_no_slash.
    - rewrite render_snoc by (assumption || discriminate).
      exists (render rooted (e :: rest) ++ "/"). rewrite append_assoc.
      split; [reflexivity|]. now apply Split_append. }
  destruct Hr as (a & -> & Hsp). rewrite trimTrailingSlashes_name by assumption.
  rewrite Hsp. cbn [snd]. apply String.eqb_neq in Hx1. now rewrite Hx1.
Qed.

(** *** Going up *)

Lemma splitSlash_repeatN (k : nat) :
  splitSlash (repeatN "../" k) = (List.repeat ".." k ++ [""])%list.
Proof.
  induction k as [|k IH]; [reflexivity|]. cbn [repeatN List.repeat].
  change ("../" ++ repeatN "../" k) with (".." ++ "/" ++ repeatN "../" k).
  now rewrite splitSlash_append, IH.
Qed.

(** From a directory that lies [names] below a cleaned path, as many
    [../] as there are names lead back to that path. *)
Lemma filepath_Join_up (rooted : bool) (elems names : list string) :
  cleanElems rooted elems -> forallb isName names = true ->
  GoFilepath.Join [render rooted (elems ++ names); repeatN "../" (List.length names)]
  = render rooted elems.
Proof.
  intros Hc Hn. pose proof (cleanElems_app _ _ _ Hc Hn) as Hc'.
  destruct (elemsOf_render _ _ Hc') as [Hr He].
  cbn [GoFilepath.Join].
  destruct (String.eqb_spec (render rooted (elems ++ names)) "") as [E|_];
    [now apply render_not_empty in E|].
  change (GoStrings.Join [render rooted (elems ++ names);
                          repeatN "../" (List.length names)] "/")
    with (render rooted (elems ++ names) ++ "/" ++ repeatN "../" (List.length names)).
  rewrite Clean_append by apply render_not_empty.
  rewrite Hr, He, splitSlash_repeatN, fold_left_app, rev_app_distr.
  rewrite (fold_pops _ _ _ Hn). cbn [fold_left].
  rewrite (cleanStep_skip _ _ "") by now left. now rewrite rev_involutive.
Qed.

Lemma filepath_Join_here (rooted : bool) (elems : list string) :
  cleanElems rooted elems ->
  GoFilepath.Join [render rooted elems; "./"] = render rooted elems.
Proof.
  intros Hc. destruct (elemsOf_render _ _ Hc) as [Hr He]. cbn [GoFilepath.Join].
  destruct (String.eqb_spec (render rooted elems) "") as [E|_];
    [now apply render_not_empty in E|].
  change (GoStrings.Join [render rooted elems; "./"] "/")
    with (render rooted elems ++ "/" ++ "./").
  rewrite Clean_append by apply render_not_empty.
  rewrite Hr, He. change (splitSlash "./") with ["."; ""]. cbn [fold_left].
  rewrite (cleanStep_skip _ _ ".") by now right.
  rewrite (cleanStep_skip _ _ "") by now left. now rewrite rev_involutive.
Qed.

(** *** Pages and their directories *)

Lemma Clean_idempotent (p : string) : Clean (Clean p) = Clean p.
Proof.
  rewrite (Clean_render p).
  destruct (elemsOf_render _ _ (cleanElems_elemsOf p)) as [Hr He].
  now rewrite Clean_render, Hr, He.
Qed.

(** [filepath.Join] of a directory and names given one by one. *)
Lemma filepath_Join_flat (outDir : string) (names : list string) :
  names <> [] -> forallb isName names = true ->
  GoFilepath.Join (outDir :: names)
  = render (rootedOf outDir) (elemsOf outDir ++ names).
Proof.
  intros Hne Hn. rewrite <- (filepath_Join_names outDir names Hne Hn).
  pose proof (Join_names_not_empty _ Hne Hn) as Hj.
  cbn [GoFilepath.Join]. destruct (String.eqb_spec outDir "") as [->|Ho].
  - apply String.eqb_neq in Hj. rewrite Hj. cbn [GoStrings.Join].
    destruct names as [|e rest]; [contradiction|]. cbn [GoFilepath.Join].
    cbn [forallb] in Hn. apply andb_true_iff in Hn as [He _].
    destruct (isName_inv e He) as (He1 & _). apply String.eqb_neq in He1.
    now rewrite He1.
  - rewrite Join_cons by assumption. reflexivity.
Qed.

Lemma isPagePath_inv (p : string) :
  isPagePath p = true ->
  p = "/"
  \/ exists names, names <> [] /\ forallb isName names = true
       /\ p = String "/" (GoStrings.Join names "/")
       /\ splitSlash (GoStrings.Join names "/") = names
       /\ GoFilepath.Ext (GoStrings.Join names "/") = "".
Proof.
  unfold isPagePath. intros [Hp H]%andb_true_iff.
  apply HasPrefix_iff in Hp as [q ->]. change ("/" ++ q) with (String "/" q) in *.
  apply orb_true_iff in H as [H|H].
  - left. now apply String.eqb_eq in H.
  - right. change (drop 1 (String "/" q)) with q in H.
    apply andb_true_iff in H as [Hn He]. apply String.eqb_eq in He.
    exists (splitSlash q). rewrite Join_splitSlash.
    repeat split; try assumption. apply splitSlash_not_nil.
Qed.

Lemma Repeat_of_nat (s : string) (n : nat) : Repeat s (Z.of_nat n) = repeatN s n.
Proof. unfold Repeat. now rewrite Nat2Z.id. Qed.

Lemma forallb_isName_nonEmpty (names : list string) :
  forallb isName names = true -> forallb nonEmpty names = true.
Proof.
  intros H. apply forallb_forall. intros e He. rewrite forallb_forall in H.
  specialize (H e He). unfold isName in H. now rewrite !andb_true_iff in H.
Qed.

(** C5.  The page of a URL path without extension is the [index.html]
    of the directory made of the output directory and the segments of
    the path, one level for each segment, and the relative prefix of
    the path leads from that directory to the output directory. *)
Theorem page_directory_depth (outDir p : string) :
  isPagePath p = true ->
  let segs := List.filter nonEmpty (splitSlash p) in
  let outPath := urlPathToFilePath p outDir in
  Depth p = Z.of_nat (List.length segs)
  /\ outPath = GoFilepath.Join (outDir :: segs ++ ["index.html"])
  /\ GoFilepath.Dir outPath = GoFilepath.Clean (GoFilepath.Join (outDir :: segs))
  /\ relativePrefix p = (if Depth p =? 0 then "./" else Repeat "../" (Depth p))
  /\ GoFilepath.Join [GoFilepath.Dir outPath; relativePrefix p]
     = GoFilepath.Clean outDir.
Proof.
  intros Hp. cbv zeta. split; [reflexivity|].
  pose proof (cleanElems_elemsOf outDir) as Hc.
  unfold GoFilepath.Clean, GoFilepath.Dir.
  destruct (isPagePath_inv p Hp) as [->|(names & Hne & Hn & -> & Hsp & Hext)].
  - change (List.filter nonEmpty (splitSlash "/")) with (@nil string).
    change (urlPathToFilePath "/" outDir) with (GoFilepath.Join [outDir; "index.html"]).
    change (relativePrefix "/") with "./". change (Depth "/" =? 0) with true. cbv iota.
    cbn [app].
    rewrite (filepath_Join_flat outDir ["index.html"]) by (discriminate || reflexivity).
    rewrite (Dir_render _ _ "index.html" Hc eq_refl).
    rewrite (filepath_Join_here _ _ Hc).
    repeat split; [|now rewrite Clean_render]. cbn [GoFilepath.Join].
    destruct (String.eqb_spec outDir "") as [->|_]; [reflexivity|].
    cbn [GoStrings.Join]. now rewrite Clean_idempotent, Clean_render.
  - rewrite splitSlash_cons. change (Ascii.eqb "/" "/") with true. cbv iota.
    rewrite Hsp. cbn [List.filter]. change (nonEmpty "") with false. cbv iota.
    rewrite (filter_all _ _ (forallb_isName_nonEmpty _ Hn)).
    assert (Hq : GoStrings.Join names "/" <> "") by now apply Join_names_not_empty.
    assert (Hn' : forallb isName (names ++ ["index.html"]) = true)
      by now rewrite forallb_app, Hn.
    assert (Hout : urlPathToFilePath (String "/" (GoStrings.Join names "/")) outDir
                   = render (rootedOf outDir) ((elemsOf outDir ++ names) ++ ["index.html"])).
    { unfold urlPathToFilePath.
      change (TrimPrefix (String "/" (GoStrings.Join names "/")) "/")
        with (GoStrings.Join names "/").
      apply String.eqb_neq in Hq. rewrite Hq, Hext. cbn [String.eqb negb].
      unfold GoFilepath.FromSlash. rewrite <- app_assoc.
      rewrite <- (filepath_Join_names outDir (names ++ ["index.html"]))
        by (assumption || now destruct names).
      rewrite Join_app by (assumption || discriminate).
      cbn [GoFilepath.Join]. destruct (String.eqb outDir ""); [|reflexivity].
      rewrite Hq. destruct (GoStrings.Join names "/"); [discriminate Hq|reflexivity]. }
    rewrite Hout.
    rewrite (filepath_Join_flat outDir (names ++ ["index.html"]))
      by (assumption || now destruct names).
    rewrite (filepath_Join_flat outDir names) by assumption.
    rewrite (Dir_render _ _ "index.html" (cleanElems_app _ _ _ Hc Hn) eq_refl).
    rewrite (relativePrefix_slash _ Hq), Hsp.
    assert (Hd : Depth (String "/" (GoStrings.Join names "/"))
                 = Z.of_nat (List.length names)).
    { unfold Depth. rewrite splitSlash_cons. change (Ascii.eqb "/" "/") with true.
      cbv iota. rewrite Hsp. cbn [List.filter]. change (nonEmpty "") with false.
      cbv iota. now rewrite (filter_all _ _ (forallb_isName_nonEmpty _ Hn)). }
    rewrite Hd. rewrite Repeat_of_nat, (filepath_Join_up _ _ _ Hc Hn).
    repeat split.
    + now rewrite app_assoc.
    + rewrite Clean_render.
      now destruct (elemsOf_render _ _ (cleanElems_app _ _ _ Hc Hn)) as [-> ->].
    + destruct names; [contradiction|reflexivity].
    + now rewrite Clean_render.
Qed.

Lemma page_directory_depth_witness :
  urlPathToFilePath "/net/http" "out" = "out/net/http/index.html"
  /\ GoFilepath.Join [GoFilepath.Dir (urlPathToFilePath "/net/http" "out");
                      relativePrefix "/net/http"] = "out".
Proof.
  pose proof (page_directory_depth "out" "/net/http" eq_refl) as H.
  cbv zeta in H. destruct H as (_ & H1 & _ & _ & H2). split; [exact H1|exact H2].
Defined.

(** *** The depth of an asset *)

Lemma isFilePath_inv (p : string) :
  isFilePath p = true ->
  splitSlash p <> [] /\ forallb isName (splitSlash p) = true
  /\ p = GoStrings.Join (splitSlash p) "/".
Proof.
  intros H. repeat split; [apply splitSlash_not_nil|exact H|].
  now rewrite Join_splitSlash.
Qed.

Lemma render_names (names : list string) :
  names <> [] -> forallb isName names = true ->
  render false names = GoStrings.Join names "/".
Proof.
  intros Hne Hn. unfold render.
  pose proof (Join_names_not_empty _ Hne Hn) as Hj.
  apply String.eqb_neq in Hj. now rewrite Hj.
Qed.

Lemma cleanElems_names (names : list string) :
  forallb isName names = true -> cleanElems false names.
Proof.
  intros Hn. exists O, names. split; [reflexivity|]. split; [exact Hn|discriminate].
Qed.

Lemma Join_names_not_dot (names : list string) :
  names <> [] -> forallb isName names = true -> GoStrings.Join names "/" <> ".".
Proof.
  intros Hne Hn Hj.
  pose proof (splitSlash_Join names Hne (Forall_isName_hasSlash _ Hn)) as Hsp.
  rewrite Hj in Hsp. cbn in Hsp. subst names. discriminate.
Qed.

(** The prefix of an asset: one [../] for each directory above the
    file in the path handed over. *)
Lemma assetPrefix_names (dirs : list string) (file : string) :
  forallb isName dirs = true -> isName file = true ->
  assetPrefix (GoStrings.Join (dirs ++ [file]) "/") = repeatN "../" (List.length dirs).
Proof.
  intros Hd Hf. unfold assetPrefix.
  assert (Hn : forallb isName (dirs ++ [file]) = true)
    by (rewrite forallb_app, Hd; cbn; now rewrite Hf).
  rewrite <- (render_names (dirs ++ [file])) by (assumption || now destruct dirs).
  rewrite (Dir_render false dirs file (cleanElems_names _ Hd) Hf).
  destruct dirs as [|d dirs]; [reflexivity|].
  rewrite render_names by (assumption || discriminate).
  pose proof (Join_names_not_dot (d :: dirs) ltac:(discriminate) Hd) as Hdot.
  apply String.eqb_neq in Hdot. rewrite Hdot. cbn [negb].
  rewrite Count_slash_pieces.
  rewrite splitSlash_Join by (discriminate || now apply Forall_isName_hasSlash).
  apply Repeat_of_nat.
Qed.

Lemma assetPrefix_filePath (filePath : string) :
  isFilePath filePath = true ->
  assetPrefix filePath
  = Repeat "../" (Z.of_nat (List.length (splitSlash filePath)) - 1).
Proof.
  intros (Hne & Hn & Hp)%isFilePath_inv. rewrite Hp at 1.
  destruct (splitSlash filePath) as [|x l _] using rev_ind; [contradiction|].
  rewrite forallb_app in Hn. apply andb_true_iff in Hn as [Hd Hf].
  cbn in Hf. rewrite andb_true_r in Hf.
  rewrite (assetPrefix_names _ _ Hd Hf), length_app. cbn [List.length].
  rewrite <- Repeat_of_nat. f_equal. lia.
Qed.

(** The path handed over for a file copied under [outDir/top]: [top],
    then the path of the file in the embedded filesystem. *)
Lemma siteRelPath_under (outDir top fpath : string) :
  isName top = true -> isFilePath fpath = true ->
  siteRelPath (GoFilepath.Join [outDir; top]) fpath = top ++ "/" ++ fpath
  /\ isFilePath (top ++ "/" ++ fpath) = true.
Proof.
  intros Ht (Hne & Hn & Hp)%isFilePath_inv.
  assert (Hfp : isFilePath (top ++ "/" ++ fpath) = true).
  { unfold isFilePath. rewrite splitSlash_append.
    destruct (isName_inv top Ht) as (_ & _ & _ & Hs).
    rewrite (splitSlash_no_slash _ Hs). cbn [app forallb]. now rewrite Ht, Hn. }
  split; [|exact Hfp]. unfold siteRelPath, GoFilepath.Base.
  change (GoFilepath.Join [outDir; top])
    with (GoFilepath.Join [outDir; GoStrings.Join [top] "/"]).
  rewrite (filepath_Join_names outDir [top]) by (discriminate || (cbn; now rewrite Ht)).
  rewrite (Base_render _ _ top (cleanElems_elemsOf outDir) Ht).
  unfold GoPath.Join. cbn [List.filter].
  destruct (isName_inv top Ht) as (Ht1 & _). apply String.eqb_neq in Ht1.
  rewrite Ht1. cbn [negb].
  assert (Hf1 : String.eqb fpath "" = false).
  { apply String.eqb_neq. rewrite Hp. now apply Join_names_not_empty. }
  rewrite Hf1. cbn [negb].
  change (GoStrings.Join [top; fpath] "/") with (top ++ "/" ++ fpath).
  destruct (isFilePath_inv _ Hfp) as (Hne' & Hn' & Hp').
  rewrite Hp' at 1. rewrite <- (render_names _ Hne' Hn').
  rewrite Clean_render.
  destruct (elemsOf_render _ _ (cleanElems_names _ Hn')) as [-> ->].
  rewrite (render_names _ Hne' Hn'). now rewrite <- Hp'.
Qed.

(** A file copied under [outDir/top] gets one [../] for each segment of
    its path in the embedded filesystem, the file name included. *)
Lemma assetPrefix_copied (outDir top fpath : string) :
  isName top = true -> isFilePath fpath = true ->
  siteRelPath (GoFilepath.Join [outDir; top]) fpath = top ++ "/" ++ fpath
  /\ assetPrefix (siteRelPath (GoFilepath.Join [outDir; top]) fpath)
     = Repeat "../" (Z.of_nat (List.length (splitSlash fpath))).
Proof.
  intros Ht Hf.
  destruct (siteRelPath_under outDir top fpath Ht Hf) as [-> Hfp].
  split; [reflexivity|]. rewrite (assetPrefix_filePath _ Hfp).
  rewrite splitSlash_append.
  destruct (isName_inv top Ht) as (_ & _ & _ & Hs).
  rewrite (splitSlash_no_slash _ Hs). cbn [app List.length]. f_equal. lia.
Qed.

Lemma assetPrefix_copied_not_empty (outDir top fpath : string) :
  isName top = true -> isFilePath fpath = true ->
  assetPrefix (siteRelPath (GoFilepath.Join [outDir; top]) fpath) <> "".
Proof.
  intros Ht Hf. destruct (assetPrefix_copied outDir top fpath Ht Hf) as [_ ->].
  rewrite Repeat_of_nat.
  destruct (splitSlash fpath) eqn:E; [now apply splitSlash_not_nil in E|].
  discriminate.
Qed.

(** C2, as the code has it.  The prefix is computed from the directory
    part of the path handed over, one [../] for each directory: for
    [style.css] the reference [/static/foo.png] becomes
    [static/foo.png], for a file three directories deep it gets three
    [../].  The path handed over for a copied file begins with the name
    of the directory it is copied to, [static] or [third_party], so a
    file of an embedded filesystem gets one [../] more than its path
    there has directories, and never none. *)
Theorem assetPrefix_counts_directories :
  (forall filePath : string,
      isFilePath filePath = true ->
      assetPrefix filePath
      = Repeat "../" (Z.of_nat (List.length (splitSlash filePath)) - 1))
  /\ absoluteToRelativeAsset "url(/static/foo.png)" "style.css"
     = "url(static/foo.png)"
  /\ absoluteToRelativeAsset "url(/static/foo.png)" "static/frontend/homepage/homepage.css"
     = "url(../../../static/foo.png)"
  /\ (forall outDir top fpath : string,
        isName top = true -> isFilePath fpath = true ->
        siteRelPath (GoFilepath.Join [outDir; top]) fpath = top ++ "/" ++ fpath
        /\ assetPrefix (siteRelPath (GoFilepath.Join [outDir; top]) fpath)
           = Repeat "../" (Z.of_nat (List.length (splitSlash fpath)))).
Proof.
  split; [exact assetPrefix_filePath|]. split; [reflexivity|]. split; [reflexivity|].
  exact assetPrefix_copied.
Qed.

Lemma assetPrefix_counts_directories_witness :
  assetPrefix "static/frontend/homepage/homepage.css" = "../../../"
  /\ assetPrefix (siteRelPath (GoFilepath.Join ["out"; "static"]) "style.css") = "../".
Proof.
  split.
  - exact (proj1 assetPrefix_counts_directories
             "static/frontend/homepage/homepage.css" eq_refl).
  - exact (proj2 (proj2 (proj2 (proj2 assetPrefix_counts_directories))
                    "out" "static" "style.css" eq_refl eq_refl)).
Defined.

(** Against C2 as stated: a stylesheet at the root of an embedded
    filesystem, copied as the generator copies it, has its reference
    rewritten with one [../], not with none; and no file copied under
    [static] or [third_party] gets the empty prefix. *)
Lemma root_asset_gets_one_level :
  copyEmbeddedFS styleFS "." (GoFilepath.Join ["out"; "static"]) (∅ : MemDisk)
  = ({[ "out/static/style.css" := "a{background:url(../static/foo.png)}" ]}, None)
  /\ absoluteToRelativeAsset "a{background:url(/static/foo.png)}" "style.css"
     = "a{background:url(static/foo.png)}"
  /\ (forall outDir fpath : string,
        isFilePath fpath = true ->
        assetPrefix (siteRelPath (GoFilepath.Join [outDir; "static"]) fpath) <> ""
        /\ assetPrefix (siteRelPath (GoFilepath.Join [outDir; "third_party"]) fpath) <> "").
Proof.
  split; [vm_compute; reflexivity|]. split; [vm_compute; reflexivity|].
  intros outDir fpath Hf. split; now apply assetPrefix_copied_not_empty.
Qed.

(** ** The tables of the package's tests *)

(** [TestRelativePrefix]. *)
Example relativePrefix_table :
  map relativePrefix ["/"; "/about"; "/net/http"; "/net/http/httptest"; "/search-help"]
  = ["./"; "../"; "../../"; "../../../"; "../"].
Proof. reflexivity. Qed.

(** [TestIsURLAttr]. *)
Example isURLAttr_table :
  map isURLAttr ["href"; "src"; "action"; "poster"; "data";
                 "class"; "id"; "style"; "value"]
  = [true; true; true; true; true; false; false; false; false].
Proof. reflexivity. Qed.

(** [TestRelativizeScriptText]. *)
Example relativizeScriptText_table :
  relativizeScriptText "loadScript('/static/frontend/frontend.js')" "../"
  = "loadScript('../static/frontend/frontend.js')"
  /\ relativizeScriptText
       (String.concat dquote
          ["loadScript("; "/static/a.js"; "); loadScript("; "/third_party/b.js"; ")"])
       "../"
     = String.concat dquote
         ["loadScript("; "../static/a.js"; "); loadScript("; "../third_party/b.js"; ")"]
  /\ relativizeScriptText "loadScript('/static/frontend/frontend.js')" "./"
     = "loadScript('./static/frontend/frontend.js')"
  /\ relativizeScriptText "console.log('hello world')" "../"
     = "console.log('hello world')".
Proof. repeat split; reflexivity. Qed.

(** [TestAbsoluteToRelativeAsset]. *)
Example absoluteToRelativeAsset_table :
  absoluteToRelativeAsset "background: url(/static/shared/icon/search.svg)"
    "static/frontend/homepage/homepage.css"
  = "background: url(../../../static/shared/icon/search.svg)"
  /\ absoluteToRelativeAsset "@import '/static/shared/shared.css'"
       "static/frontend/frontend.css"
     = "@import '../../static/shared/shared.css'"
  /\ absoluteToRelativeAsset "url(/third_party/fonts/font.woff2)"
       "static/frontend/frontend.css"
     = "url(../../third_party/fonts/font.woff2)"
  /\ absoluteToRelativeAsset "url(/static/foo.png)" "style.css"
     = "url(static/foo.png)"
  /\ absoluteToRelativeAsset ".foo { color: red; }" "static/frontend/frontend.css"
     = ".foo { color: red; }".
Proof. repeat split; reflexivity. Qed.

(** [TestURLPathToFilePath]. *)
Example urlPathToFilePath_table :
  map (fun p => urlPathToFilePath p "out")
      ["/"; "/about"; "/net/http"; "/favicon.ico"; "/static/frontend/frontend.css"]
  = ["out/index.html"; "out/about/index.html"; "out/net/http/index.html";
     "out/favicon.ico"; "out/static/frontend/frontend.css"].
Proof. reflexivity. Qed.

(** A URL path whose last segment has a dot is taken for a file: the
    page is written one level higher than its relative prefix assumes. *)
Example urlPathToFilePath_dotted :
  urlPathToFilePath "/gopkg.in/yaml.v3" "out" = "out/gopkg.in/yaml.v3"
  /\ relativePrefix "/gopkg.in/yaml.v3" = "../../".
Proof. split; reflexivity. Qed.

(** The enumeration on two modules and two getters: the first getter
    knows the first module only, the second knows both. *)
Example enumerateUnitPaths_ex :
  let unknown := mkLazyModule (Some (External "not found")) [] in
  let g1 : ModuleGetter := fun m =>
    if String.eqb m "example.com/b"
    then mkLazyModule None [mkUnitMeta "example.com/b"; mkUnitMeta "example.com/b/x"]
    else unknown in
  let g2 : ModuleGetter := fun m =>
    if String.eqb m "example.com/b"
    then mkLazyModule None [mkUnitMeta "example.com/b/other"]
    else if String.eqb m "example.com/a"
    then mkLazyModule None [mkUnitMeta "example.com/a"; mkUnitMeta "example.com/b/x"]
    else unknown in
  enumerateUnitPaths [g1; g2]
    [mkLocalModule "example.com/b"; mkLocalModule "example.com/missing";
     mkLocalModule "example.com/a"]
  = (["example.com/a"; "example.com/b"; "example.com/b/x"], None).
Proof. vm_compute. reflexivity. Qed.

(** * Further properties *)

(** ** The relative prefix *)

Lemma countFrom_nonneg (sub : string) (skip : nat) (s : string) :
  0 <= countFrom sub skip s.
Proof.
  revert skip. induction s as [|c s IH]; intros skip; cbn [countFrom]; [lia|].
  destruct skip; [|apply IH].
  destruct (HasPrefix (String c s) sub); [|apply IH].
  specialize (IH (String.length sub - 1)%nat). lia.
Qed.

Lemma Count_nonneg (s sub : string) : 0 <= Count s sub.
Proof.
  unfold Count. destruct (String.eqb sub ""); [lia|apply countFrom_nonneg].
Qed.

(** X1.  Whatever the string handed over, the relative prefix is [./] or
    [../] repeated once or more: it is never empty, begins with a dot
    and not with a slash, and ends with a slash. *)
Lemma relativePrefix_shape (urlPath : string) :
  (relativePrefix urlPath = "./"
   \/ exists n : nat, relativePrefix urlPath = repeatN "../" (S n))
  /\ HasPrefix (relativePrefix urlPath) "." = true
  /\ HasPrefix (relativePrefix urlPath) "/" = false
  /\ HasSuffix (relativePrefix urlPath) "/" = true.
Proof.
  assert (H : relativePrefix urlPath = "./"
              \/ exists n : nat, relativePrefix urlPath = repeatN "../" (S n)).
  { unfold relativePrefix. destruct (String.eqb (TrimPrefix urlPath "/") "");
      [now left|right].
    pose proof (Count_nonneg (TrimPrefix urlPath "/") "/") as Hc.
    exists (Z.to_nat (Count (TrimPrefix urlPath "/") "/")). unfold Repeat.
    f_equal. lia. }
  split; [exact H|]. destruct H as [->|[n ->]]; [repeat split|].
  repeat split.
  induction n as [|n IH]; [reflexivity|].
  change (repeatN "../" (S (S n))) with ("../" ++ repeatN "../" (S n)).
  unfold HasSuffix in *. rewrite length_append.
  apply andb_true_iff in IH as [_ IH]. apply andb_true_iff. split.
  - apply Nat.leb_le. cbn [String.length]. lia.
  - replace (String.length "../" + String.length (repeatN "../" (S n))
             - String.length "/")%nat
      with (String.length "../"
            + (String.length (repeatN "../" (S n)) - String.length "/"))%nat.
    + now rewrite drop_append.
    + change (repeatN "../" (S n)) with ("../" ++ repeatN "../" n).
      rewrite length_append. cbn [String.length]. lia.
Qed.

(** ** The walk, once more *)

Lemma isElementNode_walkNodes (n : Node) (prefix : string) :
  isElementNode (walkNodes n prefix) = isElementNode n.
Proof.
  rewrite walkNodes_eq. unfold isElementNode, visit, isElementNode.
  destruct n as [t d ns a cs]. cbn. destruct t; reflexivity.
Qed.

Lemma rewriteAttr_stable (prefix prefix' : string) (a : Attribute) :
  HasPrefix prefix "." = true ->
  rewriteAttr prefix' (rewriteAttr prefix a) = rewriteAttr prefix a.
Proof.
  intros Hp. unfold rewriteAttr at 2. destruct (isRewriteTarget a) eqn:E.
  - apply HasPrefix_iff in Hp as [t ->].
    change (("." ++ t) ++ drop 1 (Val a)) with (String "." (t ++ drop 1 (Val a))).
    unfold rewriteAttr, isRewriteTarget at 1. cbn [Key Val].
    rewrite HasPrefix_char. change (Ascii.eqb "/" ".") with false.
    rewrite andb_false_r, E. reflexivity.
  - unfold rewriteAttr. now rewrite E.
Qed.

Lemma relativePrefix_dot (urlPath : string) :
  HasPrefix (relativePrefix urlPath) "." = true.
Proof.
  unfold relativePrefix. destruct (String.eqb (TrimPrefix urlPath "/") "");
    [reflexivity|].
  pose proof (Count_nonneg (TrimPrefix urlPath "/") "/") as Hc. unfold Repeat.
  replace (Z.to_nat (Count (TrimPrefix urlPath "/") "/" + 1))
    with (S (Z.to_nat (Count (TrimPrefix urlPath "/") "/"))) by lia.
  reflexivity.
Qed.

(** X2.  An attribute that the walk has made relative is not rewritten by a
    second walk, of whatever page: the attributes of an element are the
    same after two walks as after one. *)
Lemma walkNodes_attributes_stable (m : Node) (urlPath urlPath' : string) :
  isElementNode m = true ->
  Attr (walkNodes (walkNodes m (relativePrefix urlPath)) (relativePrefix urlPath'))
  = Attr (walkNodes m (relativePrefix urlPath)).
Proof.
  intros Hm. rewrite Attr_walkNodes by now rewrite isElementNode_walkNodes.
  rewrite (Attr_walkNodes m) by exact Hm. rewrite map_map.
  apply map_ext. intros a. apply rewriteAttr_stable.
  apply relativePrefix_dot.
Qed.

Lemma walkNodes_attributes_stable_witness :
  Attr (walkNodes (walkNodes (mkNode ElementNode "a" "" [mkAttribute "" "href" "/about"] [])
                             (relativePrefix "/net/http"))
                  (relativePrefix "/net"))
  = [mkAttribute "" "href" "../../about"].
Proof.
  exact (walkNodes_attributes_stable
           (mkNode ElementNode "a" "" [mkAttribute "" "href" "/about"] [])
           "/net/http" "/net" eq_refl).
Defined.

Lemma map_id_in {A : Type} (f : A -> A) (l : list A) :
  (forall x, In x l -> f x = x) -> map f l = l.
Proof.
  induction l as [|x l IH]; intros H; [reflexivity|]. cbn [map].
  rewrite (H x) by now left. f_equal. apply IH. intros y Hy. apply H. now right.
Qed.

(** X3.  A tree in which no element occurs, such as a comment, a doctype or
    a text, goes through the walk unchanged. *)
Lemma walkNodes_without_elements (n : Node) (prefix : string) :
  (forall m : Node, Occurs m n -> isElementNode m = false) ->
  walkNodes n prefix = n.
Proof.
  induction n as [n IH] using (walk_ind prefix). intros Hn.
  assert (Hv : visit prefix n = n) by (apply visit_not_element, Hn; constructor).
  rewrite Hv in IH. rewrite walkNodes_eq, Hv.
  rewrite map_id_in; [now destruct n|].
  intros c Hc. apply IH; [exact Hc|]. intros m Hm. apply Hn.
  eapply Occurs_below; eassumption.
Qed.

Lemma walkNodes_without_elements_witness :
  walkNodes (mkNode CommentNode " href='/static/x' " "" []
               [mkNode TextNode "'/static/y'" "" [] []]) "../"
  = mkNode CommentNode " href='/static/x' " "" []
      [mkNode TextNode "'/static/y'" "" [] []].
Proof.
  apply walkNodes_without_elements. intros m Hm.
  inversion Hm as [|n c Hc Hm']; subst; [reflexivity|].
  destruct Hc as [<-|[]]. inversion Hm' as [|n c Hc _]; subst; [reflexivity|].
  destruct Hc.
Defined.

Lemma countWhere_isHeadElement_walkNodes (prefix : string) (n : Node) :
  countWhere isHeadElement (walkNodes n prefix) = countWhere isHeadElement n.
Proof.
  induction n as [n IH] using (walk_ind prefix).
  rewrite (countWhere_eq _ (walkNodes n prefix)), isHeadElement_walkNodes.
  rewrite walkNodes_eq. cbn [Children]. rewrite map_map.
  rewrite (list_sum_map_ext _ _ _ IH).
  rewrite (countWhere_eq isHeadElement n). f_equal.
  unfold visit. destruct (isElementNode n); [|reflexivity]. cbn [Children].
  destruct (String.eqb (Data n) "head") eqn:Hd.
  - apply String.eqb_eq in Hd. rewrite Hd.
    change (String.eqb "head" "script") with false. cbv iota. reflexivity.
  - destruct (String.eqb (Data n) "script"); [|reflexivity].
    rewrite map_map. apply list_sum_map_ext. intros x _.
    apply countWhere_rewriteScriptChild, isHeadElement_rewriteScriptChild.
Qed.

(** X4.  The walk is not idempotent on the policy: every walk adds a policy
    node to every [head] element, so two walks add two. *)
Lemma walkNodes_twice (doc : Node) (prefix prefix' : string) :
  countWhere isCSPMetaNode (walkNodes (walkNodes doc prefix) prefix')
  = (countWhere isCSPMetaNode doc + 2 * countWhere isHeadElement doc)%nat
  /\ forall h : Node,
       isHeadElement h = true ->
       exists rest : list Node,
         Children (walkNodes (walkNodes h prefix) prefix')
         = cspMetaNode :: cspMetaNode :: rest.
Proof.
  split.
  - rewrite !countWhere_walkNodes, countWhere_isHeadElement_walkNodes. lia.
  - intros h Hh.
    rewrite Children_walkNodes_head by now rewrite isHeadElement_walkNodes.
    rewrite (Children_walkNodes_head h) by exact Hh. cbn [map].
    rewrite walkNodes_cspMetaNode. eauto.
Qed.

(** ** Failures of a page *)

(** X5.  A chain of at most five redirects that ends in a response that is
    neither a followed redirect nor status 200 fails with the status
    error: it names the last path asked and its status, and nothing is
    written.  A redirect status without a location is such a
    response. *)
Lemma renderAndWrite_unexpected_status {Disk : Type} `{OS Disk}
    (htmlStep : string -> string -> result string) (mux : ServeMux)
    (outDir urlPath u : string) (k : nat) (d : Disk) :
  (k <= 5)%nat ->
  hops mux urlPath k = Some u ->
  redirectTarget (mux u) = None ->
  Code (mux u) <> StatusOK ->
  renderAndWrite htmlStep mux outDir urlPath d
  = (d, Some (UnexpectedStatus u (Code (mux u)))).
Proof.
  intros Hk Hh Hr Hc. unfold renderAndWrite.
  rewrite (renderAndWriteN_hops htmlStep mux outDir k urlPath u 0 d Hh) by lia.
  rewrite renderAndWriteN_eq. destruct (Z.ltb_spec 5 (0 + Z.of_nat k)); [lia|].
  rewrite Hr. unfold writeResponse.
  destruct (Z.eqb_spec (Code (mux u)) StatusOK); [contradiction|reflexivity].
Qed.

Lemma renderAndWrite_unexpected_status_witness :
  renderAndWrite htmlStepCSP
    (fun p => if String.eqb p "/old" then redirectTo StatusFound "/gone"
              else if String.eqb p "/gone" then redirectTo StatusMovedPermanently ""
              else notFound)
    "out" "/old" (∅ : MemDisk)
  = (∅, Some (UnexpectedStatus "/gone" 301)).
Proof.
  refine (renderAndWrite_unexpected_status (Disk := MemDisk) htmlStepCSP
            (fun p => if String.eqb p "/old" then redirectTo StatusFound "/gone"
                      else if String.eqb p "/gone"
                           then redirectTo StatusMovedPermanently ""
                           else notFound)
            "out" "/old" "/gone" 1 ∅ _ _ _ _);
    [lia|reflexivity|reflexivity|discriminate].
Defined.

(** X6.  In the DOM revision a page that the parser refuses is not written:
    the error of the parser comes back, wrapped twice, and the disk is
    as it was. *)
Lemma renderAndWrite_parse_error {Disk : Type} `{OS Disk} `{HTMLCodec}
    (mux : ServeMux) (outDir urlPath u : string) (k : nat) (d : Disk)
    (err : error) :
  (k <= 5)%nat ->
  hops mux urlPath k = Some u ->
  redirectTarget (mux u) = None ->
  Code (mux u) = StatusOK ->
  Contains (Get (RespHeader (mux u)) "Content-Type") "text/html"
  || String.eqb (Get (RespHeader (mux u)) "Content-Type") "" = true ->
  Parse (Body (mux u)) = Err err ->
  renderAndWrite htmlStepDOM mux outDir urlPath d
  = (d, Some (Wrapped ("processing HTML for " ++ u) (Wrapped "parsing HTML" err))).
Proof.
  intros Hk Hh Hr Hc Hct Hp. unfold renderAndWrite.
  rewrite (renderAndWriteN_hops htmlStepDOM mux outDir k urlPath u 0 d Hh) by lia.
  rewrite renderAndWriteN_eq. destruct (Z.ltb_spec 5 (0 + Z.of_nat k)); [lia|].
  rewrite Hr. unfold writeResponse. rewrite Hc. cbn [Z.eqb negb StatusOK Pos.eqb].
  unfold bodyToWrite. cbv zeta. rewrite Hct.
  unfold htmlStepDOM, processHTML. now rewrite Hp.
Qed.

Lemma renderAndWrite_parse_error_witness :
  @renderAndWrite MemDisk memOS (@htmlStepDOM refusingCodec) homeMux "out" "/" ∅
  = (∅, Some (Wrapped "processing HTML for /"
                (Wrapped "parsing HTML" (External "unexpected EOF")))).
Proof.
  apply (@renderAndWrite_parse_error MemDisk memOS refusingCodec homeMux
           "out" "/" "/" 0); [lia|reflexivity..].
Defined.

(** ** The copy of the assets *)

Lemma walkWith_app {Disk : Type} (fn : WalkEntry -> Disk -> Disk * option error)
    (before after : list WalkEntry) (d : Disk) :
  walkWith fn (before ++ after) d
  = match walkWith fn before d with
    | (d1, Some err) => (d1, Some err)
    | (d1, None) => walkWith fn after d1
    end.
Proof.
  revert d. induction before as [|e before IH]; intros d; [reflexivity|].
  cbn [app walkWith]. destruct (fn e d) as [d1 [err|]]; [reflexivity|apply IH].
Qed.

(** X7.  The copy ends at the first file that cannot be read: the error of
    the read is returned, nothing is written for that file, and the
    entries after it are not copied; the disk is as the entries before
    it left it. *)
Lemma copyEmbeddedFS_unreadable {Disk : Type} `{OS Disk} (fsys : FS)
    (root destDir : string) (before after : list WalkEntry) (e : WalkEntry)
    (d d1 : Disk) (err : error) :
  WalkDir fsys root = (before ++ e :: after)%list ->
  walkWith (copyEntry fsys destDir) before d = (d1, None) ->
  entryErr e = None -> entryIsDir e = false ->
  ReadFile fsys (entryPath e) = Err err ->
  copyEmbeddedFS fsys root destDir d = (d1, Some err).
Proof.
  intros Hw Hb He1 He2 Hr. unfold copyEmbeddedFS. rewrite Hw, walkWith_app, Hb.
  cbn [walkWith]. unfold copyEntry. now rewrite He1, He2, Hr.
Qed.

Lemma copyEmbeddedFS_unreadable_witness :
  copyEmbeddedFS brokenFS "." "out/static" (∅ : MemDisk)
  = ({[ "out/static/a.txt" := "content of a.txt" ]},
     Some (External "input/output error")).
Proof.
  apply (copyEmbeddedFS_unreadable brokenFS "." "out/static"
           [mkWalkEntry "." true None; mkWalkEntry "a.txt" false None]
           [mkWalkEntry "c.txt" false None]
           (mkWalkEntry "b.css" false None)); reflexivity.
Defined.

(** ** The whole run, once more *)

(** X8.  The error of a run is the failure to build the server, to render
    the homepage or to copy one of the two embedded filesystems; the
    enumeration and the other pages never make the run fail. *)
Lemma GenerateStaticSite_errors {Disk : Type} `{OS Disk}
    (htmlStep : string -> string -> result string) (built : result BuildResult)
    (staticFS thirdpartyFS : FS) (outDir : string) (r : Run Disk) (e : error) :
  snd (GenerateStaticSite htmlStep built staticFS thirdpartyFS outDir r) = Some e ->
  exists cause : error,
    e = Wrapped "building server" cause
    \/ e = Wrapped "rendering homepage" cause
    \/ e = Wrapped "copying static assets" cause
    \/ e = Wrapped "copying third_party assets" cause.
Proof.
  unfold GenerateStaticSite. destruct built as [res|err].
  2:{ cbn. intros [= <-]. eauto. }
  destruct (enumerateUnitPaths (Getters res) (AllModules res)) as [paths en] eqn:E.
  pose proof (enumerateUnitPaths_error (Getters res) (AllModules res)) as Hen.
  rewrite E in Hen. cbn in Hen. subst en. cbv zeta.
  destruct (renderAndWrite _ _ _ _ _) as [d [err|]].
  { cbn. intros [= <-]. eauto. }
  unfold copyAssets. cbv zeta.
  destruct (copyEmbeddedFS staticFS _ _ _) as [d1 [err|]].
  { cbn. intros [= <-]. eauto 6. }
  destruct (copyEmbeddedFS thirdpartyFS _ _ _) as [d2 [err|]].
  { cbn. intros [= <-]. eauto 6. }
  cbn. discriminate.
Qed.

Lemma GenerateStaticSite_errors_witness :
  exists cause : error,
    Wrapped "copying static assets" (External "input/output error")
    = Wrapped "building server" cause
    \/ Wrapped "copying static assets" (External "input/output error")
       = Wrapped "rendering homepage" cause
    \/ Wrapped "copying static assets" (External "input/output error")
       = Wrapped "copying static assets" cause
    \/ Wrapped "copying static assets" (External "input/output error")
       = Wrapped "copying third_party assets" cause.
Proof.
  apply (GenerateStaticSite_errors htmlStepCSP
           (Ok (mkBuildResult homeMux [] [])) brokenFS emptyFS "out" emptyRun).
  vm_compute. reflexivity.
Defined.

Lemma fold_renderLogged_current {Disk : Type} `{OS Disk}
    (htmlStep : string -> string -> result string) (mux : ServeMux)
    (outDir : string) (total : Z) (pages : list string) (r : Run Disk) :
  current (fold_left (renderLogged htmlStep mux outDir total) pages r)
  = current r + Z.of_nat (List.length pages).
Proof.
  revert r. induction pages as [|p pages IH]; intros r; cbn [fold_left List.length].
  - lia.
  - rewrite IH. destruct (renderLogged_progress htmlStep mux outDir total r p) as [-> _].
    lia.
Qed.

Lemma copyAssets_ok {Disk : Type} `{OS Disk} (staticFS thirdpartyFS : FS)
    (outDir : string) (r r' : Run Disk) :
  copyAssets staticFS thirdpartyFS outDir r = (r', None) ->
  current r' = current r
  /\ stderr r' = (stderr r ++ [MsgCopying; MsgGenerated outDir])%list
  /\ errlog r' = errlog r.
Proof.
  unfold copyAssets. cbv zeta.
  destruct (copyEmbeddedFS staticFS _ _ _) as [d1 [err|]]; [discriminate|].
  destruct (copyEmbeddedFS thirdpartyFS _ _ _) as [d2 [err|]]; [discriminate|].
  intros [= <-]. destruct (ReadFile staticFS "shared/icon/favicon.ico");
    cbn; rewrite <- app_assoc; repeat split.
Qed.

(** X9.  A run that succeeds has begun every page once: the progress lines
    number the homepage, the static pages and the unit pages from 1 to
    the total announced, in that order, between the announcement and
    the two lines of the copy; the counter ends at the total. *)
Lemma GenerateStaticSite_progress {Disk : Type} `{OS Disk}
    (htmlStep : string -> string -> result string) (res : BuildResult)
    (staticFS thirdpartyFS : FS) (outDir : string) (r r' : Run Disk) :
  GenerateStaticSite htmlStep (Ok res) staticFS thirdpartyFS outDir r = (r', None) ->
  let paths := fst (enumerateUnitPaths (Getters res) (AllModules res)) in
  let pages := ("/" :: staticPages ++ map (fun p => ("/" ++ p)%string) paths)%list in
  let total := Z.of_nat (List.length pages) in
  current r' = current r + total
  /\ stderr r'
     = (stderr r ++ MsgGenerating total :: progressLines (current r) total pages
          ++ [MsgCopying; MsgGenerated outDir])%list.
Proof.
  unfold GenerateStaticSite.
  destruct (enumerateUnitPaths (Getters res) (AllModules res)) as [paths en] eqn:E.
  pose proof (enumerateUnitPaths_error (Getters res) (AllModules res)) as Hen.
  rewrite E in Hen. cbn in Hen. subst en. cbv zeta. cbn [fst].
  set (total := 1 + Z.of_nat (List.length staticPages) + Z.of_nat (List.length paths)).
  assert (Ht : Z.of_nat (List.length
                 ("/" :: staticPages ++ map (fun p => ("/" ++ p)%string) paths)%list)
               = total).
  { cbn [List.length]. rewrite length_app, length_map. subst total. lia. }
  rewrite Ht.
  destruct (renderAndWrite _ _ _ _ _) as [d [err|]]; [discriminate|].
  intros Hc. apply copyAssets_ok in Hc as (Hcur & Herr & _).
  rewrite renderPages_fold in Hcur, Herr.
  rewrite fold_renderLogged_current in Hcur. rewrite pages_all_begun in Herr.
  rewrite length_app, length_map, Nat2Z.inj_add in Hcur.
  unfold setDisk, progress, say in Hcur, Herr. cbn [current stderr] in Hcur, Herr.
  split; [rewrite Hcur; subst total; lia|].
  rewrite Herr. cbn [progressLines]. rewrite <- !app_assoc. reflexivity.
Qed.

Lemma GenerateStaticSite_progress_witness :
  stderr (fst (GenerateStaticSite htmlStepCSP (Ok (mkBuildResult homeMux [] []))
                 emptyFS emptyFS "out" emptyRun))
  = [ MsgGenerating 4; MsgProgress 1 4 "/"; MsgProgress 2 4 "/about";
      MsgProgress 3 4 "/license-policy"; MsgProgress 4 4 "/search-help";
      MsgCopying; MsgGenerated "out" ].
Proof.
  exact (proj2 (GenerateStaticSite_progress htmlStepCSP (mkBuildResult homeMux [] [])
                  emptyFS emptyFS "out" emptyRun _ eq_refl)).
Defined.

(** ** Pages, files and the links between them *)

Lemma splitSlash_up (k : nat) (s : string) :
  splitSlash (repeatN "../" k ++ s) = (List.repeat ".." k ++ splitSlash s)%list.
Proof.
  induction k as [|k IH]; [reflexivity|]. cbn [repeatN List.repeat].
  rewrite append_assoc.
  change ("../" ++ repeatN "../" k ++ s) with (".." ++ "/" ++ repeatN "../" k ++ s).
  now rewrite splitSlash_append, IH.
Qed.

Lemma fold_target (rooted : bool) (t st : list string) :
  forallb isName t = true ->
  fold_left (cleanStep rooted) (splitSlash (GoStrings.Join t "/")) st
  = (List.rev t ++ st)%list.
Proof.
  intros Ht. destruct t as [|x t]; [reflexivity|].
  rewrite splitSlash_Join by (discriminate || now apply Forall_isName_hasSlash).
  now apply fold_names.
Qed.

(** From a directory that lies [names] below a cleaned path, the prefix
    of that depth followed by the names [t] leads to [t] below that
    path. *)
Lemma filepath_Join_up_down (rooted : bool) (elems names t : list string) :
  cleanElems rooted elems -> forallb isName names = true ->
  forallb isName t = true ->
  GoFilepath.Join [render rooted (elems ++ names);
                   upPrefix names ++ GoStrings.Join t "/"]
  = render rooted (elems ++ t).
Proof.
  intros Hc Hn Ht. pose proof (cleanElems_app _ _ _ Hc Hn) as Hc'.
  destruct (elemsOf_render _ _ Hc') as [Hr He].
  cbn [GoFilepath.Join].
  destruct (String.eqb_spec (render rooted (elems ++ names)) "") as [E|_];
    [now apply render_not_empty in E|].
  change (GoStrings.Join [render rooted (elems ++ names);
                          upPrefix names ++ GoStrings.Join t "/"] "/")
    with (render rooted (elems ++ names) ++ "/" ++ upPrefix names ++ GoStrings.Join t "/").
  rewrite Clean_append by apply render_not_empty. rewrite Hr, He.
  destruct names as [|n names].
  - change (upPrefix [] ++ GoStrings.Join t "/")
      with ("." ++ "/" ++ GoStrings.Join t "/").
    rewrite splitSlash_append. change (splitSlash ".") with ["."].
    cbn [app fold_left]. rewrite (cleanStep_skip _ _ ".") by now right.
    rewrite (fold_target _ _ _ Ht), app_nil_r, rev_app_distr, !rev_involutive.
    reflexivity.
  - unfold upPrefix. rewrite splitSlash_up, fold_left_app, rev_app_distr.
    rewrite (fold_pops _ _ _ Hn), (fold_target _ _ _ Ht).
    now rewrite rev_app_distr, !rev_involutive.
Qed.

(** The file of a page below the root. *)
Lemma pageFile_names (outDir : string) (names : list string) :
  names <> [] -> forallb isName names = true ->
  GoFilepath.Ext (GoStrings.Join names "/") = "" ->
  urlPathToFilePath (String "/" (GoStrings.Join names "/")) outDir
  = render (rootedOf outDir) ((elemsOf outDir ++ names) ++ ["index.html"]).
Proof.
  intros Hne Hn Hext.
  assert (Hq : GoStrings.Join names "/" <> "") by now apply Join_names_not_empty.
  assert (Hn' : forallb isName (names ++ ["index.html"]) = true)
    by now rewrite forallb_app, Hn.
  unfold urlPathToFilePath.
  change (TrimPrefix (String "/" (GoStrings.Join names "/")) "/")
    with (GoStrings.Join names "/").
  apply String.eqb_neq in Hq. rewrite Hq, Hext. cbn [String.eqb negb].
  unfold GoFilepath.FromSlash. rewrite <- app_assoc.
  rewrite <- (filepath_Join_names outDir (names ++ ["index.html"]))
    by (assumption || now destruct names).
  apply String.eqb_neq in Hq.
  rewrite Join_app by (assumption || discriminate).
  cbn [GoFilepath.Join]. destruct (String.eqb outDir ""); [|reflexivity].
  apply String.eqb_neq in Hq. rewrite Hq.
  destruct (GoStrings.Join names "/"); [discriminate Hq|reflexivity].
Qed.

(** The file of a path with an extension. *)
Lemma plainFile_names (outDir : string) (names : list string) :
  names <> [] -> forallb isName names = true ->
  GoFilepath.Ext (GoStrings.Join names "/") <> "" ->
  urlPathToFilePath (String "/" (GoStrings.Join names "/")) outDir
  = render (rootedOf outDir) (elemsOf outDir ++ names).
Proof.
  intros Hne Hn Hext.
  assert (Hq : GoStrings.Join names "/" <> "") by now apply Join_names_not_empty.
  unfold urlPathToFilePath.
  change (TrimPrefix (String "/" (GoStrings.Join names "/")) "/")
    with (GoStrings.Join names "/").
  apply String.eqb_neq in Hq, Hext. rewrite Hq, Hext. cbn [negb].
  unfold GoFilepath.FromSlash. now apply filepath_Join_names.
Qed.

(** A page path in pieces: its names, its file, the directory of its
    file and its prefix. *)
Lemma pagePath_pieces (outDir p : string) :
  isPagePath p = true ->
  exists names : list string,
    forallb isName names = true
    /\ drop 1 p = GoStrings.Join names "/"
    /\ p = String "/" (GoStrings.Join names "/")
    /\ urlPathToFilePath p outDir
       = render (rootedOf outDir) ((elemsOf outDir ++ names) ++ ["index.html"])
    /\ relativePrefix p = upPrefix names.
Proof.
  intros [->|(names & Hne & Hn & -> & Hsp & Hext)]%isPagePath_inv.
  - exists []. repeat split. rewrite app_nil_r.
    change (urlPathToFilePath "/" outDir) with (GoFilepath.Join [outDir; "index.html"]).
    now rewrite (filepath_Join_flat outDir ["index.html"]) by (discriminate || reflexivity).
  - exists names. repeat split; [exact Hn|now apply pageFile_names|].
    rewrite relativePrefix_slash by now apply Join_names_not_empty.
    rewrite Hsp, Repeat_of_nat. destruct names; [contradiction|reflexivity].
Qed.

(** X10.  A link from one page to another.  In the page of [p] a URL
    attribute with the value [q] gets the value
    [relativePrefix p ++ q[1:]]; taken from the directory the page of
    [p] is written to, that value names the directory the page of [q]
    is written to. *)
Theorem page_link_resolves (outDir p q : string) :
  isPagePath p = true -> isPagePath q = true ->
  GoFilepath.Join [GoFilepath.Dir (urlPathToFilePath p outDir);
                   relativePrefix p ++ drop 1 q]
  = GoFilepath.Dir (urlPathToFilePath q outDir).
Proof.
  intros (names & Hn & _ & _ & -> & ->)%(pagePath_pieces outDir)
         (t & Ht & -> & _ & -> & _)%(pagePath_pieces outDir).
  pose proof (cleanElems_elemsOf outDir) as Hc. unfold GoFilepath.Dir.
  rewrite !Dir_render by (reflexivity || now apply cleanElems_app).
  now apply filepath_Join_up_down.
Qed.

Lemma page_link_resolves_witness :
  GoFilepath.Join [GoFilepath.Dir (urlPathToFilePath "/net/http" "out");
                   relativePrefix "/net/http" ++ drop 1 "/about"]
  = GoFilepath.Dir (urlPathToFilePath "/about" "out").
Proof. exact (page_link_resolves "out" "/net/http" "/about" eq_refl eq_refl). Defined.

(** The destination of a file copied under [outDir/top]. *)
Lemma copied_dest (outDir top : string) (names : list string) :
  isName top = true -> names <> [] -> forallb isName names = true ->
  GoFilepath.Join [GoFilepath.Join [outDir; top];
                   GoFilepath.FromSlash (GoStrings.Join names "/")]
  = render (rootedOf outDir) (elemsOf outDir ++ top :: names).
Proof.
  intros Ht Hne Hn. pose proof (cleanElems_elemsOf outDir) as Hc.
  assert (Ht' : forallb isName [top] = true) by (cbn; now rewrite Ht).
  change (GoFilepath.Join [outDir; top])
    with (GoFilepath.Join [outDir; GoStrings.Join [top] "/"]).
  rewrite (filepath_Join_names outDir [top]) by (discriminate || assumption).
  unfold GoFilepath.FromSlash. rewrite filepath_Join_names by assumption.
  destruct (elemsOf_render _ _ (cleanElems_app _ _ _ Hc Ht')) as [-> ->].
  now rewrite <- app_assoc.
Qed.

(** X11.  A link from a page to a copied file.  In the page of [p] the
    reference [/top/fpath] to a file of an embedded filesystem gets the
    prefix of [p]; taken from the directory of the page, it names the
    file as [copyEmbeddedFS] writes it under [outDir/top]. *)
Theorem asset_link_resolves (outDir p top fpath : string) :
  isPagePath p = true -> isName top = true -> isFilePath fpath = true ->
  GoFilepath.Join [GoFilepath.Dir (urlPathToFilePath p outDir);
                   relativePrefix p ++ drop 1 ("/" ++ top ++ "/" ++ fpath)]
  = GoFilepath.Join [GoFilepath.Join [outDir; top]; GoFilepath.FromSlash fpath].
Proof.
  intros (names & Hn & _ & _ & -> & ->)%(pagePath_pieces outDir) Ht
         (Hne & Hf & Hp)%isFilePath_inv.
  pose proof (cleanElems_elemsOf outDir) as Hc. unfold GoFilepath.Dir.
  rewrite Dir_render by (reflexivity || now apply cleanElems_app).
  change (drop 1 ("/" ++ top ++ "/" ++ fpath)) with (top ++ "/" ++ fpath).
  rewrite Hp. rewrite (copied_dest _ _ _ Ht Hne Hf).
  rewrite <- Join_cons by assumption.
  apply filepath_Join_up_down; [assumption..|].
  cbn [forallb]. now rewrite Ht, Hf.
Qed.

Lemma asset_link_resolves_witness :
  GoFilepath.Join [GoFilepath.Dir (urlPathToFilePath "/net/http" "out");
                   relativePrefix "/net/http"
                   ++ drop 1 ("/" ++ "static" ++ "/" ++ "frontend/frontend.css")]
  = GoFilepath.Join [GoFilepath.Join ["out"; "static"];
                     GoFilepath.FromSlash "frontend/frontend.css"].
Proof.
  exact (asset_link_resolves "out" "/net/http" "static" "frontend/frontend.css"
           eq_refl eq_refl eq_refl).
Defined.

(** X12.  A reference inside a copied stylesheet or script.  The file
    [fpath] copied under [outDir/top] has its references to
    [/static/] and [/third_party/] rewritten with the prefix of
    [top/fpath]; taken from the directory the file is written to, the
    rewritten reference to the names [t] leads to [t] below
    [outDir]. *)
Theorem asset_reference_resolves (outDir top fpath : string) (t : list string) :
  isName top = true -> isFilePath fpath = true ->
  t <> [] -> forallb isName t = true ->
  let destDir := GoFilepath.Join [outDir; top] in
  let dest := GoFilepath.Join [destDir; GoFilepath.FromSlash fpath] in
  GoFilepath.Join [GoFilepath.Dir dest;
                   assetPrefix (siteRelPath destDir fpath) ++ GoStrings.Join t "/"]
  = GoFilepath.Join [outDir; GoStrings.Join t "/"].
Proof.
  intros Ht Hfp Htn Hn. cbv zeta.
  destruct (siteRelPath_under outDir top fpath Ht Hfp) as [-> _].
  destruct (isFilePath_inv _ Hfp) as (Hne & Hf & Hp).
  pose proof (cleanElems_elemsOf outDir) as Hc.
  rewrite Hp. rewrite (copied_dest _ _ _ Ht Hne Hf).
  destruct (splitSlash fpath) as [|file dirs _] using rev_ind; [contradiction|].
  rewrite forallb_app in Hf. apply andb_true_iff in Hf as [Hd Hfile].
  cbn in Hfile. rewrite andb_true_r in Hfile.
  assert (Hd' : forallb isName (top :: dirs) = true) by (cbn; now rewrite Ht, Hd).
  rewrite <- Join_cons by now destruct dirs.
  change (top :: dirs ++ [file])%list with ((top :: dirs) ++ [file])%list.
  rewrite (assetPrefix_names _ _ Hd' Hfile).
  rewrite (app_assoc (elemsOf outDir) (top :: dirs) [file]).
  unfold GoFilepath.Dir.
  rewrite (Dir_render _ _ file (cleanElems_app _ _ _ Hc Hd') Hfile).
  change (repeatN "../" (List.length (top :: dirs))) with (upPrefix (top :: dirs)).
  rewrite (filepath_Join_up_down _ _ _ _ Hc Hd' Hn).
  symmetry. now apply filepath_Join_names.
Qed.

Lemma asset_reference_resolves_witness :
  GoFilepath.Join
    [GoFilepath.Dir (GoFilepath.Join [GoFilepath.Join ["out"; "static"];
                                      GoFilepath.FromSlash "frontend/frontend.css"]);
     assetPrefix (siteRelPath (GoFilepath.Join ["out"; "static"]) "frontend/frontend.css")
     ++ GoStrings.Join ["static"; "shared"; "icon.svg"] "/"]
  = GoFilepath.Join ["out"; GoStrings.Join ["static"; "shared"; "icon.svg"] "/"].
Proof.
  exact (asset_reference_resolves "out" "static" "frontend/frontend.css"
           ["static"; "shared"; "icon.svg"] eq_refl eq_refl
           ltac:(discriminate) eq_refl).
Defined.

Lemma filepath_Join_parent (outDir : string) :
  GoFilepath.Join [outDir; ".."]
  = render (rootedOf outDir)
      (List.rev (cleanStep (rootedOf outDir) (List.rev (elemsOf outDir)) "..")).
Proof.
  cbn [GoFilepath.Join]. destruct (String.eqb_spec outDir "") as [->|Ho];
    [reflexivity|].
  change (GoStrings.Join [outDir; ".."] "/") with (outDir ++ "/" ++ "..").
  now rewrite Clean_append by assumption.
Qed.

(** X13.  A path whose last segment has an extension is written as a file of
    that name, not as the [index.html] of a directory, but its prefix
    still has one [../] for each segment: taken from the directory of
    the file, the prefix leads to the parent of the output directory,
    one level above the root of the site. *)
Theorem page_with_extension (outDir : string) (names : list string) :
  names <> [] -> forallb isName names = true ->
  GoFilepath.Ext (GoStrings.Join names "/") <> "" ->
  let p := String "/" (GoStrings.Join names "/") in
  urlPathToFilePath p outDir = GoFilepath.Join (outDir :: names)
  /\ relativePrefix p = repeatN "../" (List.length names)
  /\ GoFilepath.Join [GoFilepath.Dir (urlPathToFilePath p outDir); relativePrefix p]
     = GoFilepath.Join [outDir; ".."].
Proof.
  intros Hne Hn Hext. cbv zeta.
  pose proof (cleanElems_elemsOf outDir) as Hc.
  rewrite (plainFile_names _ _ Hne Hn Hext).
  rewrite relativePrefix_slash by now apply Join_names_not_empty.
  rewrite splitSlash_Join by (assumption || now apply Forall_isName_hasSlash).
  rewrite Repeat_of_nat.
  split; [symmetry; now apply filepath_Join_flat|]. split; [reflexivity|].
  rewrite filepath_Join_parent.
  destruct names as [|x init _] using rev_ind; [contradiction|].
  rewrite forallb_app in Hn. apply andb_true_iff in Hn as [Hi Hx].
  cbn in Hx. rewrite andb_true_r in Hx.
  rewrite app_assoc. unfold GoFilepath.Dir.
  rewrite (Dir_render _ _ x (cleanElems_app _ _ _ Hc Hi) Hx).
  destruct (elemsOf_render _ _ (cleanElems_app _ _ _ Hc Hi)) as [Hr He].
  cbn [GoFilepath.Join].
  destruct (String.eqb_spec (render (rootedOf outDir) (elemsOf outDir ++ init)) "")
    as [E|_]; [now apply render_not_empty in E|].
  rewrite length_app, Nat.add_comm. cbn [List.length Nat.add].
  change (GoStrings.Join [render (rootedOf outDir) (elemsOf outDir ++ init);
                          repeatN "../" (S (List.length init))] "/")
    with (render (rootedOf outDir) (elemsOf outDir ++ init) ++ "/"
          ++ repeatN "../" (S (List.length init))).
  rewrite Clean_append by apply render_not_empty. rewrite Hr, He.
  rewrite splitSlash_repeatN.
  change (List.repeat ".." (S (List.length init)))
    with (".." :: List.repeat ".." (List.length init)).
  rewrite repeat_cons, <- app_assoc, !fold_left_app, rev_app_distr.
  rewrite (fold_pops _ _ _ Hi). cbn [fold_left app].
  now rewrite (cleanStep_skip _ _ "") by now left.
Qed.

Lemma page_with_extension_witness :
  urlPathToFilePath "/gopkg.in/yaml.v3" "site/out" = "site/out/gopkg.in/yaml.v3"
  /\ GoFilepath.Join [GoFilepath.Dir (urlPathToFilePath "/gopkg.in/yaml.v3" "site/out");
                      relativePrefix "/gopkg.in/yaml.v3"]
     = "site".
Proof.
  pose proof (page_with_extension "site/out" ["gopkg.in"; "yaml.v3"]
                ltac:(discriminate) eq_refl ltac:(discriminate)) as H.
  cbv zeta in H. destruct H as (H1 & _ & H2). split; [exact H1|exact H2].
Defined.



(** ** The enumeration and the order of the modules *)

Lemma sorted_unique (l1 l2 : list string) :
  StronglySorted (fun a b => is_true (StringOrder.leb a b)) l1 ->
  StronglySorted (fun a b => is_true (StringOrder.leb a b)) l2 ->
  List.NoDup l1 -> List.NoDup l2 ->
  (forall x, In x l1 <-> In x l2) -> l1 = l2.
Proof.
  revert l2. induction l1 as [|x l1 IH]; intros l2 Hs1 Hs2 Hn1 Hn2 Hin.
  - destruct l2 as [|y l2]; [reflexivity|]. now destruct (proj2 (Hin y) (or_introl eq_refl)).
  - destruct l2 as [|y l2]; [now destruct (proj1 (Hin x) (or_introl eq_refl))|].
    inversion Hs1 as [|? ? Hs1' Hx]; inversion Hs2 as [|? ? Hs2' Hy]; subst.
    inversion Hn1 as [|? ? Hx1 Hn1']; inversion Hn2 as [|? ? Hy2 Hn2']; subst.
    assert (x = y) as <-.
    { destruct (proj1 (Hin x) (or_introl eq_refl)) as [E|E]; [now symmetry|].
      destruct (proj2 (Hin y) (or_introl eq_refl)) as [E'|E']; [assumption|].
      rewrite List.Forall_forall in Hx, Hy.
      apply String.leb_antisym; [exact (Hx y E')|exact (Hy x E)]. }
    f_equal. apply IH; try assumption. intros z. split; intros Hz.
    + destruct (proj1 (Hin z) (or_intror Hz)) as [<-|E]; [contradiction|exact E].
    + destruct (proj2 (Hin z) (or_intror Hz)) as [<-|E]; [contradiction|exact E].
Qed.

(** X15.  The paths returned depend on the modules only as a set: the order
    in which the modules are given, and a module given twice, make no
    difference. *)
Theorem enumerateUnitPaths_modules_as_set (getters : list ModuleGetter)
    (modules modules' : list LocalModule) :
  (forall m : LocalModule, In m modules <-> In m modules') ->
  enumerateUnitPaths getters modules = enumerateUnitPaths getters modules'.
Proof.
  intros Hm. unfold enumerateUnitPaths. f_equal. unfold sortStrings.
  destruct (modules_inv getters modules (∅, []) seenInv_empty) as [[Hnd _] Hin].
  destruct (modules_inv getters modules' (∅, []) seenInv_empty) as [[Hnd' _] Hin'].
  set (st := fold_left _ modules _) in *. set (st' := fold_left _ modules' _) in *.
  pose proof (StringSort.Permuted_sort (snd st)) as Hp.
  pose proof (StringSort.Permuted_sort (snd st')) as Hp'.
  apply sorted_unique.
  - apply (StringSort.StronglySorted_sort (snd st) leb_transitive).
  - apply (StringSort.StronglySorted_sort (snd st') leb_transitive).
  - eapply Permutation_NoDup; [exact Hp|]. now apply NoDup_ListNoDup.
  - eapply Permutation_NoDup; [exact Hp'|]. now apply NoDup_ListNoDup.
  - intros p. split; intros H.
    + apply (Permutation_in _ Hp'). apply Hin'.
      apply (Permutation_in _ (Permutation_sym Hp)), Hin in H
        as [[]|(m & ums & H1 & H2 & H3)].
      right. exists m, ums. split; [now apply Hm|]. now split.
    + apply (Permutation_in _ Hp). apply Hin.
      apply (Permutation_in _ (Permutation_sym Hp')), Hin' in H
        as [[]|(m & ums & H1 & H2 & H3)].
      right. exists m, ums. split; [now apply Hm|]. now split.
Qed.

Lemma enumerateUnitPaths_modules_as_set_witness :
  enumerateUnitPaths exampleGetters
    [mkLocalModule "example.com/b"; mkLocalModule "example.com/a"]
  = enumerateUnitPaths exampleGetters
      [mkLocalModule "example.com/a"; mkLocalModule "example.com/b";
       mkLocalModule "example.com/a"].
Proof.
  apply (enumerateUnitPaths_modules_as_set exampleGetters). intros m.
  cbn [In]. tauto.
Defined.

(** ** Text and the shape of the tree *)

Lemma walkNodes_leaf (c : Node) (prefix : string) :
  isElementNode c = false -> Children c = [] -> walkNodes c prefix = c.
Proof.
  intros He Hc. rewrite walkNodes_eq, (visit_not_element _ _ He), Hc.
  now destruct c as [t d ns a cs]; cbn in *; subst.
Qed.

(** X16.  Text in the document.  A childless node that is no element, such
    as a text or a comment, is still a child of its element after the
    walk; it is the same node, except that a text directly in a
    [script] element has had its path literals rewritten by
    [relativizeScriptText].  Text elsewhere is never altered. *)
Theorem walkNodes_text (doc e c : Node) (prefix : string) :
  Occurs e doc -> isElementNode e = true ->
  In c (Children e) -> isElementNode c = false -> Children c = [] ->
  Occurs (walkNodes e prefix) (walkNodes doc prefix)
  /\ In (if String.eqb (Data e) "script" && isTextNode c
         then mkNode TextNode (relativizeScriptText (Data c) prefix)
                     (Namespace c) (Attr c) []
         else c)
        (Children (walkNodes e prefix)).
Proof.
  intros Hoc He Hin Hc Hk. split; [now apply Occurs_walkNodes|].
  rewrite walkNodes_eq. cbn [Children]. unfold visit. rewrite He. cbn [Children].
  assert (Hin' : In c (if String.eqb (Data e) "head"
                       then cspMetaNode :: Children e else Children e)).
  { destruct (String.eqb (Data e) "head"); [now right|exact Hin]. }
  destruct (String.eqb (Data e) "script"); cbn [andb].
  - rewrite map_map. apply in_map_iff. exists c. split; [|exact Hin'].
    unfold rewriteScriptChild. destruct (isTextNode c) eqn:Ht.
    + unfold isTextNode in Ht. destruct c as [t d ns a cs]. cbn in *.
      destruct t; try discriminate. subst cs. now apply walkNodes_leaf.
    + now apply walkNodes_leaf.
  - apply in_map_iff. exists c. split; [now apply walkNodes_leaf|exact Hin'].
Qed.

Lemma walkNodes_text_witness :
  let code := mkNode TextNode "loadScript('/static/a.js')" "" [] [] in
  let script := mkNode ElementNode "script" "" [] [code] in
  let pre := mkNode ElementNode "pre" "" [] [code] in
  let body := mkNode ElementNode "body" "" [] [script; pre] in
  In (mkNode TextNode "loadScript('../static/a.js')" "" [] [])
     (Children (walkNodes script "../"))
  /\ In code (Children (walkNodes pre "../")).
Proof.
  cbv zeta. split.
  - refine (proj2 (walkNodes_text
             (mkNode ElementNode "body" "" []
                [mkNode ElementNode "script" "" []
                   [mkNode TextNode "loadScript('/static/a.js')" "" [] []];
                 mkNode ElementNode "pre" "" []
                   [mkNode TextNode "loadScript('/static/a.js')" "" [] []]])
             (mkNode ElementNode "script" "" []
                [mkNode TextNode "loadScript('/static/a.js')" "" [] []])
             (mkNode TextNode "loadScript('/static/a.js')" "" [] [])
             "../" _ eq_refl _ eq_refl eq_refl)).
    + eapply Occurs_below; [|apply Occurs_here]. now left.
    + now left.
  - refine (proj2 (walkNodes_text
             (mkNode ElementNode "body" "" []
                [mkNode ElementNode "script" "" []
                   [mkNode TextNode "loadScript('/static/a.js')" "" [] []];
                 mkNode ElementNode "pre" "" []
                   [mkNode TextNode "loadScript('/static/a.js')" "" [] []]])
             (mkNode ElementNode "pre" "" []
                [mkNode TextNode "loadScript('/static/a.js')" "" [] []])
             (mkNode TextNode "loadScript('/static/a.js')" "" [] [])
             "../" _ eq_refl _ eq_refl eq_refl)).
    + eapply Occurs_below; [|apply Occurs_here]. right. now left.
    + now left.
Defined.

(** The count of the nodes that pass a test which the walk does not
    change: the nodes of the tree, and the policy node of each [head]
    element if it passes. *)
Lemma countWhere_walkNodes_kind (f : Node -> bool) (prefix : string) (n : Node) :
  (forall m, f (walkNodes m prefix) = f m) ->
  (forall m, f (rewriteScriptChild prefix m) = f m) ->
  countWhere f (walkNodes n prefix)
  = (countWhere f n
     + (if f cspMetaNode then countWhere isHeadElement n else 0))%nat.
Proof.
  intros Hw Hr. induction n as [n IH] using (walk_ind prefix).
  rewrite (countWhere_eq _ (walkNodes n prefix)), Hw.
  rewrite walkNodes_eq. cbn [Children]. rewrite map_map.
  rewrite (list_sum_map_ext _ _ _ IH), list_sum_map_add.
  rewrite (countWhere_eq f n), (countWhere_eq isHeadElement n).
  assert (Hk : forall l : list Node,
             list_sum (map (fun x => if f cspMetaNode
                                     then countWhere isHeadElement x else 0%nat) l)
             = if f cspMetaNode then list_sum (map (countWhere isHeadElement) l)
               else 0%nat).
  { intros l. destruct (f cspMetaNode); [reflexivity|].
    induction l as [|x l IHl]; [reflexivity|exact IHl]. }
  rewrite Hk.
  unfold visit, isHeadElement at 2. destruct (isElementNode n) eqn:He; cbn [andb].
  - cbn [Children]. destruct (String.eqb (Data n) "head") eqn:Hd.
    + apply String.eqb_eq in Hd. rewrite Hd. cbn [String.eqb Ascii.eqb Bool.eqb].
      change (String.eqb "head" "script") with false. cbv iota.
      change (list_sum (map (countWhere f) (cspMetaNode :: Children n)))
        with (countWhere f cspMetaNode
              + list_sum (map (countWhere f) (Children n)))%nat.
      change (list_sum (map (countWhere isHeadElement) (cspMetaNode :: Children n)))
        with (0 + list_sum (map (countWhere isHeadElement) (Children n)))%nat.
      change (countWhere f cspMetaNode)
        with ((if f cspMetaNode then 1 else 0) + 0)%nat.
      destruct (f cspMetaNode); lia.
    + destruct (String.eqb (Data n) "script").
      * rewrite !map_map.
        rewrite (list_sum_map_ext
                   (fun x => countWhere f (rewriteScriptChild prefix x))
                   (countWhere f)),
                (list_sum_map_ext
                   (fun x => countWhere isHeadElement (rewriteScriptChild prefix x))
                   (countWhere isHeadElement)).
        -- destruct (f cspMetaNode); lia.
        -- intros x _. apply countWhere_rewriteScriptChild,
                         isHeadElement_rewriteScriptChild.
        -- intros x _. apply countWhere_rewriteScriptChild, Hr.
      * destruct (f cspMetaNode); lia.
  - destruct (f cspMetaNode); lia.
Qed.

Lemma isTextNode_walkNodes (n : Node) (prefix : string) :
  isTextNode (walkNodes n prefix) = isTextNode n.
Proof.
  rewrite walkNodes_eq. unfold isTextNode, visit, isElementNode.
  destruct n as [t d ns a cs]. cbn. destruct t; reflexivity.
Qed.

(** X17.  The walk removes no node and adds none but the policy node: the
    walked tree has the nodes of the document and one element more for
    each of its [head] elements, and as many text nodes as before. *)
Theorem walkNodes_node_count (doc : Node) (prefix : string) :
  countWhere (fun _ => true) (walkNodes doc prefix)
  = (countWhere (fun _ => true) doc + countWhere isHeadElement doc)%nat
  /\ countWhere isElementNode (walkNodes doc prefix)
     = (countWhere isElementNode doc + countWhere isHeadElement doc)%nat
  /\ countWhere isTextNode (walkNodes doc prefix) = countWhere isTextNode doc.
Proof.
  split; [|split].
  - now apply (countWhere_walkNodes_kind (fun _ => true)).
  - apply (countWhere_walkNodes_kind isElementNode).
    + intros m. apply isElementNode_walkNodes.
    + intros m. unfold rewriteScriptChild, isTextNode, isElementNode.
      destruct m as [t d ns a cs]. destruct t; reflexivity.
  - rewrite (countWhere_walkNodes_kind isTextNode); [cbn; lia|..].
    + intros m. apply isTextNode_walkNodes.
    + intros m. unfold rewriteScriptChild, isTextNode.
      destruct m as [t d ns a cs]. destruct t; reflexivity.
Qed.

(** ** Assets without references *)

Lemma Substring_cons (sub : string) (c : ascii) (s : string) :
  Substring sub s -> Substring sub (String c s).
Proof. intros (pre & post & ->). now exists (String c pre), post. Qed.

Lemma replaceFrom_absent (old new s : string) :
  ~ Substring old s -> replaceFrom old new 0 s = s.
Proof.
  induction s as [|c s IH]; intros Hs; [reflexivity|]. cbn [replaceFrom].
  destruct (HasPrefix (String c s) old) eqn:E.
  - apply HasPrefix_iff in E as [t Ht]. destruct Hs. exists "", t. exact Ht.
  - f_equal. apply IH. intros H. apply Hs. now apply Substring_cons.
Qed.

Lemma ReplaceAll_absent (s old new : string) :
  old <> "" -> ~ Substring old s -> ReplaceAll s old new = s.
Proof.
  intros Ho Hs. unfold ReplaceAll. apply String.eqb_neq in Ho. rewrite Ho.
  now apply replaceFrom_absent.
Qed.

Lemma absoluteToRelativeAsset_absent (content filePath : string) :
  (forall opener dir : string,
      In opener [dquote; squote; "("] -> In dir assetDirs ->
      ~ Substring (opener ++ dir) content) ->
  absoluteToRelativeAsset content filePath = content.
Proof.
  intros H. unfold absoluteToRelativeAsset, assetDirs. cbv zeta. cbn [fold_left].
  rewrite !(ReplaceAll_absent content); try reflexivity; try discriminate;
    apply H; cbn; tauto.
Qed.

(** X18.  A stylesheet or a script in which no quote and no opening
    parenthesis is followed by [/static/] or [/third_party/] comes back
    from [absoluteToRelativeAsset] as it went in, whatever the depth of
    the file; an inline script without such a quoted path comes back
    from [relativizeScriptText] as it went in. *)
Theorem rewriters_without_references :
  (forall content filePath : string,
      (forall opener dir : string,
          In opener [dquote; squote; "("] -> In dir assetDirs ->
          ~ Substring (opener ++ dir) content) ->
      absoluteToRelativeAsset content filePath = content)
  /\ (forall script prefix : string,
        (forall opener dir : string,
            In opener [dquote; squote] -> In dir assetDirs ->
            ~ Substring (opener ++ dir) script) ->
        relativizeScriptText script prefix = script).
Proof.
  split; [exact absoluteToRelativeAsset_absent|].
  intros script prefix H. unfold relativizeScriptText, assetDirs. cbv zeta.
  cbn [fold_left].
  rewrite !(ReplaceAll_absent script); try reflexivity; try discriminate;
    apply H; cbn; tauto.
Qed.

Lemma rewriters_without_references_witness :
  absoluteToRelativeAsset "a { background: url(static/a.png) } /* /static/ */"
    "static/frontend/frontend.css"
  = "a { background: url(static/a.png) } /* /static/ */"
  /\ relativizeScriptText "fetch(base + '/search'); url(/static/x)" "../"
     = "fetch(base + '/search'); url(/static/x)".
Proof.
  split.
  - apply (proj1 rewriters_without_references).
    intros o dir [<-|[<-|[<-|[]]]] [<-|[<-|[]]]; apply Index_absent; reflexivity.
  - apply (proj2 rewriters_without_references).
    intros o dir [<-|[<-|[]]] [<-|[<-|[]]]; apply Index_absent; reflexivity.
Defined.

(** X19.  What the copy never alters.  A file that is neither a stylesheet
    nor a script by its extension, or that holds no reference to
    [/static/] or [/third_party/], is written with the bytes read. *)
Theorem copyEntry_verbatim {Disk : Type} `{OS Disk} (fsys : FS)
    (destDir : string) (e : WalkEntry) (data : string) (d : Disk) :
  entryErr e = None -> entryIsDir e = false ->
  ReadFile fsys (entryPath e) = Ok data ->
  (GoFilepath.Ext (entryPath e) <> ".css" /\ GoFilepath.Ext (entryPath e) <> ".js")
  \/ (forall opener dir : string,
         In opener [dquote; squote; "("] -> In dir assetDirs ->
         ~ Substring (opener ++ dir) data) ->
  let dest := GoFilepath.Join [destDir; GoFilepath.FromSlash (entryPath e)] in
  copyEntry fsys destDir e d
  = match MkdirAll (GoFilepath.Dir dest) d with
    | (d1, Some err) => (d1, Some err)
    | (d1, None) => WriteFile dest data d1
    end.
Proof.
  intros He Hd Hr Hcase. cbv zeta. unfold copyEntry. rewrite He, Hd, Hr. cbv zeta.
  destruct Hcase as [[H1 H2]|Habs].
  - apply String.eqb_neq in H1, H2. now rewrite H1, H2.
  - rewrite (absoluteToRelativeAsset_absent _ _ Habs).
    now destruct (_ || _).
Qed.

Lemma copyEntry_verbatim_witness :
  copyEntry brokenFS "out/static" (mkWalkEntry "a.txt" false None) (∅ : MemDisk)
  = ({[ "out/static/a.txt" := "content of a.txt" ]}, None).
Proof.
  assert (H1 : GoFilepath.Ext (entryPath (mkWalkEntry "a.txt" false None)) <> ".css"
               /\ GoFilepath.Ext (entryPath (mkWalkEntry "a.txt" false None)) <> ".js")
    by (split; discriminate).
  pose proof (@copyEntry_verbatim MemDisk memOS brokenFS "out/static"
                (mkWalkEntry "a.txt" false None) "content of a.txt" (∅ : MemDisk)
                eq_refl eq_refl eq_refl (or_introl H1)) as H.
  vm_compute in H. vm_compute. exact H.
Defined.

(** ** The policy tag and the first [head] *)

Lemma indexFrom_upper (sub pre post : string) (i : Z) :
  indexFrom sub i (pre ++ sub ++ post) <= i + Z.of_nat (String.length pre).
Proof.
  revert i. induction pre as [|c pre IH]; intros i.
  - cbn [append String.length]. destruct (sub ++ post) as [|c s] eqn:E.
    + destruct sub; [cbn; lia|discriminate].
    + cbn [indexFrom]. rewrite <- E, HasPrefix_append. lia.
  - cbn [append indexFrom String.length].
    destruct (HasPrefix (String c (pre ++ sub ++ post)) sub); [lia|].
    specialize (IH (i + 1)). lia.
Qed.

(** [Index] answers with the first occurrence. *)
Lemma Index_first (sub pre post : string) :
  (forall pre' post' : string,
      pre ++ sub ++ post = pre' ++ sub ++ post' ->
      (String.length pre <= String.length pre')%nat) ->
  Index (pre ++ sub ++ post) sub = Z.of_nat (String.length pre).
Proof.
  intros Hfirst. unfold Index.
  pose proof (indexFrom_upper sub pre post 0) as Hup.
  pose proof (indexFrom_complete sub pre post 0 ltac:(lia)) as Hlo.
  destruct (indexFrom_sound sub 0 (pre ++ sub ++ post)) as (pre' & post' & E & Hix);
    [lia|].
  specialize (Hfirst pre' post' E). lia.
Qed.

Lemma Index_is_first (s sub : string) (k : nat) :
  Index s sub = Z.of_nat k ->
  forall pre' post' : string,
    s = pre' ++ sub ++ post' -> (k <= String.length pre')%nat.
Proof.
  intros Hk pre' post' ->. pose proof (indexFrom_upper sub pre' post' 0) as Hup.
  unfold Index in Hk. lia.
Qed.

Lemma IndexByte_first (c : ascii) (a post : string) (i : Z) :
  0 <= i -> indexFrom (String c "") i a = -1 ->
  indexFrom (String c "") i (a ++ String c post) = i + Z.of_nat (String.length a).
Proof.
  revert i. induction a as [|x a IH]; intros i Hi Ha.
  - cbn [append indexFrom String.length]. rewrite HasPrefix_char, Ascii.eqb_refl.
    cbn. lia.
  - cbn [append indexFrom String.length] in *. rewrite HasPrefix_char in *.
    destruct (Ascii.eqb c x); [lia|]. rewrite IH by (lia || assumption). lia.
Qed.

Lemma insert_at (pre mid post ins : string) :
  slice_to (pre ++ mid ++ post) (Z.of_nat (String.length pre + String.length mid))
  ++ ins ++ slice_from (pre ++ mid ++ post)
                       (Z.of_nat (String.length pre + String.length mid))
  = pre ++ mid ++ ins ++ post.
Proof.
  unfold slice_to, slice_from. rewrite Nat2Z.id.
  rewrite take_append, drop_append.
  rewrite <- (Nat.add_0_r (String.length mid)), take_append, drop_append.
  cbn [take drop]. now rewrite append_nil_r, !append_assoc.
Qed.

(** X20.  With a [<head>] in the page the policy tag goes right behind the
    first one, wherever it stands, and the rest of the page is kept. *)
Theorem injectCSP_first_head (pre post : string) :
  (forall pre' post' : string,
      pre ++ "<head>" ++ post = pre' ++ "<head>" ++ post' ->
      (String.length pre <= String.length pre')%nat) ->
  injectCSP (pre ++ "<head>" ++ post) = pre ++ "<head>" ++ cspInsertion ++ post.
Proof.
  intros Hfirst. unfold injectCSP. rewrite (Index_first _ _ _ Hfirst).
  destruct (Z.leb_spec 0 (Z.of_nat (String.length pre))) as [_|]; [|lia].
  rewrite <- Nat2Z.inj_add. apply insert_at.
Qed.

Lemma injectCSP_first_head_witness :
  injectCSP ("<html>" ++ "<head>" ++ "<title><head></title></head>")
  = "<html>" ++ "<head>" ++ cspInsertion ++ "<title><head></title></head>".
Proof.
  apply (injectCSP_first_head "<html>" "<title><head></title></head>").
  apply (Index_is_first _ "<head>" 6). reflexivity.
Defined.

Lemma Substring_char_cons (c x : ascii) (s : string) :
  Substring (String c "") (String x s) -> x = c \/ Substring (String c "") s.
Proof.
  intros ([|a pre] & post & E); cbn in E; injection E as -> E; [now left|].
  right. now exists pre, post.
Qed.

Lemma IndexByte_absent (s : string) (c : ascii) :
  ~ Substring (String c "") s -> indexFrom (String c "") 0 s = -1.
Proof.
  intros H. apply Index_not_Substring in H. apply Z.leb_gt in H.
  unfold Index in H. destruct (indexFrom_lower (String c "") 0 s); lia.
Qed.

Lemma head_tag_open (attrs : string) :
  ~ Substring ">" attrs -> ~ Substring ">" ("<head " ++ attrs).
Proof.
  intros Ha H. cbn [append] in H.
  repeat (apply Substring_char_cons in H as [H|H]; [discriminate|]).
  contradiction.
Qed.

(** X21.  Without a [<head>] in the page, the tag goes behind the first [>]
    that follows the first [<head ]: a [head] tag with attributes gets
    the policy tag right behind it, and the rest of the page is kept;
    if no [>] follows, the page is left as it is. *)
Theorem injectCSP_head_with_attributes :
  (forall pre attrs post : string,
      ~ Substring "<head>" (pre ++ "<head " ++ attrs ++ ">" ++ post) ->
      (forall pre' post' : string,
          pre ++ "<head " ++ attrs ++ ">" ++ post = pre' ++ "<head " ++ post' ->
          (String.length pre <= String.length pre')%nat) ->
      ~ Substring ">" attrs ->
      injectCSP (pre ++ "<head " ++ attrs ++ ">" ++ post)
      = pre ++ "<head " ++ attrs ++ ">" ++ cspInsertion ++ post)
  /\ (forall pre rest : string,
        ~ Substring "<head>" (pre ++ "<head " ++ rest) ->
        (forall pre' post' : string,
            pre ++ "<head " ++ rest = pre' ++ "<head " ++ post' ->
            (String.length pre <= String.length pre')%nat) ->
        ~ Substring ">" rest ->
        injectCSP (pre ++ "<head " ++ rest) = pre ++ "<head " ++ rest).
Proof.
  split.
  - intros pre attrs post Hno Hfirst Hattrs.
    assert (E : IndexByte (slice_from (pre ++ "<head " ++ attrs ++ ">" ++ post)
                             (Z.of_nat (String.length pre))) ">"
                = Z.of_nat (String.length ("<head " ++ attrs))).
    { unfold slice_from. rewrite Nat2Z.id.
      rewrite <- (Nat.add_0_r (String.length pre)), drop_append. cbn [drop].
      unfold IndexByte. rewrite <- (append_assoc "<head " attrs (">" ++ post)).
      change (">" ++ post) with (String ">" post).
      rewrite IndexByte_first
        by (lia || apply IndexByte_absent, head_tag_open, Hattrs).
      lia. }
    unfold injectCSP.
    rewrite (Index_not_Substring _ _ Hno), (Index_first _ _ _ Hfirst).
    destruct (Z.leb_spec 0 (Z.of_nat (String.length pre))) as [_|]; [|lia].
    rewrite E.
    destruct (Z.leb_spec 0 (Z.of_nat (String.length ("<head " ++ attrs))))
      as [_|]; [|lia].
    replace (Z.of_nat (String.length pre)
             + Z.of_nat (String.length ("<head " ++ attrs)) + 1)
      with (Z.of_nat (String.length pre
                      + String.length (("<head " ++ attrs) ++ ">")))
      by (rewrite (length_append ("<head " ++ attrs) ">"); cbn [String.length]; lia).
    rewrite <- (append_assoc "<head " attrs (">" ++ post)).
    rewrite <- (append_assoc ("<head " ++ attrs) ">" post).
    rewrite insert_at. now rewrite !append_assoc.
  - intros pre rest Hno Hfirst Hrest.
    assert (E : IndexByte (slice_from (pre ++ "<head " ++ rest)
                             (Z.of_nat (String.length pre))) ">" = -1).
    { unfold slice_from. rewrite Nat2Z.id.
      rewrite <- (Nat.add_0_r (String.length pre)), drop_append. cbn [drop].
      apply IndexByte_absent, head_tag_open, Hrest. }
    unfold injectCSP.
    rewrite (Index_not_Substring _ _ Hno), (Index_first _ _ _ Hfirst).
    destruct (Z.leb_spec 0 (Z.of_nat (String.length pre))) as [_|]; [|lia].
    rewrite E. reflexivity.
Qed.

Lemma injectCSP_head_with_attributes_witness :
  injectCSP ("<html>" ++ "<head " ++ "lang=en" ++ ">" ++ "<title>t</title></head>")
  = "<html>" ++ "<head " ++ "lang=en" ++ ">" ++ cspInsertion
    ++ "<title>t</title></head>".
Proof.
  apply (proj1 injectCSP_head_with_attributes "<html>" "lang=en"
           "<title>t</title></head>").
  - apply Index_absent. reflexivity.
  - apply (Index_is_first _ "<head " 6). reflexivity.
  - apply Index_absent. reflexivity.
Defined.

(** ** The base path *)

Lemma HasSuffix_slash (s : string) : HasSuffix (s ++ "/") "/" = true.
Proof.
  unfold HasSuffix. rewrite length_append. cbn [String.length].
  apply andb_true_iff. split; [apply Nat.leb_le; lia|].
  replace (String.length s + 1 - 1)%nat with (String.length s + 0)%nat by lia.
  now rewrite drop_append.
Qed.

(** X22.  The base path of a run begins and ends with a slash, whatever was
    given; the empty base path is the root; and a base path that has
    been normalized is not changed by a second normalization. *)
Theorem normalizeBasePath_shape (basePath : string) :
  let bp := BasePathRev.normalizeBasePath basePath in
  HasPrefix bp "/" = true /\ HasSuffix bp "/" = true
  /\ BasePathRev.normalizeBasePath bp = bp
  /\ (BasePathRev.newBasePathRewriter bp = None <-> basePath = "" \/ basePath = "/").
Proof.
  cbv zeta.
  assert (H : HasPrefix (BasePathRev.normalizeBasePath basePath) "/" = true
              /\ HasSuffix (BasePathRev.normalizeBasePath basePath) "/" = true).
  { unfold BasePathRev.normalizeBasePath. cbv zeta.
    destruct (String.eqb basePath ""); [split; reflexivity|].
    set (b1 := if negb (HasPrefix basePath "/") then "/" ++ basePath else basePath).
    assert (H1 : HasPrefix b1 "/" = true).
    { subst b1. destruct (HasPrefix basePath "/") eqn:E; [exact E|reflexivity]. }
    destruct (HasSuffix b1 "/") eqn:E2; cbn [negb]; [now split|].
    split; [|apply HasSuffix_slash].
    apply HasPrefix_iff in H1 as [t ->]. reflexivity. }
  destruct H as [H1 H2]. split; [exact H1|]. split; [exact H2|]. split.
  - revert H1 H2. generalize (BasePathRev.normalizeBasePath basePath) as bp.
    intros bp H1 H2. unfold BasePathRev.normalizeBasePath. cbv zeta.
    destruct (String.eqb_spec bp "") as [->|_]; [discriminate|].
    rewrite H1. cbn [negb]. now rewrite H2.
  - unfold BasePathRev.newBasePathRewriter.
    destruct (String.eqb_spec (BasePathRev.normalizeBasePath basePath) "/") as [E|E].
    + split; [intros _|reflexivity]. revert E.
      unfold BasePathRev.normalizeBasePath. cbv zeta.
      destruct basePath as [|c s]; [now left|].
      change (String.eqb (String c s) "") with false. cbv iota.
      rewrite HasPrefix_char. destruct (Ascii.eqb_spec "/" c) as [<-|Hc]; cbn [negb].
      * destruct (HasSuffix (String "/" s) "/"); cbn [negb].
        -- intros [= ->]. now right.
        -- rewrite append_cons. intros [= E]. now destruct s.
      * change ("/" ++ String c s) with (String "/" (String c s)).
        destruct (HasSuffix (String "/" (String c s)) "/"); cbn [negb];
          [|rewrite !append_cons]; discriminate.
    + split; [discriminate|]. intros [-> | ->]; now destruct E.
Qed.

(** ** The base path and the plain copy *)

Lemma walkWith_ext {Disk : Type} (f g : WalkEntry -> Disk -> Disk * option error)
    (entries : list WalkEntry) (d : Disk) :
  (forall e d', In e entries -> f e d' = g e d') ->
  walkWith f entries d = walkWith g entries d.
Proof.
  revert d. induction entries as [|e entries IH]; intros d Hfg; [reflexivity|].
  cbn [walkWith]. rewrite (Hfg e d) by now left.
  destruct (g e d) as [d1 [err|]]; [reflexivity|].
  apply IH. intros e' d' He'. apply Hfg. now right.
Qed.

Lemma rewriteAbsolutePathsInAsset_absent (content basePath : string) :
  (forall opener dir : string,
      In opener [dquote; squote; "("] -> In dir ["/static/"; "/third_party/"] ->
      ~ Substring (opener ++ dir) content) ->
  BasePathRev.rewriteAbsolutePathsInAsset content basePath = content.
Proof.
  intros H. unfold BasePathRev.rewriteAbsolutePathsInAsset.
  destruct (String.eqb basePath "/"); [reflexivity|]. cbv zeta. cbn [fold_left].
  rewrite !(ReplaceAll_absent content); try reflexivity; try discriminate;
    apply H; cbn; tauto.
Qed.

(** X23.  The revision with a base path copies the assets as the first
    revision does, byte for byte, when the base path is the root, given
    as [/] or left empty, and also when no file of the embedded
    filesystem holds a reference to [/static/] or [/third_party/]. *)
Theorem copyEmbeddedFS_base_path_plain {Disk : Type} `{OS Disk} (fsys : FS)
    (root destDir basePath : string) (d : Disk) :
  (basePath = "" \/ basePath = "/")
  \/ (forall (e : WalkEntry) (data opener dir : string),
         In e (WalkDir fsys root) -> ReadFile fsys (entryPath e) = Ok data ->
         In opener [dquote; squote; "("] -> In dir ["/static/"; "/third_party/"] ->
         ~ Substring (opener ++ dir) data) ->
  BasePathRev.copyEmbeddedFS fsys root destDir
    (BasePathRev.newBasePathRewriter (BasePathRev.normalizeBasePath basePath)) d
  = FirstRev.copyEmbeddedFS fsys root destDir d.
Proof.
  intros Hcase. unfold BasePathRev.copyEmbeddedFS, FirstRev.copyEmbeddedFS.
  apply walkWith_ext. intros e d' He.
  unfold BasePathRev.copyEntry, FirstRev.copyEntry.
  destruct (entryErr e); [reflexivity|]. cbv zeta.
  destruct (entryIsDir e); [reflexivity|].
  destruct (ReadFile fsys (entryPath e)) as [data|err] eqn:Hr; [|reflexivity].
  destruct Hcase as [[-> | ->]|Habs]; [reflexivity..|].
  destruct (BasePathRev.newBasePathRewriter _) as [rw|]; [|reflexivity].
  destruct (_ || _); [|reflexivity].
  rewrite rewriteAbsolutePathsInAsset_absent; [reflexivity|].
  intros opener dir Ho Hd. exact (Habs e data opener dir He Hr Ho Hd).
Qed.

Lemma copyEmbeddedFS_base_path_plain_witness :
  BasePathRev.copyEmbeddedFS styleFS "." "out/static"
    (BasePathRev.newBasePathRewriter (BasePathRev.normalizeBasePath "")) (∅ : MemDisk)
  = FirstRev.copyEmbeddedFS styleFS "." "out/static" ∅.
Proof.
  exact (@copyEmbeddedFS_base_path_plain MemDisk memOS styleFS "." "out/static" ""
           ∅ (or_introl (or_introl eq_refl))).
Defined.

(** ** What a page is written with *)

(** X24.  On a disk that never fails, a page reached within five redirects
    with status 200 is written to the file of the path the redirects
    end at.  A body whose content type holds [text/html], or has no
    content type, is parsed, walked with the relative prefix of that
    path and rendered; any other body is written as it is. *)
Theorem renderAndWrite_writes `{HTMLCodec} (mux : ServeMux)
    (outDir urlPath u : string) (k : nat) (d : MemDisk) :
  (k <= 5)%nat ->
  hops mux urlPath k = Some u ->
  redirectTarget (mux u) = None ->
  Code (mux u) = StatusOK ->
  let contentType := Get (RespHeader (mux u)) "Content-Type" in
  (forall (doc : Node) (out : string),
      Contains contentType "text/html" || String.eqb contentType "" = true ->
      Parse (Body (mux u)) = Ok doc ->
      Render (walkNodes doc (relativePrefix u)) = Ok out ->
      renderAndWrite htmlStepDOM mux outDir urlPath d
      = (<[urlPathToFilePath u outDir := out]> d, None))
  /\ (Contains contentType "text/html" || String.eqb contentType "" = false ->
      renderAndWrite htmlStepDOM mux outDir urlPath d
      = (<[urlPathToFilePath u outDir := Body (mux u)]> d, None)).
Proof.
  intros Hk Hh Hr Hc. cbv zeta.
  assert (E : renderAndWrite htmlStepDOM mux outDir urlPath d
              = writeResponse htmlStepDOM (mux u) u outDir d).
  { unfold renderAndWrite.
    rewrite (renderAndWriteN_hops htmlStepDOM mux outDir k urlPath u 0 d Hh) by lia.
    rewrite renderAndWriteN_eq. destruct (Z.ltb_spec 5 (0 + Z.of_nat k)); [lia|].
    now rewrite Hr. }
  rewrite E. unfold writeResponse, bodyToWrite. rewrite Hc.
  cbn [Z.eqb negb StatusOK Pos.eqb]. cbv zeta. split.
  - intros doc out Hct Hp Hrender. rewrite Hct.
    unfold htmlStepDOM, processHTML. cbv zeta. now rewrite Hp, Hrender.
  - intros Hct. now rewrite Hct.
Qed.

Lemma renderAndWrite_writes_witness :
  @renderAndWrite MemDisk memOS (@htmlStepDOM refusingCodec) chainMux "out" "/a" ∅
  = ({[ "out/f/index.html" := "final" ]}, None).
Proof.
  pose proof (proj2 (@renderAndWrite_writes refusingCodec chainMux "out" "/a" "/f" 5 ∅
                       ltac:(lia) eq_refl eq_refl eq_refl) eq_refl) as H.
  vm_compute in H. vm_compute. exact H.
Defined.
